(** * Channel-identifier resolution pipeline (route.ts of resolve-id)

    A shallow embedding of [src/app/api/youtube/channel/resolve-id/route.ts]:
    the three strategies [fetchChannelFeed], [extractChannelIdFromHtml] and
    [scrapeChannelInfo], the browser launcher [getBrowser] and the HTTP
    handler [GET].

    JavaScript strings are lists of code units ([list ascii], so the code
    units below 256); dynamically
    typed values (the xml2js parse tree, the fields of the result record)
    are values of [JSVal]; asynchronous functions that may throw are
    computations of the monad [M], which threads the outside world and a
    log of the effects performed, and keeps both when an exception is
    thrown. *)

From Stdlib Require Import List Ascii String Bool Arith ZArith Lia DecimalString.
Import ListNotations.

Set Implicit Arguments.

Definition str : Type := list ascii.

(** A string literal of the source, as a list of code units. *)
Definition L (s : string) : str := list_ascii_of_string s.

(* ===================================================================== *)
(** ** String primitives of the JavaScript runtime *)
(* ===================================================================== *)

Module JSString.

Definition str_eqb (a b : str) : bool :=
  if list_eq_dec ascii_dec a b then true else false.

(** [s.startsWith(p)], returning what follows the prefix. *)
Fixpoint stripPrefix (p s : str) : option str :=
  match p, s with
  | [], _ => Some s
  | _ :: _, [] => None
  | a :: p', b :: s' => if Ascii.eqb a b then stripPrefix p' s' else None
  end.

Definition startsWith (p s : str) : bool :=
  match stripPrefix p s with Some _ => true | None => false end.

(** [s.indexOf(p)]: position of the leftmost occurrence. *)
Fixpoint indexOf (p s : str) : option nat :=
  if startsWith p s then Some 0
  else match s with
       | [] => None
       | _ :: s' => option_map S (indexOf p s')
       end.

(** [s.includes(p)]. *)
Definition includes (s p : str) : bool :=
  match indexOf p s with Some _ => true | None => false end.

(** [s.split(sep)] for a non-empty separator: the pieces between the
    non-overlapping occurrences of [sep], scanned from the left.  When
    an occurrence starts at the current position the piece collected so
    far is emitted and the remaining [length sep - 1] code units of the
    occurrence are skipped. *)
Fixpoint split_go (sep : str) (skip : nat) (cur : str) (s : str) : list str :=
  match s with
  | [] => [cur]
  | c :: s' =>
      match skip with
      | S k => split_go sep k cur s'
      | O =>
          if startsWith sep s
          then cur :: split_go sep (List.length sep - 1) [] s'
          else split_go sep 0 (cur ++ [c]) s'
      end
  end.

Definition split (sep s : str) : list str := split_go sep 0 [] s.

(** [arr.pop()] as an expression: the last element, [None] for
    [undefined] on an empty array. *)
Definition pop (l : list str) : option str :=
  match rev l with
  | [] => None
  | x :: _ => Some x
  end.

(** [s.replace(pat, rep)] with a string pattern: only the first
    occurrence is replaced. *)
Fixpoint replace (pat rep s : str) : str :=
  match stripPrefix pat s with
  | Some rest => rep ++ rest
  | None =>
      match s with
      | [] => []
      | c :: s' => c :: replace pat rep s'
      end
  end.

(** *** [parseInt(s, 10)] *)

(** The numbers the route can come to hold: integers, the infinities
    and [NaN].  An [Int z] is a number of the runtime when [z] is a
    double, as every value of [roundToDouble] is; [-0] is not told from
    [0], which no operation of the route distinguishes. *)
Inductive JSNum :=
| Int (z : Z)
| Inf (negative : bool)
| NaN.

Definition isWhiteSpace (c : ascii) : bool :=
  let n := nat_of_ascii c in
  ((9 <=? n) && (n <=? 13)) || (n =? 32) || (n =? 160).

Definition isDigit (c : ascii) : bool :=
  let n := nat_of_ascii c in (48 <=? n) && (n <=? 57).

Definition digitVal (c : ascii) : Z := Z.of_nat (nat_of_ascii c) - 48.

Fixpoint dropWhile (f : ascii -> bool) (s : str) : str :=
  match s with
  | [] => []
  | c :: s' => if f c then dropWhile f s' else s
  end.

Fixpoint takeWhile (f : ascii -> bool) (s : str) : str :=
  match s with
  | [] => []
  | c :: s' => if f c then c :: takeWhile f s' else []
  end.

Definition digitsValue (ds : str) : Z :=
  fold_left (fun acc c => 10 * acc + digitVal c)%Z ds 0%Z.

(** The double nearest to an integer, ties going to the even
    significand: the integer itself below [2^53], an infinity from
    [2^1024 - 2^970] on. *)
Definition roundToDouble (z : Z) : JSNum :=
  let a := Z.abs z in
  if (a <? 2 ^ 53)%Z then Int z
  else
    let e := (Z.log2 a - 52)%Z in
    let significand := Z.shiftr a e in
    let rest := (a - Z.shiftl significand e)%Z in
    let half := Z.shiftl 1 (e - 1) in
    let rounded :=
      if (half <? rest)%Z || ((half =? rest)%Z && Z.odd significand)
      then (significand + 1)%Z else significand in
    let v := Z.shiftl rounded e in
    if (2 ^ 1024 <=? v)%Z then Inf (z <? 0)%Z
    else Int (if (z <? 0)%Z then (- v)%Z else v).

(** Leading white space is skipped, one sign is read, then the longest
    run of decimal digits; no digit at all gives [NaN].  The result is
    a number of the runtime, the double nearest to the integer the
    digits denote, which is how V8 reads them (the language standard
    also lets an implementation take the digits after the twentieth
    for zeros). *)
Definition parseInt10 (s : str) : JSNum :=
  let s1 := dropWhile isWhiteSpace s in
  let '(neg, s2) :=
    match s1 with
    | c :: r =>
        if Ascii.eqb c "-"%char then (true, r)
        else if Ascii.eqb c "+"%char then (false, r)
        else (false, s1)
    | [] => (false, s1)
    end in
  match takeWhile isDigit s2 with
  | [] => NaN
  | ds => roundToDouble (if neg then (- digitsValue ds)%Z else digitsValue ds)
  end.

(** Decimal rendering of an integer, as [String(n)] gives it for an
    integer below [10^21]. *)
Definition showZ (z : Z) : str := L (NilZero.string_of_int (Z.to_int z)).

Definition isInt (n : JSNum) (z : Z) : bool :=
  match n with
  | Int z' => (z' =? z)%Z
  | _ => false
  end.

(** The shortest decimal significand of the double [a], which has [n]
    decimal digits: the least number [k] of digits, starting from [k],
    with an integer [s] such that [s * 10^(n-k)] is read back as [a];
    of two such [s] the one nearer to [a], of two equally near the even
    one.  The result is the pair of [s] and [n - k]. *)
Fixpoint shortestDigits (fuel : nat) (a n k : Z) : Z * Z :=
  match fuel with
  | O => (a, 0%Z)
  | S fuel' =>
      let m := (n - k)%Z in
      let p := (10 ^ m)%Z in
      let lo := (a / p)%Z in
      let hi := (lo + 1)%Z in
      let okLo := isInt (roundToDouble (lo * p)) a in
      let okHi := isInt (roundToDouble (hi * p)) a in
      let dLo := (a - lo * p)%Z in
      let dHi := (hi * p - a)%Z in
      if okLo && okHi
      then (if (dLo <? dHi)%Z then lo
            else if (dHi <? dLo)%Z then hi
            else if Z.even lo then lo else hi, m)
      else if okLo then (lo, m)
      else if okHi then (hi, m)
      else shortestDigits fuel' a n (k + 1)%Z
  end.

(** [String(a)] for a double [a] from [10^21] on: the digits of the
    shortest significand, a point after the first when there are
    more, and the decimal exponent. *)
Definition showExponential (a : Z) : str :=
  let n := Z.of_nat (List.length (showZ a)) in
  let '(s, m) := shortestDigits 17 a n 1 in
  let ds := showZ s in
  let exponent := (m + Z.of_nat (List.length ds) - 1)%Z in
  match rev (dropWhile (Ascii.eqb "0"%char) (rev ds)) with
  | [] => []
  | [d] => d :: L "e+" ++ showZ exponent
  | d :: more => d :: L "." ++ more ++ L "e+" ++ showZ exponent
  end.

(** [String(n)] *)
Definition showNum (n : JSNum) : str :=
  match n with
  | Int z =>
      if (Z.abs z <? 10 ^ 21)%Z then showZ z
      else (if (z <? 0)%Z then L "-" else []) ++ showExponential (Z.abs z)
  | Inf negative => if negative then L "-Infinity" else L "Infinity"
  | NaN => L "NaN"
  end.

End JSString.
Import JSString.

(* ===================================================================== *)
(** ** The fragment of regular expressions the route uses *)
(* ===================================================================== *)

(** Every pattern of the file is a sequence of literal texts, greedy
    [[class]+] runs and counted [[class]{n}] runs, with one capture
    group around a contiguous part of the sequence.  [matchAt] is the
    backtracking matcher at a fixed start position: a greedy run tries
    its longest extent first and gives code units back one at a time.
    [search] tries the start positions from the left, as
    [String.prototype.match] does for a pattern without flags. *)
Module Regex.

Inductive atom :=
| Lit (s : str)
| Plus (cls : ascii -> bool)
| Rep (n : nat) (cls : ascii -> bool).

Record regex := { before : list atom; group1 : list atom; after : list atom }.

Fixpoint takeN (n : nat) (cls : ascii -> bool) (s : str) : option (str * str) :=
  match n with
  | O => Some ([], s)
  | S k =>
      match s with
      | c :: s' =>
          if cls c
          then match takeN k cls s' with
               | Some (w, r) => Some (c :: w, r)
               | None => None
               end
          else None
      | [] => None
      end
  end.

(** The result lists, atom by atom, the text each atom consumed. *)
Fixpoint matchAt (p : list atom) (s : str) {struct p} : option (list str) :=
  match p with
  | [] => Some []
  | Lit l :: p' =>
      match stripPrefix l s with
      | Some r => option_map (cons l) (matchAt p' r)
      | None => None
      end
  | Rep n cls :: p' =>
      match takeN n cls s with
      | Some (w, r) => option_map (cons w) (matchAt p' r)
      | None => None
      end
  | Plus cls :: p' =>
      (fix plus (w : str) (s : str) {struct s} : option (list str) :=
         match s with
         | c :: s' =>
             if cls c
             then match plus (w ++ [c]) s' with
                  | Some r => Some r
                  | None => option_map (cons (w ++ [c])) (matchAt p' s')
                  end
             else None
         | [] => None
         end) [] s
  end.

Fixpoint search (p : list atom) (s : str) : option (list str) :=
  match matchAt p s with
  | Some ws => Some ws
  | None =>
      match s with
      | [] => None
      | _ :: s' => search p s'
      end
  end.

(** [s.match(re)]: [None] for [null], otherwise the text of capture
    group 1 (element [1] of the match array). *)
Definition capture1 (re : regex) (s : str) : option str :=
  match search (before re ++ group1 re ++ after re) s with
  | Some ws =>
      Some (List.concat (firstn (List.length (group1 re))
                           (skipn (List.length (before re)) ws)))
  | None => None
  end.

(** Character classes. *)
Definition dq : ascii := "034"%char.
Definition notQuote (c : ascii) : bool := negb (Ascii.eqb c dq).
Definition notLt (c : ascii) : bool := negb (Ascii.eqb c "<"%char).
Definition isLower (c : ascii) : bool :=
  let n := nat_of_ascii c in (97 <=? n) && (n <=? 122).
Definition isUpper (c : ascii) : bool :=
  let n := nat_of_ascii c in (65 <=? n) && (n <=? 90).
(** [[a-zA-Z0-9_-]] *)
Definition idChar (c : ascii) : bool :=
  isLower c || isUpper c || isDigit c || Ascii.eqb c "_"%char || Ascii.eqb c "-"%char.

(** [q s] is [s] between double quotes. *)
Definition q (s : str) : str := dq :: s ++ [dq].

End Regex.
Import Regex.

(* ===================================================================== *)
(** ** Dynamically typed values *)
(* ===================================================================== *)

(** Data values only: the parse tree of xml2js and the fields of the
    result record hold no functions. *)
#[warnings="-register-all"]
Inductive JSVal :=
| VUndefined
| VNull
| VBool (b : bool)
| VStr (s : str)
| VNum (n : JSNum)
| VArr (items : list JSVal)
| VObj (fields : list (str * JSVal)).

(** What a failing operation throws.  [ErrorObj] is an instance of
    [Error] (a [TypeError] of the runtime included) with its message;
    [Thrown] is any other thrown value. *)
Inductive Exn :=
| ErrorObj (message : str)
| Thrown.

Inductive Res (A : Type) :=
| Ok (a : A)
| Throw (e : Exn).
Arguments Ok {A} a.
Arguments Throw {A} e.

Module JS.

(** Truthiness, for [||] and [!]. *)
Definition truthy (v : JSVal) : bool :=
  match v with
  | VUndefined | VNull => false
  | VBool b => b
  | VStr [] => false
  | VStr _ => true
  | VNum (Int 0) => false
  | VNum NaN => false
  | VNum _ => true
  | VArr _ | VObj _ => true
  end.

(** [a || b] *)
Definition or_ (a b : JSVal) : JSVal := if truthy a then a else b.

Fixpoint assoc (k : str) (fs : list (str * JSVal)) : JSVal :=
  match fs with
  | [] => VUndefined
  | (k', v) :: fs' => if str_eqb k k' then v else assoc k fs'
  end.

(** Property keys: a name ([o.name], [o["name"]]) or an index ([o[1]]). *)
Inductive Key :=
| KName (s : str)
| KIdx (n : nat).

Definition typeErr : Exn := ErrorObj (L "Cannot read properties of undefined").
Definition notFn : Exn := ErrorObj (L "is not a function").

(** [v[k]].  Reading a property of [undefined] or [null] throws.  The
    names the route reads are none of the built-in properties of
    strings and arrays, which are therefore left out. *)
Definition get (v : JSVal) (k : Key) : Res JSVal :=
  match v with
  | VUndefined | VNull => Throw typeErr
  | VObj fs =>
      match k with
      | KName s => Ok (assoc s fs)
      | KIdx n => Ok (assoc (showZ (Z.of_nat n)) fs)
      end
  | VArr items =>
      match k with
      | KIdx n => Ok (nth n items VUndefined)
      | KName _ => Ok VUndefined
      end
  | VStr s =>
      match k with
      | KIdx n =>
          Ok (match nth_error s n with Some c => VStr [c] | None => VUndefined end)
      | KName _ => Ok VUndefined
      end
  | VNum _ | VBool _ => Ok VUndefined
  end.

(** [v?.[k]] *)
Definition optGet (v : JSVal) (k : Key) : JSVal :=
  match get v k with
  | Ok x => x
  | Throw _ => VUndefined
  end.

(** [s.split(sep)] on a dynamically typed receiver: only strings have
    the method. *)
Definition splitV (v : JSVal) (sep : str) : Res (list str) :=
  match v with
  | VStr s => Ok (split sep s)
  | VUndefined | VNull => Throw typeErr
  | _ => Throw notFn
  end.

Fixpoint joinComma (l : list str) : str :=
  match l with
  | [] => []
  | [x] => x
  | x :: l' => x ++ ","%char :: joinComma l'
  end.

Fixpoint sequence {A} (l : list (option A)) : option (list A) :=
  match l with
  | [] => Some []
  | Some x :: l' => option_map (cons x) (sequence l')
  | None :: _ => None
  end.

(** [String(v)] as [parseInt] applies it to its argument; [None] when
    the conversion throws (an object whose own [toString] is data). *)
Fixpoint toStr (v : JSVal) : option str :=
  match v with
  | VUndefined => Some (L "undefined")
  | VNull => Some (L "null")
  | VBool b => Some (if b then L "true" else L "false")
  | VStr s => Some s
  | VNum n => Some (showNum n)
  | VArr items =>
      option_map joinComma
        (sequence (map (fun x => match x with
                                 | VUndefined | VNull => Some []
                                 | _ => toStr x
                                 end) items))
  | VObj fs =>
      if existsb (fun kv => str_eqb (fst kv) (L "toString")) fs
      then None
      else Some (L "[object Object]")
  end.

(** [parseInt(v, 10)] *)
Definition parseInt (v : JSVal) : Res JSNum :=
  match toStr v with
  | Some s => Ok (parseInt10 s)
  | None => Throw (ErrorObj (L "Cannot convert object to primitive value"))
  end.

End JS.

(* ===================================================================== *)
(** ** Effects: the outside world and the log *)
(* ===================================================================== *)

(** The three strategies, for the log of function entries. *)
Inductive Strategy :=
| FeedFetcher
| HtmlExtractor
| BrowserScraper.

(** The options object handed to [puppeteer.launch]. *)
Record LaunchOptions := {
  lo_headless : JSVal;
  lo_args : list str;
  lo_executablePath : str;
  lo_defaultViewport : JSVal
}.

Inductive PageOp :=
| NewPage
| SetUserAgent (ua : str)
| SetViewport (width height : Z)
| Goto (url : str) (timeout : Z)
| WaitForSelectors (selectors : list str) (timeout : Z)
| Title
| Evaluate.

(** What the route does to the outside, in the order it does it.
    [EvEnter] marks the entry of a strategy function with its argument
    (the call-count instrumentation of the tests); the others are the
    outbound calls. *)
Inductive Event :=
| EvEnter (f : Strategy) (arg : str)
| EvFetch (url : str)
| EvLaunch (opts : LaunchOptions)
| EvPage (op : PageOp)
| EvClose.

(** A [fetch] response: [text] is the outcome of [await response.text()]. *)
Record HttpResponse := {
  status : Z;
  text : Res str
}.

(** [response.ok] *)
Definition ok (r : HttpResponse) : bool :=
  (200 <=? status r)%Z && (status r <=? 299)%Z.

(** What the callback of [page.evaluate] reads from the rendered
    document; [None] is the [null] or [undefined] of a missing element
    or attribute. *)
Record Dom := {
  meta_og_url : option str;
  link_canonical_href : option str;
  location_href : str;
  meta_og_title : option str;
  meta_name_title : option str;
  document_title : str;
  meta_og_image : option str;
  meta_name_thumbnail : option str
}.

(** The process environment and the constants of [@sparticuz/chromium]. *)
Record Host := {
  NODE_ENV : str;
  platform : str;
  chromium_args : list str;
  chromium_defaultViewport : JSVal;
  chromium_headless : JSVal
}.

(** The output record ([data] of a strategy's result). *)
Record ChannelData := {
  author : JSVal;
  uri : JSVal;
  title : JSVal;
  thumbnail : JSVal;
  viewCount : JSVal;
  lastVideoId : JSVal;
  lastVideoDate : JSVal;
  channelId : JSVal
}.

Record StrategyResult := {
  success : bool;
  data : ChannelData
}.

Section Effects.

Variable World : Type.

(** The collaborators: the HTTP client, the XML parser and the
    headless-browser driver.  Each call may change the world and may
    throw (a rejected promise, a timeout). *)
Record Driver := {
  http_fetch : str -> World -> Res HttpResponse * World;
  xml_parse : str -> Res JSVal;
  browser_launch : LaunchOptions -> World -> Res unit * World;
  page_do : PageOp -> World -> Res unit * World;
  page_goto_status : World -> option Z;
  page_url : World -> str;
  page_title : World -> str;
  page_dom : World -> Dom;
  browser_close : World -> Res unit * World
}.

Record St := {
  world : World;
  trace : list Event
}.

Definition M (A : Type) : Type := St -> Res A * St.

Definition ret {A} (a : A) : M A := fun st => (Ok a, st).

Definition throw {A} (e : Exn) : M A := fun st => (Throw e, st).

Definition bind {A B} (m : M A) (k : A -> M B) : M B :=
  fun st =>
    match m st with
    | (Ok a, st') => k a st'
    | (Throw e, st') => (Throw e, st')
    end.

(** [try { m } catch (error) { h error }] *)
Definition tryCatch {A} (m : M A) (h : Exn -> M A) : M A :=
  fun st =>
    match m st with
    | (Ok a, st') => (Ok a, st')
    | (Throw e, st') => h e st'
    end.

(** [try { m } finally { f }]: [f] runs on every exit of [m]; when
    [f] itself throws, that exception replaces the outcome of [m]. *)
Definition tryFinally {A} (m : M A) (f : M unit) : M A :=
  fun st =>
    let '(r, st') := m st in
    match f st' with
    | (Ok _, st'') => (r, st'')
    | (Throw e, st'') => (Throw e, st'')
    end.

Definition emit (e : Event) : M unit :=
  fun st => (Ok tt, {| world := world st; trace := trace st ++ [e] |}).

(** An outbound call: logged, then performed on the world. *)
Definition call {A} (e : Event) (op : World -> Res A * World) : M A :=
  fun st =>
    let '(r, w') := op (world st) in
    (r, {| world := w'; trace := trace st ++ [e] |}).

(** A read of the current world, without effect. *)
Definition observe {A} (f : World -> A) : M A :=
  fun st => (Ok (f (world st)), st).

Definition liftRes {A} (r : Res A) : M A := fun st => (r, st).

End Effects.

Arguments ret {World A} a.
Arguments throw {World A} e.
Arguments bind {World A B} m k.
Arguments tryCatch {World A} m h.
Arguments tryFinally {World A} m f.
Arguments emit {World} e.
Arguments call {World A} e op.
Arguments observe {World A} f.
Arguments liftRes {World A} r.

Declare Scope js_scope.
Delimit Scope js_scope with js.
Notation "x <- m ;; k" := (bind m (fun x => k))
  (at level 61, m at next level, right associativity) : js_scope.
Notation "m ;;; k" := (bind m (fun _ => k))
  (at level 61, right associativity) : js_scope.

(* ===================================================================== *)
(** ** The route *)
(* ===================================================================== *)

Import JS.
Local Open Scope js_scope.

(** [url.split('/channel/')[1].split('/')[0]], the expression the HTML
    extractor and the browser scraper apply to a URL that includes
    [/channel/].  Indexing past the end gives [undefined], on which
    [.split] throws. *)
Definition channelIdAfterMarker (url : str) : Res str :=
  match nth_error (split (L "/channel/") url) 1 with
  | Some rest =>
      match nth_error (split (L "/") rest) 0 with
      | Some seg => Ok seg
      | None => Throw typeErr
      end
  | None => Throw typeErr
  end.

(** [url.split('/').pop()], the expression the feed fetcher applies to
    the author URI (and the browser scraper to a URL without
    [/channel/]). *)
Definition lastSegment (url : str) : JSVal :=
  match pop (split (L "/") url) with
  | Some seg => VStr seg
  | None => VUndefined
  end.

(** *** The patterns of [extractChannelIdFromHtml]

    In the comments a double quote of the source is written ['] . *)

Definition metaContentRe (attr value : str) (cls : ascii -> bool) : regex :=
  {| before := [Lit (L "<meta " ++ attr ++ L "=" ++ q value ++ L " content=" ++ [dq])];
     group1 := [Plus cls];
     after := [Lit [dq]] |}.

(** [/<meta property='og:url' content='([^']+)'/] *)
Definition ogUrlRe : regex := metaContentRe (L "property") (L "og:url") notQuote.

(** [/'channelId':'(UC[a-zA-Z0-9_-]{22})'/] *)
Definition channelIdRe : regex :=
  {| before := [Lit (q (L "channelId") ++ L ":" ++ [dq])];
     group1 := [Lit (L "UC"); Rep 22 idChar];
     after := [Lit [dq]] |}.

(** [/<meta name='title' content='([^']+)'/],
    [/<meta property='og:title' content='([^']+)'/],
    [/<title>([^<]+)<\/title>/] *)
Definition titlePatterns : list regex :=
  [ metaContentRe (L "name") (L "title") notQuote;
    metaContentRe (L "property") (L "og:title") notQuote;
    {| before := [Lit (L "<title>")];
       group1 := [Plus notLt];
       after := [Lit (L "</title>")] |} ].

(** [/'avatar':\{'thumbnails':\[{'url':'([^']+)'/],
    [/<meta property='og:image' content='([^']+)'/],
    [/'thumbnails':\[\{'url':'([^']+)','width':\d+,'height':\d+\}\]/] *)
Definition thumbnailPatterns : list regex :=
  [ {| before := [Lit (q (L "avatar") ++ L ":{" ++ q (L "thumbnails") ++ L ":[{"
                       ++ q (L "url") ++ L ":" ++ [dq])];
       group1 := [Plus notQuote];
       after := [Lit [dq]] |};
    metaContentRe (L "property") (L "og:image") notQuote;
    {| before := [Lit (q (L "thumbnails") ++ L ":[{" ++ q (L "url") ++ L ":" ++ [dq])];
       group1 := [Plus notQuote];
       after := [Lit (dq :: L "," ++ q (L "width") ++ L ":"); Plus isDigit;
                 Lit (L "," ++ q (L "height") ++ L ":"); Plus isDigit;
                 Lit (L "}]")] |} ].

(** [for (const pattern of patterns) { const match = html.match(pattern);
    if (match) { v = f(match[1]); break; } }], starting from [init]. *)
Fixpoint firstMatch {A} (patterns : list regex) (html : str)
    (f : str -> A) (init : A) : A :=
  match patterns with
  | [] => init
  | pattern :: rest =>
      match capture1 pattern html with
      | Some m => f m
      | None => firstMatch rest html f init
      end
  end.

(** The title of the HTML extractor: [channelName] unless a pattern
    matches, then the capture with its first [ - YouTube] removed. *)
Definition extractTitle (channelName html : str) : str :=
  firstMatch titlePatterns html (replace (L " - YouTube") []) channelName.

Definition extractThumbnail (html : str) : JSVal :=
  firstMatch thumbnailPatterns html VStr VNull.

(** The channel ID of the HTML extractor: from the [og:url] value when
    it includes [/channel/], otherwise from the embedded
    [channelId] token; no token is an error. *)
Definition extractChannelId (ogUrlMatch : option str) (html : str) : Res str :=
  let fromToken :=
    match capture1 channelIdRe html with
    | None => Throw (ErrorObj (L "Channel ID not found in page HTML"))
    | Some m => Ok m
    end in
  match ogUrlMatch with
  | Some u => if includes u (L "/channel/") then channelIdAfterMarker u else fromToken
  | None => fromToken
  end.

Definition userAgent : str :=
  L "Mozilla/5.0 (Windows NT 10.0; Win64; x64) AppleWebKit/537.36 (KHTML, like Gecko) Chrome/121.0.0.0 Safari/537.36".

Definition indicatorSelectors : list str :=
  [ L "meta[property=" ++ q (L "og:url") ++ L "]";
    L "link[rel=" ++ q (L "canonical") ++ L "]";
    L "meta[itemprop=" ++ q (L "channelId") ++ L "]" ].

(** [(error as Error).message] in a template literal. *)
Definition messageOf (e : Exn) : str :=
  match e with
  | ErrorObj m => m
  | Thrown => L "undefined"
  end.

(** [a || b] on [string | null | undefined] operands. *)
Definition orOpt (a b : option str) : option str :=
  match a with
  | Some (_ :: _) => a
  | _ => b
  end.

(** [a || b] with a string as right operand. *)
Definition orElse (a : option str) (b : str) : str :=
  match a with
  | Some (c :: s) => c :: s
  | _ => b
  end.

(** [a || null] *)
Definition orNull (a : option str) : JSVal :=
  match a with
  | Some (c :: s) => VStr (c :: s)
  | _ => VNull
  end.

(** The launch options [getBrowser] chooses. *)
Definition launchOptions (h : Host) : LaunchOptions :=
  if str_eqb (NODE_ENV h) (L "development")
  then {| lo_headless := VBool true;
          lo_args := [L "--no-sandbox"; L "--disable-setuid-sandbox"];
          lo_executablePath :=
            if str_eqb (platform h) (L "win32")
            then L "C:\Program Files\Google\Chrome\Application\chrome.exe"
            else if str_eqb (platform h) (L "darwin")
            then L "/Applications/Google Chrome.app/Contents/MacOS/Google Chrome"
            else L "/usr/bin/google-chrome";
          lo_defaultViewport := VUndefined |}
  else {| lo_headless := chromium_headless h;
          lo_args := chromium_args h;
          lo_executablePath := L "/snap/bin/chromium";
          lo_defaultViewport := chromium_defaultViewport h |}.

Section Route.

Variable World : Type.
Variable drv : Driver World.
Variable host : Host.

(** [fetch(url)] *)
Definition fetch (url : str) : M World HttpResponse :=
  call (EvFetch url) (http_fetch drv url).

Definition page (op : PageOp) : M World unit :=
  call (EvPage op) (page_do drv op).

(** [getBrowser]: one [puppeteer.launch] with the options of the
    environment. *)
Definition getBrowser : M World unit :=
  call (EvLaunch (launchOptions host)) (browser_launch drv (launchOptions host)).

(** The browser is acquired before the [try]; the [finally] block
    closes it. *)
Definition scrapeChannelInfo (channelName : str) : M World StrategyResult :=
  emit (EvEnter BrowserScraper channelName) ;;;
  getBrowser ;;;
  tryFinally
    (tryCatch
       (page NewPage ;;;
        page (SetUserAgent userAgent) ;;;
        page (SetViewport 1280%Z 720%Z) ;;;
        page (Goto (L "https://www.youtube.com/@" ++ channelName) 30000%Z) ;;;
        response_status <- observe (page_goto_status drv) ;;
        match response_status with
        | Some 404%Z => throw (ErrorObj (L "Channel not found: " ++ channelName))
        | _ =>
            (* the inner try/catch: [Some r] when its handler returns [r] *)
            early <-
              tryCatch
                (page (WaitForSelectors indicatorSelectors 15000%Z) ;;; ret None)
                (fun error =>
                   currentUrl <- observe (page_url drv) ;;
                   if includes currentUrl (L "/channel/")
                   then
                     channelId <- liftRes (channelIdAfterMarker currentUrl) ;;
                     page Title ;;;
                     title <- observe (page_title drv) ;;
                     ret (Some
                       {| success := true;
                          data := {| author := VStr (orElse (Some title) channelName);
                                     uri := VStr currentUrl;
                                     title := VStr (orElse (Some title) channelName);
                                     thumbnail := VNull;
                                     viewCount := VNum (Int 0);
                                     lastVideoId := VNull;
                                     lastVideoDate := VNull;
                                     channelId := VStr channelId |} |})
                   else throw error) ;;
            match early with
            | Some r => ret r
            | None =>
                page Evaluate ;;;
                dom <- observe (page_dom drv) ;;
                let url := orElse (orOpt (meta_og_url dom) (link_canonical_href dom))
                                  (location_href dom) in
                let title := orElse (orOpt (meta_og_title dom) (meta_name_title dom))
                                    (document_title dom) in
                let image := orOpt (meta_og_image dom) (meta_name_thumbnail dom) in
                match url with
                | [] => throw (ErrorObj (L "Could not find channel URL"))
                | _ =>
                    channelId <-
                      (if includes url (L "/channel/")
                       then s <- liftRes (channelIdAfterMarker url) ;; ret (VStr s)
                       else ret (lastSegment url)) ;;
                    ret {| success := true;
                           data := {| author := VStr (orElse (Some title) channelName);
                                      uri := VStr url;
                                      title := VStr (orElse (Some title) channelName);
                                      thumbnail := orNull image;
                                      viewCount := VNum (Int 0);
                                      lastVideoId := VNull;
                                      lastVideoDate := VNull;
                                      channelId := channelId |} |}
                end
            end
        end)
       (fun error =>
          throw (ErrorObj (L "Failed to scrape channel info: " ++ messageOf error))))
    (call EvClose (browser_close drv)).

(** The subscriber text the source also matches goes to the console
    only and is left out, as are the other console messages. *)
Definition extractChannelIdFromHtml (channelName : str) : M World StrategyResult :=
  emit (EvEnter HtmlExtractor channelName) ;;;
  tryCatch
    (response <- fetch (L "https://www.youtube.com/@" ++ channelName) ;;
     if (status response =? 404)%Z
     then throw (ErrorObj (L "Channel not found: " ++ channelName))
     else if negb (ok response)
     then throw (ErrorObj (L "Failed to fetch channel page: " ++ showZ (status response)))
     else
       html <- liftRes (text response) ;;
       let ogUrlMatch := capture1 ogUrlRe html in
       channelId <- liftRes (extractChannelId ogUrlMatch html) ;;
       let url := orElse ogUrlMatch (L "https://www.youtube.com/channel/" ++ channelId) in
       let title := extractTitle channelName html in
       let thumbnail := extractThumbnail html in
       ret {| success := true;
              data := {| author := VStr title;
                         uri := VStr url;
                         title := VStr title;
                         thumbnail := thumbnail;
                         viewCount := VNull;
                         lastVideoId := VNull;
                         lastVideoDate := VNull;
                         channelId := VStr channelId |} |})
    (fun error => throw error).

(** The optional chain
    [latestEntry?.[k1]?.[0]?.[k2]?.[0]...], one key after the other. *)
Definition optChain (v : JSVal) (ks : list Key) : JSVal :=
  fold_left optGet ks v.

(** The property chain [v.k1[0].k2...], throwing at the first read of
    [undefined] or [null]. *)
Fixpoint getChain (v : JSVal) (ks : list Key) : Res JSVal :=
  match ks with
  | [] => Ok v
  | k :: ks' =>
      match get v k with
      | Ok x => getChain x ks'
      | Throw e => Throw e
      end
  end.

Definition thumbnailKeys : list Key :=
  [KName (L "media:group"); KIdx 0; KName (L "media:thumbnail"); KIdx 0;
   KName (L "$"); KName (L "url")].

Definition viewsKeys : list Key :=
  [KName (L "media:group"); KIdx 0; KName (L "media:community"); KIdx 0;
   KName (L "media:statistics"); KIdx 0; KName (L "$"); KName (L "views")].

(** The body of [fetchChannelFeed] after the XML is parsed. *)
Definition feedData (result : JSVal) : Res ChannelData :=
  match getChain result [KName (L "feed"); KName (L "entry")] with
  | Throw e => Throw e
  | Ok entries =>
  let latestEntry := optGet entries (KIdx 1) in
  match getChain result [KName (L "feed"); KName (L "author"); KIdx 0;
                         KName (L "name"); KIdx 0] with
  | Throw e => Throw e
  | Ok author =>
  match getChain result [KName (L "feed"); KName (L "author"); KIdx 0;
                         KName (L "uri"); KIdx 0] with
  | Throw e => Throw e
  | Ok uri =>
  match getChain result [KName (L "feed"); KName (L "title"); KIdx 0] with
  | Throw e => Throw e
  | Ok title =>
  let thumbnail := or_ (optChain latestEntry thumbnailKeys) VNull in
  let viewCount := or_ (optChain latestEntry viewsKeys) (VStr (L "0")) in
  let lastVideoId := optChain latestEntry [KName (L "yt:videoId"); KIdx 0] in
  let lastVideoDate := optChain latestEntry [KName (L "published"); KIdx 0] in
  match splitV uri (L "/") with
  | Throw e => Throw e
  | Ok parts =>
  let channelIdOnly := match pop parts with Some s => VStr s | None => VUndefined end in
  match parseInt viewCount with
  | Throw e => Throw e
  | Ok n =>
      Ok {| author := author;
            uri := uri;
            title := title;
            thumbnail := thumbnail;
            viewCount := VNum n;
            lastVideoId := lastVideoId;
            lastVideoDate := lastVideoDate;
            channelId := channelIdOnly |}
  end end end end end end.

(** The fallbacks of the not-found branch run inside the [try] block,
    so what they throw reaches the [catch] block below. *)
Definition fetchChannelFeed (channelName : str) : M World StrategyResult :=
  emit (EvEnter FeedFetcher channelName) ;;;
  tryCatch
    (let channelNameWithoutAt := replace (L "@") [] channelName in
     response <- fetch (L "https://www.youtube.com/feeds/videos.xml?user="
                          ++ channelNameWithoutAt) ;;
     if (status response =? 404)%Z
     then
       tryCatch (extractChannelIdFromHtml channelNameWithoutAt)
                (fun _ => scrapeChannelInfo channelNameWithoutAt)
     else if negb (ok response)
     then throw (ErrorObj (L "Failed to fetch feed: " ++ showZ (status response)))
     else
       data <- liftRes (text response) ;;
       result <- liftRes (xml_parse drv data) ;;
       d <- liftRes (feedData result) ;;
       ret {| success := true; data := d |})
    (fun error =>
       tryCatch (extractChannelIdFromHtml channelName)
                (fun _ => scrapeChannelInfo channelName)).

(** The query of the request URL, as [searchParams] holds it. *)
Definition Request : Type := list (str * str).

(** [searchParams.get(name)] *)
Fixpoint searchParams_get (params : Request) (name : str) : option str :=
  match params with
  | [] => None
  | (k, v) :: rest => if str_eqb k name then Some v else searchParams_get rest name
  end.

(** The body handed to [Response.json]. *)
Definition failureBody (msg : str) : JSVal :=
  VObj [(L "success", VBool false); (L "error", VStr msg)].

Definition dataBody (d : ChannelData) : JSVal :=
  VObj [(L "author", author d); (L "uri", uri d); (L "title", title d);
        (L "thumbnail", thumbnail d); (L "viewCount", viewCount d);
        (L "lastVideoId", lastVideoId d); (L "lastVideoDate", lastVideoDate d);
        (L "channelId", channelId d)].

Definition GET (request : Request) : M World JSVal :=
  match searchParams_get request (L "channelName") with
  | None | Some [] => ret (failureBody (L "Channel name is required"))
  | Some channelName =>
      tryCatch
        (result <- fetchChannelFeed channelName ;;
         ret (dataBody (data result)))
        (fun error =>
           ret (failureBody
                  match error with
                  | ErrorObj m => m
                  | Thrown => L "Failed to fetch channel info"
                  end))
  end.

Definition run {A} (m : M World A) (w : World) : Res A * St World :=
  m {| world := w; trace := [] |}.

End Route.

(* ===================================================================== *)
(** ** Scripted worlds *)
(* ===================================================================== *)

(** A world without state whose collaborators give fixed answers: every
    URL has one response, the parser one result per text, the browser
    one outcome per operation. *)
Record Script := {
  sc_http : str -> Res HttpResponse;
  sc_parse : str -> Res JSVal;
  sc_launch : Res unit;
  sc_page : PageOp -> Res unit;
  sc_status : option Z;
  sc_url : str;
  sc_title : str;
  sc_dom : Dom;
  sc_close : Res unit
}.

Definition scripted (sc : Script) : Driver unit :=
  {| http_fetch := fun url w => (sc_http sc url, w);
     xml_parse := sc_parse sc;
     browser_launch := fun _ w => (sc_launch sc, w);
     page_do := fun op w => (sc_page sc op, w);
     page_goto_status := fun _ => sc_status sc;
     page_url := fun _ => sc_url sc;
     page_title := fun _ => sc_title sc;
     page_dom := fun _ => sc_dom sc;
     browser_close := fun w => (sc_close sc, w) |}.

Definition emptyDom : Dom :=
  {| meta_og_url := None; link_canonical_href := None; location_href := [];
     meta_og_title := None; meta_name_title := None; document_title := [];
     meta_og_image := None; meta_name_thumbnail := None |}.

Definition productionHost : Host :=
  {| NODE_ENV := L "production"; platform := L "linux"; chromium_args := [];
     chromium_defaultViewport := VNull; chromium_headless := VBool true |}.

(** Every request answers with [status], the browser launches and
    navigates, and the navigation answers with [status] too. *)
Definition allStatus (st : Z) : Script :=
  {| sc_http := fun _ => Ok {| status := st; text := Ok [] |};
     sc_parse := fun _ => Throw (ErrorObj (L "Unexpected end"));
     sc_launch := Ok tt;
     sc_page := fun _ => Ok tt;
     sc_status := Some st;
     sc_url := [];
     sc_title := [];
     sc_dom := emptyDom;
     sc_close := Ok tt |}.

(** The strategy entries of a log. *)
Fixpoint entries (t : list Event) : list (Strategy * str) :=
  match t with
  | [] => []
  | EvEnter f a :: t' => (f, a) :: entries t'
  | _ :: t' => entries t'
  end.

(** [isNot c] is the class of the code units other than [c]. *)
Definition isNot (c x : ascii) : bool := negb (Ascii.eqb x c).

(* ===================================================================== *)
(** ** Sample documents *)
(* ===================================================================== *)

(** The xml2js tree of one feed entry,
    [<entry><yt:videoId>..</yt:videoId><published>..</published>
     <media:group><media:thumbnail url=.. />
     <media:community><media:statistics views=.. /></media:community>
     </media:group></entry>]: every child element is an array, the
    attributes of an element are under [$]. *)
Definition sampleEntry (videoId published thumbnailUrl views : str) : JSVal :=
  VObj [ (L "yt:videoId", VArr [VStr videoId]);
         (L "published", VArr [VStr published]);
         (L "media:group",
          VArr [VObj [ (L "media:thumbnail",
                        VArr [VObj [(L "$", VObj [(L "url", VStr thumbnailUrl)])]]);
                       (L "media:community",
                        VArr [VObj [(L "media:statistics",
                                     VArr [VObj [(L "$", VObj [(L "views", VStr views)])]])]])
                     ]]) ].

(** An entry whose [media:community] has no [media:statistics]. *)
Definition entryWithoutStatistics (videoId published : str) : JSVal :=
  VObj [ (L "yt:videoId", VArr [VStr videoId]);
         (L "published", VArr [VStr published]);
         (L "media:group", VArr [VObj [(L "media:community", VArr [VStr []])]]) ].

(** The xml2js tree of a feed with the given entries; a feed without
    entries has no [entry] key. *)
Definition sampleFeed (authorName authorUri feedTitle : str) (es : list JSVal) : JSVal :=
  VObj [ (L "feed",
          VObj ([ (L "title", VArr [VStr feedTitle]);
                  (L "author", VArr [VObj [ (L "name", VArr [VStr authorName]);
                                            (L "uri", VArr [VStr authorUri]) ]]) ]
                ++ match es with
                   | [] => []
                   | _ => [(L "entry", VArr es)]
                   end)) ].

(** A world whose feed endpoint serves a document that parses to
    [tree]; every other request is not found and the browser does not
    launch. *)
Definition feedWorld (tree : JSVal) : Script :=
  {| sc_http := fun url =>
       if startsWith (L "https://www.youtube.com/feeds/videos.xml?user=") url
       then Ok {| status := 200; text := Ok (L "<feed>...</feed>") |}
       else Ok {| status := 404; text := Ok [] |};
     sc_parse := fun _ => Ok tree;
     sc_launch := Throw (ErrorObj (L "Failed to launch the browser process"));
     sc_page := fun _ => Ok tt;
     sc_status := None;
     sc_url := [];
     sc_title := [];
     sc_dom := emptyDom;
     sc_close := Ok tt |}.

Definition entryA : JSVal :=
  sampleEntry (L "vidAAAAAAAA") (L "2024-05-02T10:00:00+00:00")
              (L "https://i.ytimg.com/vi/vidAAAAAAAA/hqdefault.jpg") (L "777").

Definition entryB : JSVal :=
  sampleEntry (L "vidBBBBBBBB") (L "2024-05-01T10:00:00+00:00")
              (L "https://i.ytimg.com/vi/vidBBBBBBBB/hqdefault.jpg") (L "12345").

Definition channelUri : str :=
  L "https://www.youtube.com/channel/UCW5wxEjGHWNyatgZe-PU_tA".

(* ===================================================================== *)
(** ** Notions used to state the properties *)
(* ===================================================================== *)

(** The stable channel-ID shape: [UC] and 22 code units of
    [[a-zA-Z0-9_-]]. *)
Definition isChannelId (s : str) : bool :=
  match s with
  | "U"%char :: "C"%char :: rest => (List.length rest =? 22) && forallb idChar rest
  | _ => false
  end.

(** The two fallbacks as both branches of [fetchChannelFeed] chain
    them: the HTML extractor, and on any failure the browser scraper. *)
Definition fallbacks {World} (drv : Driver World) (host : Host) (handle : str)
  : M World StrategyResult :=
  tryCatch (extractChannelIdFromHtml drv handle)
           (fun _ => scrapeChannelInfo drv host handle).

(** How the feed attempt of [fetchChannelFeed] ends, given the outcome
    of its request: not found, failed any other way (rejected request,
    non-success status, unreadable body, parse error, missing required
    field), or parsed. *)
Inductive FeedAttempt :=
| FeedNotFound
| FeedFailed (e : Exn)
| FeedParsed (d : ChannelData).

Definition feedAttempt (parse : str -> Res JSVal) (r : Res HttpResponse) : FeedAttempt :=
  match r with
  | Throw e => FeedFailed e
  | Ok response =>
      if (status response =? 404)%Z then FeedNotFound
      else if negb (ok response)
      then FeedFailed (ErrorObj (L "Failed to fetch feed: " ++ showZ (status response)))
      else match text response with
           | Throw e => FeedFailed e
           | Ok body =>
               match parse body with
               | Throw e => FeedFailed e
               | Ok result =>
                   match feedData result with
                   | Throw e => FeedFailed e
                   | Ok d => FeedParsed d
                   end
               end
           end
  end.

(** The request URL of the feed fetcher for a handle. *)
Definition feedUrl (channelName : str) : str :=
  L "https://www.youtube.com/feeds/videos.xml?user=" ++ replace (L "@") [] channelName.

Definition isPageEvent (e : Event) : bool :=
  match e with
  | EvPage _ => true
  | _ => false
  end.

(** [adds P m]: whatever the start state and the outcome, [m] only
    appends to the log, and what it appends satisfies [P]. *)
Definition adds {World A} (P : list Event -> Prop) (m : M World A) : Prop :=
  forall st, exists evs, trace (snd (m st)) = trace st ++ evs /\ P evs.

(** Only page operations. *)
Definition pageOnly (evs : list Event) : Prop := forallb isPageEvent evs = true.

(** No strategy entry. *)
Definition noEntry (evs : list Event) : Prop := entries evs = [].

(** The URLs a log requested over HTTP, in order. *)
Fixpoint fetched (t : list Event) : list str :=
  match t with
  | [] => []
  | EvFetch url :: t' => url :: fetched t'
  | _ :: t' => fetched t'
  end.

(** The URLs a log made the browser navigate to, in order. *)
Fixpoint navigated (t : list Event) : list str :=
  match t with
  | [] => []
  | EvPage (Goto url _) :: t' => url :: navigated t'
  | _ :: t' => navigated t'
  end.

(** A channel page with a [<title>] element and a canonical [og:url]. *)
Definition samplePage (docTitle ogUrl : str) : str :=
  L "<html><head><title>" ++ docTitle ++ L "</title>"
  ++ L "<meta property=" ++ q (L "og:url") ++ L " content=" ++ q ogUrl ++ L ">"
  ++ L "</head><body></body></html>".

(** A world whose channel pages all serve [html]; the feed endpoint
    answers not found and the browser does not launch. *)
Definition pageWorld (html : str) : Script :=
  {| sc_http := fun url =>
       if startsWith (L "https://www.youtube.com/@") url
       then Ok {| status := 200; text := Ok html |}
       else Ok {| status := 404; text := Ok [] |};
     sc_parse := fun _ => Throw (ErrorObj (L "Unexpected end"));
     sc_launch := Throw (ErrorObj (L "Failed to launch the browser process"));
     sc_page := fun _ => Ok tt;
     sc_status := None;
     sc_url := [];
     sc_title := [];
     sc_dom := emptyDom;
     sc_close := Ok tt |}.

(** [ensures Q m]: every value [m] returns satisfies [Q]. *)
Definition ensures {World A} (Q : A -> Prop) (m : M World A) : Prop :=
  forall st a st', m st = (Ok a, st') -> Q a.

(** The channel ID of a result is a string. *)
Definition hasStringId (r : StrategyResult) : Prop :=
  exists s, channelId (data r) = VStr s.

(** A channel page without [og:url] that embeds the channel-ID token. *)
Definition tokenPage : str :=
  L "<html><head><title>Some Channel - YouTube</title></head><body><script>"
  ++ L "var ytInitialData = {" ++ q (L "channelId") ++ L ":"
  ++ q (L "UCW5wxEjGHWNyatgZe-PU_tA") ++ L "};</script></body></html>".

(** A world in which every HTTP request answers 500 and the browser
    renders a channel page whose canonical URL is the handle URL. *)
Definition renderedWorld : Script :=
  {| sc_http := fun _ => Ok {| status := 500; text := Ok [] |};
     sc_parse := fun _ => Throw (ErrorObj (L "Unexpected end"));
     sc_launch := Ok tt;
     sc_page := fun _ => Ok tt;
     sc_status := Some 200%Z;
     sc_url := L "https://www.youtube.com/@somehandle";
     sc_title := L "Some Channel - YouTube";
     sc_dom := {| meta_og_url := Some (L "https://www.youtube.com/@somehandle");
                  link_canonical_href := Some (L "https://www.youtube.com/@somehandle");
                  location_href := L "https://www.youtube.com/@somehandle";
                  meta_og_title := Some (L "Some Channel");
                  meta_name_title := None;
                  document_title := L "Some Channel - YouTube";
                  meta_og_image := None;
                  meta_name_thumbnail := None |};
     sc_close := Ok tt |}.

(** A world whose browser launches and navigates, but in which no
    indicator element appears within the bound, on a page whose URL has
    no [/channel/]. *)
Definition timeoutWorld : Script :=
  {| sc_http := fun _ => Ok {| status := 500; text := Ok [] |};
     sc_parse := fun _ => Throw (ErrorObj (L "Unexpected end"));
     sc_launch := Ok tt;
     sc_page := fun op =>
       match op with
       | WaitForSelectors _ _ =>
           Throw (ErrorObj (L "Waiting for selector failed: 15000ms exceeded"))
       | _ => Ok tt
       end;
     sc_status := Some 200%Z;
     sc_url := L "https://www.youtube.com/@somehandle";
     sc_title := L "Some Channel - YouTube";
     sc_dom := emptyDom;
     sc_close := Ok tt |}.

(** A channel page with an [og:image] and the inline thumbnails
    fragment, but no avatar fragment. *)
Definition thumbnailPage : str :=
  L "<html><head><meta property=" ++ q (L "og:title") ++ L " content="
  ++ q (L "Some Channel") ++ L "><title>Some Channel - YouTube</title></head><body><script>{"
  ++ q (L "thumbnails") ++ L ":[{" ++ q (L "url") ++ L ":"
  ++ q (L "https://yt3.ggpht.com/abc=s88") ++ L "," ++ q (L "width") ++ L ":88,"
  ++ q (L "height") ++ L ":88}]," ++ q (L "channelId") ++ L ":"
  ++ q (L "UCW5wxEjGHWNyatgZe-PU_tA") ++ L "}</script></body></html>".

(* ===================================================================== *)
(** ** Further notions: requests, browser discipline *)
(* ===================================================================== *)

(** The page the HTML extractor requests, and the browser scraper
    navigates to, for a handle. *)
Definition pageUrl (handle : str) : str := L "https://www.youtube.com/@" ++ handle.

(** The handles with which a log entered the HTML extractor. *)
Fixpoint htmlHandles (es : list (Strategy * str)) : list str :=
  match es with
  | [] => []
  | (HtmlExtractor, h) :: es' => h :: htmlHandles es'
  | _ :: es' => htmlHandles es'
  end.

(** The number of browser launches a log attempted. *)
Fixpoint launches (t : list Event) : nat :=
  match t with
  | [] => 0
  | EvLaunch _ :: t' => S (launches t')
  | _ :: t' => launches t'
  end.

(** The number of times a log entered the browser scraper. *)
Fixpoint scraperEntries (es : list (Strategy * str)) : nat :=
  match es with
  | [] => 0
  | (BrowserScraper, _) :: es' => S (scraperEntries es')
  | _ :: es' => scraperEntries es'
  end.

(** The browser as a log shows it: [Closed], [Launched] (a launch was
    attempted and nothing was done with the browser yet; a failed
    launch stays here) or [InUse] (a page operation was performed and
    the browser is not closed yet). *)
Inductive BrowserState :=
| Closed
| Launched
| InUse.

(** One event of the log: a page operation needs a launch before it, a
    close needs a browser in use, and while a browser is in use nothing
    but page operations and its close may happen. *)
Definition stepBrowser (q : BrowserState) (e : Event) : option BrowserState :=
  match q, e with
  | InUse, EvPage _ => Some InUse
  | InUse, EvClose => Some Closed
  | InUse, _ => None
  | Launched, EvPage _ => Some InUse
  | Closed, EvPage _ => None
  | _, EvClose => None
  | _, EvLaunch _ => Some Launched
  | _, _ => Some Closed
  end.

Fixpoint runBrowser (q : BrowserState) (t : list Event) : option BrowserState :=
  match t with
  | [] => Some q
  | e :: t' =>
      match stepBrowser q e with
      | Some q' => runBrowser q' t'
      | None => None
      end
  end.

(** A log that keeps the discipline and leaves no browser in use. *)
Definition disciplined (t : list Event) : Prop :=
  runBrowser Closed t = Some Closed \/ runBrowser Closed t = Some Launched.

(* ===================================================================== *)
(** ** The client of the route (lib/youtube.ts) *)
(* ===================================================================== *)

Module Client.

Section Client.

Variable World : Type.

(** The transport of the browser: a request answers with a response
    whose body parses as JSON ([response.json()]) or not.
    [encodeURIComponent] is the built-in of the runtime. *)
Record Api := {
  api_fetch : str -> World -> Res (Res JSVal) * World;
  encodeURIComponent : str -> str
}.

Variable api : Api.

(** [new Error(v)]: the message is [String(v)]. *)
Definition newError (v : JSVal) : M World JSVal :=
  match toStr v with
  | Some m => throw (ErrorObj m)
  | None => throw (ErrorObj (L "Cannot convert object to primitive value"))
  end.

Definition resolveUrl (channelName : str) : str :=
  L "/api/youtube/channel/resolve-id?channelName=" ++ encodeURIComponent api channelName.

Definition updateUrl (channelId profileId : str) : str :=
  L "/api/youtube/channel?channelId=" ++ encodeURIComponent api channelId
  ++ L "&profileId=" ++ profileId.

Definition fetchChannelFeed (channelName : str) : M World JSVal :=
  tryCatch
    (response <- call (EvFetch (resolveUrl channelName))
                      (api_fetch api (resolveUrl channelName)) ;;
     data <- liftRes response ;;
     if negb (truthy data)
     then
       error <- liftRes (get data (KName (L "error"))) ;;
       newError (or_ error (VStr (L "Failed to fetch channel feed")))
     else ret data)
    (fun error => throw error).

Definition startChannelInfoUpdate (channelId profileId : str) : M World JSVal :=
  tryCatch
    (response <- call (EvFetch (updateUrl channelId profileId))
                      (api_fetch api (updateUrl channelId profileId)) ;;
     data <- liftRes response ;;
     success <- liftRes (get data (KName (L "success"))) ;;
     if negb (truthy success)
     then
       error <- liftRes (get data (KName (L "error"))) ;;
       newError (or_ error (VStr (L "Failed to fetch channel info")))
     else ret data)
    (fun error => throw error).

End Client.

End Client.

(** The loop of a greedy run in [matchAt], on its own: [w] is the text
    taken so far, [k] matches the rest of the pattern. *)
Definition plusLoop (cls : ascii -> bool) (k : str -> option (list str))
  : str -> str -> option (list str) :=
  fix plus (w s : str) {struct s} : option (list str) :=
    match s with
    | c :: s' =>
        if cls c
        then match plus (w ++ [c]) s' with
             | Some r => Some r
             | None => option_map (cons (w ++ [c])) (k s')
             end
        else None
    | [] => None
    end.

(** The text a [<meta ... content=] pattern starts with. *)
Definition metaOpen (attr value : str) : str :=
  L "<meta " ++ attr ++ L "=" ++ q value ++ L " content=" ++ [dq].

Definition ogUrlOpen : str := metaOpen (L "property") (L "og:url").
Definition metaTitleOpen : str := metaOpen (L "name") (L "title").
Definition ogTitleOpen : str := metaOpen (L "property") (L "og:title").
Definition ogImageOpen : str := metaOpen (L "property") (L "og:image").

(** The texts the two JSON thumbnail patterns start with. *)
Definition avatarOpen : str :=
  q (L "avatar") ++ L ":{" ++ q (L "thumbnails") ++ L ":[{" ++ q (L "url") ++ L ":" ++ [dq].
Definition thumbnailsOpen : str :=
  q (L "thumbnails") ++ L ":[{" ++ q (L "url") ++ L ":" ++ [dq].

(** The text the channel-ID token pattern starts with. *)
Definition channelIdOpen : str := q (L "channelId") ++ L ":" ++ [dq].

(** The world in which the scraper has its page open: the browser
    launched, the page was created and configured and the navigation
    to the channel page returned, all without error. *)
Definition openedPage {World} (drv : Driver World) (host : Host) (handle : str)
    (w : World) : option World :=
  match browser_launch drv (launchOptions host) w with
  | (Ok _, w1) =>
      match page_do drv NewPage w1 with
      | (Ok _, w2) =>
          match page_do drv (SetUserAgent userAgent) w2 with
          | (Ok _, w3) =>
              match page_do drv (SetViewport 1280%Z 720%Z) w3 with
              | (Ok _, w4) =>
                  match page_do drv (Goto (pageUrl handle) 30000%Z) w4 with
                  | (Ok _, w5) => Some w5
                  | _ => None
                  end
              | _ => None
              end
          | _ => None
          end
      | _ => None
      end
  | _ => None
  end.

(** What the log gains up to that point. *)
Definition setupEvents (host : Host) (handle : str) : list Event :=
  [ EvEnter BrowserScraper handle;
    EvLaunch (launchOptions host);
    EvPage NewPage;
    EvPage (SetUserAgent userAgent);
    EvPage (SetViewport 1280%Z 720%Z);
    EvPage (Goto (pageUrl handle) 30000%Z) ].

(** The outcome of [browser.close()] in the [finally] block, on the
    outcome [r] of the [try] block. *)
Definition afterClose {World A} (drv : Driver World) (r : Res A) (w : World)
    (t : list Event) : Res A * St World :=
  match browser_close drv w with
  | (Ok _, w') => (r, {| world := w'; trace := t ++ [EvClose] |})
  | (Throw e, w') => (Throw e, {| world := w'; trace := t ++ [EvClose] |})
  end.

(** The world after the page operations [ops], performed in order on
    the driver. *)
Definition runPages {World} (drv : Driver World) (ops : list PageOp) (w : World)
    : World :=
  fold_left (fun w' op => snd (page_do drv op w')) ops w.

(** [pagesOnly drv m]: whatever the start state and the outcome, the
    state [m] leaves is the one a sequence of page operations of the
    driver leaves, each of them logged and nothing else. *)
Definition pagesOnly {World A} (drv : Driver World) (m : M World A) : Prop :=
  forall st, exists ops,
    snd (m st) = {| world := runPages drv ops (world st);
                    trace := trace st ++ map EvPage ops |}.

(** A world in which the feed of the handle and the channel page of
    [@ghost] are not found, over HTTP and in the browser, and only the
    page with the doubled marker, [@@ghost], exists. *)
Definition doubledMarkerWorld : Script :=
  {| sc_http := fun url =>
       if str_eqb url (L "https://www.youtube.com/@@ghost")
       then Ok {| status := 200; text := Ok tokenPage |}
       else Ok {| status := 404; text := Ok [] |};
     sc_parse := fun _ => Throw (ErrorObj (L "Unexpected end"));
     sc_launch := Ok tt;
     sc_page := fun _ => Ok tt;
     sc_status := Some 404%Z;
     sc_url := [];
     sc_title := [];
     sc_dom := emptyDom;
     sc_close := Ok tt |}.

(** A world like [timeoutWorld], but in which the navigation was
    redirected to a [/channel/] URL. *)
Definition redirectedWorld : Script :=
  {| sc_http := fun _ => Ok {| status := 500; text := Ok [] |};
     sc_parse := fun _ => Throw (ErrorObj (L "Unexpected end"));
     sc_launch := Ok tt;
     sc_page := fun op =>
       match op with
       | WaitForSelectors _ _ =>
           Throw (ErrorObj (L "Waiting for selector failed: 15000ms exceeded"))
       | _ => Ok tt
       end;
     sc_status := Some 200%Z;
     sc_url := L "https://www.youtube.com/channel/UCW5wxEjGHWNyatgZe-PU_tA/featured";
     sc_title := [];
     sc_dom := emptyDom;
     sc_close := Ok tt |}.

(** A piece of log whose HTTP requests are the channel pages of its
    HTML extractor entries and whose launches are as many as its
    browser scraper entries. *)
Definition accounted (evs : list Event) : Prop :=
  fetched evs = map pageUrl (htmlHandles (entries evs))
  /\ launches evs = scraperEntries (entries evs).

(** The state in which the fallbacks start: the world the feed request
    left, and the log with the entry of the feed fetcher and its
    request. *)
Definition afterFeedRequest {World} (drv : Driver World) (channelName : str)
    (st : St World) : St World :=
  {| world := snd (http_fetch drv (feedUrl channelName) (world st));
     trace := trace st ++ [EvEnter FeedFetcher channelName;
                           EvFetch (feedUrl channelName)] |}.

(** A feed document without an [author] element. *)
Definition feedWithoutAuthor : JSVal :=
  VObj [ (L "feed", VObj [ (L "title", VArr [VStr (L "Some Title")]);
                           (L "entry", VArr [entryA; entryB]) ]) ].

(** What a body becomes on its way to the client, written by
    [Response.json] and read back by [response.json()]: a property
    whose value is [undefined] is left out, [undefined] in an array,
    [NaN] and the infinities become [null]. *)
Fixpoint jsonify (v : JSVal) : JSVal :=
  match v with
  | VUndefined => VNull
  | VNum NaN => VNull
  | VNum (Inf _) => VNull
  | VArr items => VArr (map jsonify items)
  | VObj fields =>
      VObj ((fix props (fs : list (str * JSVal)) : list (str * JSVal) :=
               match fs with
               | [] => []
               | (k, VUndefined) :: fs' => props fs'
               | (k, x) :: fs' => (k, jsonify x) :: props fs'
               end) fields)
  | _ => v
  end.

(** A transport that answers every request with the JSON text of
    [body]. *)
Definition answering (body : JSVal) : Client.Api unit :=
  {| Client.api_fetch := fun _ w => (Ok (Ok (jsonify body)), w);
     Client.encodeURIComponent := fun s => s |}.

(** The properties of an object as JSON keeps them (the loop inside
    [jsonify]). *)
Definition jsonProps : list (str * JSVal) -> list (str * JSVal) :=
  fix props (fs : list (str * JSVal)) : list (str * JSVal) :=
    match fs with
    | [] => []
    | (k, VUndefined) :: fs' => props fs'
    | (k, x) :: fs' => (k, jsonify x) :: props fs'
    end.
Unset Implicit Arguments.

(* ===================================================================== *)
(** ** Facts about the string primitives *)
(* ===================================================================== *)

Example split_ex1 : split (L "/") (L "a/b/") = [L "a"; L "b"; L ""].
Proof. reflexivity. Qed.
Example split_ex2 : split (L "/channel/") (L "x/channel/UC1/channel/y") = [L "x"; L "UC1"; L "y"].
Proof. reflexivity. Qed.
Example split_ex3 : split (L "/") (L "") = [L ""].
Proof. reflexivity. Qed.
Example replace_ex : replace (L " - YouTube") (L "") (L "My Channel - YouTube") = L "My Channel".
Proof. reflexivity. Qed.
Example parse_ex1 : parseInt10 (L "12345") = Int 12345.
Proof. reflexivity. Qed.
Example parse_ex2 : parseInt10 (L "abc") = NaN.
Proof. reflexivity. Qed.
Example parse_ex3 : parseInt10 (L " -12px") = Int (-12).
Proof. reflexivity. Qed.
Example show_ex : showZ 404 = L "404" /\ showZ (-7) = L "-7" /\ showZ 0 = L "0".
Proof. repeat split. Qed.

(** Above [2^53] the digits are rounded to the nearest double, a tie
    to the even significand, and from [2^1024 - 2^970] on to
    [Infinity]. *)
Example parse_ex4 :
  parseInt10 (L "9007199254740993") = Int 9007199254740992
  /\ parseInt10 (L "9007199254740995") = Int 9007199254740996
  /\ parseInt10 (L "-9007199254740993") = Int (-9007199254740992)
  /\ parseInt10 (L "9007199254740992") = Int 9007199254740992.
Proof. repeat split; vm_compute; reflexivity. Qed.
Example parse_ex5 :
  roundToDouble (2 ^ 1024 - 2 ^ 970 - 1) = Int (2 ^ 1024 - 2 ^ 971)
  /\ roundToDouble (2 ^ 1024 - 2 ^ 970) = Inf false
  /\ parseInt10 (L "1" ++ repeat "0"%char 309) = Inf false
  /\ parseInt10 (L "-1" ++ repeat "0"%char 309) = Inf true.
Proof. repeat split; vm_compute; reflexivity. Qed.
Example show_ex2 :
  showNum (Int 999999999999999868928) = L "999999999999999868928"
  /\ showNum (Int (10 ^ 21)) = L "1e+21"
  /\ showNum (parseInt10 (L "100000000000000000000000")) = L "1e+23"
  /\ showNum (parseInt10 (L "-123456789012345678901234567890"))
     = L "-1.2345678901234568e+29"
  /\ showNum (Inf true) = L "-Infinity".
Proof. repeat split; vm_compute; reflexivity. Qed.
(** [parseInt] reads the string of its argument: of a number from
    [10^21] on, the digits before the point or the exponent. *)
Example parse_ex6 :
  parseInt (VNum (Int (10 ^ 21))) = Ok (Int 1)
  /\ parseInt (VNum (Int 999999999999999868928)) = Ok (Int 999999999999999868928)
  /\ parseInt (VNum NaN) = Ok NaN.
Proof. repeat split; vm_compute; reflexivity. Qed.

Section StringFacts.

Lemma stripPrefix_app (p r : str) : stripPrefix p (p ++ r) = Some r.
Proof.
  induction p as [|a p IH]; simpl; [reflexivity|].
  now rewrite Ascii.eqb_refl.
Qed.

Lemma stripPrefix_Some (p s r : str) : stripPrefix p s = Some r -> s = p ++ r.
Proof.
  revert s; induction p as [|a p IH]; intros s H; simpl in *.
  - now inversion H.
  - destruct s as [|b s]; [discriminate|].
    destruct (Ascii.eqb a b) eqn:E; [|discriminate].
    apply Ascii.eqb_eq in E; subst b. f_equal. now apply IH.
Qed.

Lemma startsWith_true (p s : str) :
  startsWith p s = true -> exists r, s = p ++ r.
Proof.
  unfold startsWith. destruct (stripPrefix p s) eqn:E; [|discriminate].
  intros _. exists s0. now apply stripPrefix_Some.
Qed.

Lemma startsWith_app (p r : str) : startsWith p (p ++ r) = true.
Proof. unfold startsWith. now rewrite stripPrefix_app. Qed.

(** Skipping the rest of an occurrence. *)
Lemma split_go_skip (sep pre r cur : str) :
  split_go sep (List.length pre) cur (pre ++ r) = split_go sep 0 cur r.
Proof.
  induction pre as [|a pre IH]; simpl; [|exact IH].
  destruct r; reflexivity.
Qed.

(** [split] cuts at the leftmost occurrence and goes on behind it. *)
Lemma split_go_indexOf (sep : str) :
  sep <> [] ->
  forall s n cur,
    indexOf sep s = Some n ->
    split_go sep 0 cur s
    = (cur ++ firstn n s) :: split_go sep 0 [] (skipn (n + List.length sep) s).
Proof.
  intros Hsep. induction s as [|c s IH]; intros n cur H.
  - simpl in H. destruct sep; [contradiction|]. discriminate.
  - simpl in H. simpl split_go.
    destruct (startsWith sep (c :: s)) eqn:E.
    + inversion H; subst n. simpl firstn. rewrite app_nil_r. f_equal.
      destruct (startsWith_true _ _ E) as [r Hr].
      destruct sep as [|a sep]; [contradiction|].
      simpl in Hr. inversion Hr; subst.
      replace (List.length (a :: sep) - 1) with (List.length sep)
        by (simpl; lia).
      rewrite split_go_skip.
      replace (0 + List.length (a :: sep)) with (List.length (a :: sep)) by lia.
      change (a :: sep ++ r) with ((a :: sep) ++ r).
      now rewrite skipn_app, skipn_all, Nat.sub_diag.
    + destruct (indexOf sep s) as [m|] eqn:Em; [|discriminate].
      simpl in H. inversion H; subst n.
      rewrite (IH m (cur ++ [c]) eq_refl).
      simpl. now rewrite <- app_assoc.
Qed.

Lemma split_go_none (sep : str) :
  forall s cur, indexOf sep s = None -> split_go sep 0 cur s = [cur ++ s].
Proof.
  induction s as [|c s IH]; intros cur H.
  - simpl. now rewrite app_nil_r.
  - simpl in H. simpl split_go.
    destruct (startsWith sep (c :: s)); [discriminate|].
    destruct (indexOf sep s); [discriminate|].
    rewrite IH by reflexivity. now rewrite <- app_assoc.
Qed.

(** The first piece of a split at one character is the run before
    that character. *)
Lemma split_go_char_head (c : ascii) :
  forall s cur, exists rest,
    split_go [c] 0 cur s = (cur ++ takeWhile (isNot c) s) :: rest.
Proof.
  induction s as [|x s IH]; intros cur.
  - exists []. simpl. now rewrite app_nil_r.
  - simpl split_go. unfold startsWith. simpl stripPrefix.
    simpl takeWhile. unfold isNot at 1.
    rewrite (Ascii.eqb_sym x c).
    destruct (Ascii.eqb c x); simpl.
    + eexists. now rewrite app_nil_r.
    + destruct (IH (cur ++ [x])) as [rest Hr]. exists rest.
      rewrite Hr. now rewrite <- app_assoc.
Qed.

(** The last piece of a split at one character is what follows the
    last occurrence. *)
Lemma split_go_char_last (c : ascii) :
  forall s cur tl,
    forallb (isNot c) tl = true ->
    pop (split_go [c] 0 cur (s ++ c :: tl)) = Some tl.
Proof.
  assert (Hlast : forall (x : str) (l : list str), l <> [] -> pop (x :: l) = pop l).
  { intros x l Hl. unfold pop. simpl.
    destruct (rev l) eqn:E.
    - apply (f_equal (@rev str)) in E. rewrite rev_involutive in E. now subst.
    - reflexivity. }
  assert (Hne : forall s k cur, split_go [c] k cur s <> []).
  { induction s as [|x s IH]; intros k cur; simpl; [discriminate|].
    destruct k; [|apply IH].
    destruct (startsWith [c] (x :: s)); [discriminate|apply IH]. }
  assert (Htl : forall tl cur, forallb (isNot c) tl = true ->
                               split_go [c] 0 cur tl = [cur ++ tl]).
  { induction tl as [|x tl IH]; intros cur H; simpl.
    - now rewrite app_nil_r.
    - simpl in H. apply andb_true_iff in H as [Hx Ht].
      unfold startsWith. simpl stripPrefix.
      unfold isNot in Hx. rewrite Ascii.eqb_sym in Hx.
      destruct (Ascii.eqb c x); [discriminate|].
      rewrite IH by assumption. now rewrite <- app_assoc. }
  induction s as [|x s IH]; intros cur tl H.
  - simpl app. simpl split_go. unfold startsWith. simpl stripPrefix.
    rewrite Ascii.eqb_refl. simpl.
    rewrite Hlast by apply Hne.
    rewrite Htl by assumption. reflexivity.
  - simpl app. simpl split_go.
    destruct (startsWith [c] (x :: s ++ c :: tl)).
    + simpl. rewrite Hlast by apply Hne. now apply IH.
    + now apply IH.
Qed.

Lemma takeWhile_firstn_indexOf (f : ascii -> bool) (c : ascii) (sep : str) :
  f c = false ->
  forall t m,
    indexOf (c :: sep) t = Some m ->
    takeWhile f (firstn m t) = takeWhile f t.
Proof.
  intros Hc. induction t as [|x t IH]; intros m H.
  - destruct m; reflexivity.
  - simpl in H. destruct (startsWith (c :: sep) (x :: t)) eqn:E.
    + inversion H; subst m. simpl.
      destruct (startsWith_true _ _ E) as [r Hr]. simpl in Hr.
      inversion Hr; subst. now rewrite Hc.
    + destruct (indexOf (c :: sep) t) as [k|] eqn:Ek; [|discriminate].
      simpl in H. inversion H; subst m. simpl.
      destruct (f x); [|reflexivity].
      f_equal. now apply IH.
Qed.

Lemma takeWhile_all (f : ascii -> bool) (a r : str) :
  forallb f a = true ->
  (r = [] \/ exists x r', r = x :: r' /\ f x = false) ->
  takeWhile f (a ++ r) = a.
Proof.
  intros Ha Hr. induction a as [|x a IH]; simpl in *.
  - destruct Hr as [->|(x & r' & -> & Hx)]; [reflexivity|].
    simpl. now rewrite Hx.
  - apply andb_true_iff in Ha as [Hx Ha]. rewrite Hx. f_equal. now apply IH.
Qed.

Lemma includes_indexOf (s p : str) :
  includes s p = true <-> exists n, indexOf p s = Some n.
Proof.
  unfold includes. destruct (indexOf p s) as [n|].
  - split; [intros _; now exists n|reflexivity].
  - split; [discriminate|intros [n H]; discriminate].
Qed.

End StringFacts.

(** What [url.split('/channel/')[1].split('/')[0]] computes: the text
    behind the leftmost [/channel/] up to the next [/]. *)
Lemma channelIdAfterMarker_spec (url : str) (n : nat) :
  indexOf (L "/channel/") url = Some n ->
  channelIdAfterMarker url
  = Ok (takeWhile (isNot "/"%char) (skipn (n + 9) url)).
Proof.
  intros H. unfold channelIdAfterMarker, split.
  rewrite (@split_go_indexOf (L "/channel/") ltac:(discriminate) url n [] H).
  change (List.length (L "/channel/")) with 9.
  set (tail := skipn (n + 9) url).
  assert (Hhead : exists rest,
             split_go (L "/channel/") 0 [] tail = rest
             /\ exists piece more, rest = piece :: more
                /\ takeWhile (isNot "/"%char) piece = takeWhile (isNot "/"%char) tail).
  { eexists; split; [reflexivity|].
    destruct (indexOf (L "/channel/") tail) as [m|] eqn:Em.
    - rewrite (@split_go_indexOf (L "/channel/") ltac:(discriminate) tail m [] Em).
      do 2 eexists; split; [reflexivity|]. simpl app.
      apply (@takeWhile_firstn_indexOf (isNot "/"%char) "/"%char (L "channel/"));
        [reflexivity|exact Em].
    - rewrite (split_go_none _ _ [] Em). do 2 eexists; split; reflexivity. }
  destruct Hhead as (rest & Hrest & piece & more & -> & Hpiece).
  rewrite Hrest. simpl nth_error.
  destruct (split_go_char_head "/"%char piece []) as [r Hr].
  change (L "/") with ["/"%char]. rewrite Hr. simpl.
  now rewrite Hpiece.
Qed.


(* ===================================================================== *)
(** ** Channel-ID extraction from a URL *)
(* ===================================================================== *)

Lemma takeWhile_dropWhile (f : ascii -> bool) (s : str) :
  s = takeWhile f s ++ dropWhile f s
  /\ forallb f (takeWhile f s) = true
  /\ (dropWhile f s = [] \/ exists x r, dropWhile f s = x :: r /\ f x = false).
Proof.
  induction s as [|c s (IH1 & IH2 & IH3)]; simpl.
  - repeat split. now left.
  - destruct (f c) eqn:E; simpl.
    + rewrite E, IH2. repeat split; [now f_equal|assumption].
    + repeat split. right. now exists c, s.
Qed.

Lemma indexOf_Some_decomp (p : str) :
  forall s n,
    indexOf p s = Some n ->
    s = firstn n s ++ p ++ skipn (n + List.length p) s.
Proof.
  induction s as [|c s IH]; intros n H; simpl in H.
  - destruct (startsWith p []) eqn:E; [|discriminate].
    inversion H; subst n. destruct (startsWith_true _ _ E) as [r Hr].
    destruct p; [|discriminate]. simpl in *. now subst.
  - destruct (startsWith p (c :: s)) eqn:E.
    + inversion H; subst n. destruct (startsWith_true _ _ E) as [r Hr].
      rewrite Hr. cbn [firstn app Nat.add].
      now rewrite skipn_app, skipn_all, Nat.sub_diag.
    + destruct (indexOf p s) as [m|] eqn:Em; [|discriminate].
      simpl in H. inversion H; subst n. simpl. f_equal. now apply IH.
Qed.

(** C2, amended: for every URL containing [/channel/], channel-ID
    extraction returns the text [id] that follows the leftmost
    [/channel/] up to, and not including, the next [/] (or up to the
    end of the URL): the result holds no slash, so no trailing slash,
    and it is cut at a slash only, so anything that follows the ID
    without a slash in between (a query string) stays in the result.
    The feed fetcher, which takes the last [/]-separated piece of the
    author URI, agrees on a URL that ends with [id]. *)
Theorem channel_id_extraction_upto_slash (url : str) (n : nat) :
  indexOf (L "/channel/") url = Some n ->
  exists id rest,
    url = firstn n url ++ L "/channel/" ++ id ++ rest
    /\ channelIdAfterMarker url = Ok id
    /\ forallb (isNot "/"%char) id = true
    /\ (rest = [] \/ exists r, rest = "/"%char :: r)
    /\ (rest = [] -> lastSegment url = VStr id).
Proof.
  intros Hidx.
  pose proof (indexOf_Some_decomp _ _ _ Hidx) as Hurl.
  change (List.length (L "/channel/")) with 9 in Hurl.
  set (tail := skipn (n + 9) url) in *.
  destruct (takeWhile_dropWhile (isNot "/"%char) tail) as (Ht & Hid & Hrest).
  exists (takeWhile (isNot "/"%char) tail), (dropWhile (isNot "/"%char) tail).
  split; [now rewrite <- Ht|].
  split; [exact (channelIdAfterMarker_spec _ _ Hidx)|].
  split; [exact Hid|].
  split.
  - destruct Hrest as [Hr|(x & r & Hr & Hx)]; [now left|right].
    exists r. rewrite Hr. f_equal.
    unfold isNot in Hx. apply negb_false_iff in Hx. now apply Ascii.eqb_eq in Hx.
  - intros Hnil. rewrite Hnil, app_nil_r in Ht.
    rewrite Hurl, <- Ht. unfold lastSegment, split.
    change (firstn n url ++ L "/channel/" ++ tail)
      with (firstn n url ++ L "/channel" ++ "/"%char :: tail).
    rewrite app_assoc.
    change (L "/") with ["/"%char].
    rewrite split_go_char_last; [reflexivity|].
    now rewrite Ht.
Qed.

Lemma channel_id_extraction_upto_slash_witness :
  exists id rest,
    L "https://www.youtube.com/channel/UCW5wxEjGHWNyatgZe-PU_tA/videos?view=0"
    = firstn 23 (L "https://www.youtube.com/channel/UCW5wxEjGHWNyatgZe-PU_tA/videos?view=0")
      ++ L "/channel/" ++ id ++ rest
    /\ channelIdAfterMarker
         (L "https://www.youtube.com/channel/UCW5wxEjGHWNyatgZe-PU_tA/videos?view=0")
       = Ok id
    /\ forallb (isNot "/"%char) id = true
    /\ (rest = [] \/ exists r, rest = "/"%char :: r)
    /\ (rest = [] ->
        lastSegment
          (L "https://www.youtube.com/channel/UCW5wxEjGHWNyatgZe-PU_tA/videos?view=0")
        = VStr id).
Proof.
  apply (@channel_id_extraction_upto_slash
           (L "https://www.youtube.com/channel/UCW5wxEjGHWNyatgZe-PU_tA/videos?view=0") 23).
  reflexivity.
Defined.

Example channel_id_at_end_of_url :
  channelIdAfterMarker (L "https://www.youtube.com/channel/UCW5wxEjGHWNyatgZe-PU_tA")
  = Ok (L "UCW5wxEjGHWNyatgZe-PU_tA")
  /\ lastSegment (L "https://www.youtube.com/channel/UCW5wxEjGHWNyatgZe-PU_tA")
     = VStr (L "UCW5wxEjGHWNyatgZe-PU_tA").
Proof. split; reflexivity. Qed.

Example channel_id_drops_trailing_slash :
  channelIdAfterMarker (L "https://www.youtube.com/channel/UCW5wxEjGHWNyatgZe-PU_tA/")
  = Ok (L "UCW5wxEjGHWNyatgZe-PU_tA").
Proof. reflexivity. Qed.

(** C2 as stated fails: behind the ID of this URL comes a query string,
    and all three extraction sites keep it. *)
Lemma channel_id_keeps_query_string :
  let url := L "https://www.youtube.com/channel/UCW5wxEjGHWNyatgZe-PU_tA?view=0" in
  includes url (L "/channel/") = true
  /\ channelIdAfterMarker url = Ok (L "UCW5wxEjGHWNyatgZe-PU_tA?view=0")
  /\ channelIdAfterMarker url <> Ok (L "UCW5wxEjGHWNyatgZe-PU_tA")
  /\ lastSegment url = VStr (L "UCW5wxEjGHWNyatgZe-PU_tA?view=0")
  /\ lastSegment url <> VStr (L "UCW5wxEjGHWNyatgZe-PU_tA").
Proof.
  cbv zeta. repeat split; try reflexivity; vm_compute; discriminate.
Qed.


(* ===================================================================== *)
(** ** The feed fetcher *)
(* ===================================================================== *)

#[global] Arguments L : simpl never.
#[global] Arguments replace : simpl never.
#[global] Arguments showZ : simpl never.

Section FeedFacts.

Variable World : Type.
Variable drv : Driver World.
Variable host : Host.

(** The shape of every record [feedData] returns. *)
Lemma feedData_inv (result : JSVal) (d : ChannelData) :
  feedData result = Ok d ->
  exists entries a u t n,
    getChain result [KName (L "feed"); KName (L "entry")] = Ok entries
    /\ getChain result [KName (L "feed"); KName (L "author"); KIdx 0;
                        KName (L "name"); KIdx 0] = Ok a
    /\ getChain result [KName (L "feed"); KName (L "author"); KIdx 0;
                        KName (L "uri"); KIdx 0] = Ok (VStr u)
    /\ getChain result [KName (L "feed"); KName (L "title"); KIdx 0] = Ok t
    /\ parseInt (or_ (optChain (optGet entries (KIdx 1)) viewsKeys) (VStr (L "0"))) = Ok n
    /\ d = {| author := a;
              uri := VStr u;
              title := t;
              thumbnail := or_ (optChain (optGet entries (KIdx 1)) thumbnailKeys) VNull;
              viewCount := VNum n;
              lastVideoId :=
                optChain (optGet entries (KIdx 1)) [KName (L "yt:videoId"); KIdx 0];
              lastVideoDate :=
                optChain (optGet entries (KIdx 1)) [KName (L "published"); KIdx 0];
              channelId := lastSegment u |}.
Proof.
  unfold feedData. intros H.
  destruct (getChain result [KName (L "feed"); KName (L "entry")])
    as [entries|] eqn:He; [|discriminate].
  destruct (getChain result [KName (L "feed"); KName (L "author"); KIdx 0;
                             KName (L "name"); KIdx 0]) as [a|] eqn:Ha; [|discriminate].
  destruct (getChain result [KName (L "feed"); KName (L "author"); KIdx 0;
                             KName (L "uri"); KIdx 0]) as [u|] eqn:Hu; [|discriminate].
  destruct (getChain result [KName (L "feed"); KName (L "title"); KIdx 0])
    as [t|] eqn:Ht; [|discriminate].
  destruct (splitV u (L "/")) as [parts|] eqn:Hs; [|discriminate].
  destruct (parseInt _) as [n|] eqn:Hn; [|discriminate].
  destruct u; try discriminate. simpl in Hs. inversion Hs; subst parts.
  inversion H; subst d. exists entries, a, s, t, n.
  repeat split; try assumption; reflexivity.
Qed.

(** The feed path: a response with a success status whose body parses
    and yields a record is the result, after one request and nothing
    else. *)
Lemma fetchChannelFeed_feed_path (channelName : str) (st : St World)
      (resp : HttpResponse) (w' : World) (body : str) (result : JSVal)
      (d : ChannelData) :
  http_fetch drv (L "https://www.youtube.com/feeds/videos.xml?user="
                    ++ replace (L "@") [] channelName) (world st) = (Ok resp, w') ->
  ok resp = true ->
  text resp = Ok body ->
  xml_parse drv body = Ok result ->
  feedData result = Ok d ->
  fetchChannelFeed drv host channelName st
  = (Ok {| success := true; data := d |},
     {| world := w';
        trace := trace st ++
                 [EvEnter FeedFetcher channelName;
                  EvFetch (L "https://www.youtube.com/feeds/videos.xml?user="
                             ++ replace (L "@") [] channelName)] |}).
Proof.
  intros Hf Hok Ht Hp Hd.
  unfold fetchChannelFeed, bind, tryCatch, emit, fetch, call, liftRes, ret.
  cbn [world trace]. rewrite Hf.
  assert (H404 : (status resp =? 404)%Z = false).
  { unfold ok in Hok. apply andb_true_iff in Hok as [_ Hle].
    apply Z.leb_le in Hle. apply Z.eqb_neq. lia. }
  rewrite H404, Hok. cbn [negb world trace]. rewrite Ht, Hp, Hd.
  now rewrite <- app_assoc.
Qed.

End FeedFacts.

Lemma digit_not_space_or_sign (c : ascii) :
  isDigit c = true ->
  isWhiteSpace c = false
  /\ Ascii.eqb c "-"%char = false /\ Ascii.eqb c "+"%char = false.
Proof.
  destruct c as [[] [] [] [] [] [] [] []]; vm_compute; intros H;
    try discriminate; repeat split.
Qed.

Lemma takeWhile_forallb (f : ascii -> bool) (s : str) :
  forallb f s = true -> takeWhile f s = s.
Proof.
  intros H. rewrite <- (app_nil_r s) at 1.
  apply takeWhile_all; [assumption|now left].
Qed.

(** [parseInt] of a string of decimal digits is the double nearest to
    its value. *)
Lemma parseInt10_digits (ds : str) :
  ds <> [] -> forallb isDigit ds = true ->
  parseInt10 ds = roundToDouble (digitsValue ds).
Proof.
  intros Hne Hd. destruct ds as [|c s]; [contradiction|].
  pose proof Hd as Hd'. simpl in Hd'. apply andb_true_iff in Hd' as [Hc _].
  destruct (digit_not_space_or_sign c Hc) as (Hw & Hm & Hp).
  unfold parseInt10. simpl dropWhile. rewrite Hw, Hm, Hp.
  rewrite (takeWhile_forallb _ _ Hd). reflexivity.
Qed.

(** Below [2^53] the double is the integer itself. *)
Lemma roundToDouble_exact (z : Z) :
  (Z.abs z < 2 ^ 53)%Z -> roundToDouble z = Int z.
Proof.
  intros H. unfold roundToDouble. cbv zeta.
  destruct (Z.ltb_spec (Z.abs z) (2 ^ 53)); [reflexivity|lia].
Qed.

(** [parseInt] of a string that starts with neither white space, a sign
    nor a digit is [NaN]. *)
Lemma parseInt10_non_numeric (c : ascii) (s : str) :
  isDigit c = false -> isWhiteSpace c = false ->
  Ascii.eqb c "-"%char = false -> Ascii.eqb c "+"%char = false ->
  parseInt10 (c :: s) = NaN.
Proof.
  intros Hd Hw Hm Hp. unfold parseInt10. simpl dropWhile.
  rewrite Hw, Hm, Hp. simpl takeWhile. now rewrite Hd.
Qed.

(** A [views] attribute of decimal digits gives the double nearest to
    the value of the digits, which below [2^53] is that value. *)
Lemma feed_view_count_of_digits (result entries : JSVal) (d : ChannelData) (ds : str) :
  feedData result = Ok d ->
  getChain result [KName (L "feed"); KName (L "entry")] = Ok entries ->
  optChain (optGet entries (KIdx 1)) viewsKeys = VStr ds ->
  ds <> [] -> forallb isDigit ds = true ->
  viewCount d = VNum (roundToDouble (digitsValue ds))
  /\ ((Z.abs (digitsValue ds) < 2 ^ 53)%Z -> viewCount d = VNum (Int (digitsValue ds))).
Proof.
  intros Hd He Hv Hne Hds.
  destruct (feedData_inv _ _ Hd) as (entries' & a & u & t & n & He' & _ & _ & _ & Hn & ->).
  rewrite He in He'. inversion He'; subst entries'. clear He'.
  rewrite Hv in Hn. cbn [viewCount].
  unfold parseInt, or_ in Hn. destruct ds as [|c s]; [contradiction|].
  cbn [truthy toStr] in Hn.
  rewrite parseInt10_digits in Hn by (assumption || discriminate).
  inversion Hn; subst n. split; [reflexivity|].
  intros Hb. now rewrite roundToDouble_exact.
Qed.

(** C3, amended: in the feed fetcher the [views] attribute of the
    statistics fragment of the second entry is parsed as a decimal
    integer: [views='12345'] gives [viewCount = 12345], an absent
    statistics fragment gives [viewCount = 0], and a present value that
    starts with neither a digit, a sign nor white space gives
    [viewCount = NaN], not [0]. *)
Theorem feed_view_count_parsing (result entries : JSVal) (d : ChannelData) :
  feedData result = Ok d ->
  getChain result [KName (L "feed"); KName (L "entry")] = Ok entries ->
  let views := optChain (optGet entries (KIdx 1)) viewsKeys in
  (views = VStr (L "12345") -> viewCount d = VNum (Int 12345))
  /\ (views = VUndefined -> viewCount d = VNum (Int 0))
  /\ (forall c s, views = VStr (c :: s) ->
                  isDigit c = false -> isWhiteSpace c = false ->
                  Ascii.eqb c "-"%char = false -> Ascii.eqb c "+"%char = false ->
                  viewCount d = VNum NaN).
Proof.
  intros Hd He views.
  destruct (feedData_inv _ _ Hd) as (entries' & a & u & t & n & He' & _ & _ & _ & Hn & ->).
  rewrite He in He'. inversion He'; subst entries'. clear He'.
  fold views in Hn. cbn [viewCount].
  repeat split.
  - intros Hv. rewrite Hv in Hn. vm_compute in Hn. now inversion Hn.
  - intros Hv. rewrite Hv in Hn. vm_compute in Hn. now inversion Hn.
  - intros c s Hv H1 H2 H3 H4. rewrite Hv in Hn.
    unfold parseInt, or_ in Hn. cbn [truthy toStr] in Hn.
    rewrite parseInt10_non_numeric in Hn by assumption.
    now inversion Hn.
Qed.

Lemma feed_view_count_parsing_witness :
  exists d,
    feedData (sampleFeed (L "Some Author") channelUri (L "Some Title") [entryA; entryB])
      = Ok d
    /\ viewCount d = VNum (Int 12345).
Proof.
  eexists. split; [reflexivity|].
  apply (@feed_view_count_parsing
           (sampleFeed (L "Some Author") channelUri (L "Some Title") [entryA; entryB])
           (VArr [entryA; entryB]) _ eq_refl eq_refl).
  reflexivity.
Defined.

(** C3 as stated fails: a statistics fragment with [views='abc'] makes
    the feed fetcher return [viewCount = NaN]. *)
Lemma feed_view_count_non_numeric_is_NaN :
  let tree := sampleFeed (L "Some Author") channelUri (L "Some Title")
                [entryA;
                 sampleEntry (L "vidBBBBBBBB") (L "2024-05-01T10:00:00+00:00")
                   (L "https://i.ytimg.com/vi/vidBBBBBBBB/hqdefault.jpg") (L "abc")] in
  exists r st,
    run (fetchChannelFeed (scripted (feedWorld tree)) productionHost (L "@somehandle")) tt
    = (Ok r, st)
    /\ entries (trace st) = [(FeedFetcher, L "@somehandle")]
    /\ viewCount (data r) = VNum NaN
    /\ viewCount (data r) <> VNum (Int 0).
Proof.
  cbv zeta. do 2 eexists. split; [vm_compute; reflexivity|].
  split; [reflexivity|]. split; [reflexivity|discriminate].
Qed.

(** C5: for every successfully parsed feed the optional fields
    [thumbnail], [viewCount], [lastVideoId] and [lastVideoDate] of the
    feed fetcher's record are read from the second entry (index 1) of
    the feed; the first entry [e0] has no part in them. *)
Theorem feed_optional_fields_from_second_entry
        (result e0 : JSVal) (es : list JSVal) (d : ChannelData) :
  feedData result = Ok d ->
  getChain result [KName (L "feed"); KName (L "entry")] = Ok (VArr (e0 :: es)) ->
  let second := nth 0 es VUndefined in
  thumbnail d = or_ (optChain second thumbnailKeys) VNull
  /\ (exists n, parseInt (or_ (optChain second viewsKeys) (VStr (L "0"))) = Ok n
                /\ viewCount d = VNum n)
  /\ lastVideoId d = optChain second [KName (L "yt:videoId"); KIdx 0]
  /\ lastVideoDate d = optChain second [KName (L "published"); KIdx 0].
Proof.
  intros Hd He second.
  destruct (feedData_inv _ _ Hd) as (entries' & a & u & t & n & He' & _ & _ & _ & Hn & ->).
  rewrite He in He'. inversion He'; subst entries'. clear He'.
  change (optGet (VArr (e0 :: es)) (KIdx 1)) with second in *.
  cbn [thumbnail viewCount lastVideoId lastVideoDate].
  repeat split. exists n. now split.
Qed.

Lemma feed_optional_fields_from_second_entry_witness :
  exists d,
    feedData (sampleFeed (L "Some Author") channelUri (L "Some Title") [entryA; entryB])
      = Ok d
    /\ thumbnail d = VStr (L "https://i.ytimg.com/vi/vidBBBBBBBB/hqdefault.jpg")
    /\ viewCount d = VNum (Int 12345)
    /\ lastVideoId d = VStr (L "vidBBBBBBBB")
    /\ lastVideoDate d = VStr (L "2024-05-01T10:00:00+00:00").
Proof.
  eexists. split; [reflexivity|].
  destruct (@feed_optional_fields_from_second_entry
              (sampleFeed (L "Some Author") channelUri (L "Some Title") [entryA; entryB])
              entryA [entryB] _ eq_refl eq_refl)
    as (Ht & (n & Hn & Hv) & Hi & Hd).
  repeat split; assumption || (rewrite Hv; reflexivity).
Defined.

Section FeedShort.

Variable World : Type.
Variable drv : Driver World.
Variable host : Host.

Lemma getChain_cons (v x : JSVal) (k : Key) (ks : list Key) :
  get v k = Ok x -> getChain v (k :: ks) = getChain x ks.
Proof. intros H. simpl. now rewrite H. Qed.

(** C10: a feed response with a success status that parses with author
    name, author URI and title present makes the feed fetcher succeed
    also when the feed has fewer than two entries; then [thumbnail] is
    [null], [viewCount] is [0], [lastVideoId] and [lastVideoDate] are
    [undefined], and the log holds the feed request only: no fallback
    strategy is entered. *)
Theorem feed_with_fewer_than_two_entries_succeeds
        (channelName : str) (st : St World) (resp : HttpResponse) (w' : World)
        (body : str) (result feed entries : JSVal) (a u t : str) :
  http_fetch drv (L "https://www.youtube.com/feeds/videos.xml?user="
                    ++ replace (L "@") [] channelName) (world st) = (Ok resp, w') ->
  ok resp = true ->
  text resp = Ok body ->
  xml_parse drv body = Ok result ->
  get result (KName (L "feed")) = Ok feed ->
  get feed (KName (L "entry")) = Ok entries ->
  (entries = VUndefined \/ exists es, entries = VArr es /\ List.length es < 2) ->
  getChain feed [KName (L "author"); KIdx 0; KName (L "name"); KIdx 0] = Ok (VStr a) ->
  getChain feed [KName (L "author"); KIdx 0; KName (L "uri"); KIdx 0] = Ok (VStr u) ->
  getChain feed [KName (L "title"); KIdx 0] = Ok (VStr t) ->
  fetchChannelFeed drv host channelName st
  = (Ok {| success := true;
           data := {| author := VStr a;
                      uri := VStr u;
                      title := VStr t;
                      thumbnail := VNull;
                      viewCount := VNum (Int 0);
                      lastVideoId := VUndefined;
                      lastVideoDate := VUndefined;
                      channelId := lastSegment u |} |},
     {| world := w';
        trace := trace st ++
                 [EvEnter FeedFetcher channelName;
                  EvFetch (L "https://www.youtube.com/feeds/videos.xml?user="
                             ++ replace (L "@") [] channelName)] |}).
Proof.
  intros Hf Hok Ht Hp Hfeed Hent Hfew Ha Hu Htitle.
  apply (fetchChannelFeed_feed_path World drv host channelName st resp w' body result);
    try assumption.
  assert (Hsecond : optGet entries (KIdx 1) = VUndefined).
  { destruct Hfew as [->|(es & -> & Hlen)]; [reflexivity|].
    destruct es as [|e0 [|e1 es]]; try reflexivity. simpl in Hlen. lia. }
  unfold feedData.
  rewrite (getChain_cons _ _ _ _ Hfeed). simpl getChain at 1. rewrite Hent.
  rewrite (getChain_cons _ _ _ _ Hfeed), Ha.
  rewrite (getChain_cons _ _ _ _ Hfeed), Hu.
  rewrite (getChain_cons _ _ _ _ Hfeed), Htitle.
  rewrite Hsecond. reflexivity.
Qed.

End FeedShort.

Lemma feed_with_fewer_than_two_entries_succeeds_witness :
  exists st,
    run (fetchChannelFeed
           (scripted (feedWorld (sampleFeed (L "Some Author") channelUri (L "Some Title")
                                            [entryA])))
           productionHost (L "@somehandle")) tt
    = (Ok {| success := true;
             data := {| author := VStr (L "Some Author");
                        uri := VStr channelUri;
                        title := VStr (L "Some Title");
                        thumbnail := VNull;
                        viewCount := VNum (Int 0);
                        lastVideoId := VUndefined;
                        lastVideoDate := VUndefined;
                        channelId := lastSegment channelUri |} |}, st)
    /\ entries (trace st) = [(FeedFetcher, L "@somehandle")].
Proof.
  eexists. split.
  - unfold run.
    apply (@feed_with_fewer_than_two_entries_succeeds
             unit
             (scripted (feedWorld (sampleFeed (L "Some Author") channelUri
                                              (L "Some Title") [entryA])))
             productionHost (L "@somehandle") {| world := tt; trace := [] |}
             {| status := 200; text := Ok (L "<feed>...</feed>") |} tt
             (L "<feed>...</feed>")
             (sampleFeed (L "Some Author") channelUri (L "Some Title") [entryA])
             (VObj [ (L "title", VArr [VStr (L "Some Title")]);
                     (L "author", VArr [VObj [ (L "name", VArr [VStr (L "Some Author")]);
                                               (L "uri", VArr [VStr channelUri]) ]]);
                     (L "entry", VArr [entryA]) ])
             (VArr [entryA])).
    + reflexivity.
    + reflexivity.
    + reflexivity.
    + reflexivity.
    + reflexivity.
    + reflexivity.
    + right. exists [entryA]. split; [reflexivity|simpl; lia].
    + reflexivity.
    + reflexivity.
    + reflexivity.
  - reflexivity.
Defined.

(* ===================================================================== *)
(** ** What a computation adds to the log *)
(* ===================================================================== *)

Section Logs.

Variable World : Type.

Variable P : list Event -> Prop.
Hypothesis P_nil : P [].
Hypothesis P_app : forall a b, P a -> P b -> P (a ++ b).

Lemma adds_ret {A} (a : A) : adds P (ret (World := World) a).
Proof. intros st. exists []. simpl. now rewrite app_nil_r. Qed.

Lemma adds_throw {A} (e : Exn) : adds P (throw (World := World) (A := A) e).
Proof. intros st. exists []. simpl. now rewrite app_nil_r. Qed.

Lemma adds_liftRes {A} (r : Res A) : adds P (liftRes (World := World) r).
Proof. intros st. exists []. simpl. now rewrite app_nil_r. Qed.

Lemma adds_observe {A} (f : World -> A) : adds P (observe f).
Proof. intros st. exists []. simpl. now rewrite app_nil_r. Qed.

Lemma adds_bind {A B} (m : M World A) (k : A -> M World B) :
  adds P m -> (forall a, adds P (k a)) -> adds P (bind m k).
Proof.
  intros Hm Hk st. unfold bind.
  destruct (Hm st) as (e1 & H1 & P1).
  destruct (m st) as [[a|e] st1]; simpl in H1.
  - destruct (Hk a st1) as (e2 & H2 & P2).
    exists (e1 ++ e2). rewrite H2, H1, app_assoc. auto.
  - exists e1. simpl. auto.
Qed.

Lemma adds_tryCatch {A} (m : M World A) (h : Exn -> M World A) :
  adds P m -> (forall e, adds P (h e)) -> adds P (tryCatch m h).
Proof.
  intros Hm Hh st. unfold tryCatch.
  destruct (Hm st) as (e1 & H1 & P1).
  destruct (m st) as [[a|e] st1]; simpl in H1.
  - exists e1. simpl. auto.
  - destruct (Hh e st1) as (e2 & H2 & P2).
    exists (e1 ++ e2). rewrite H2, H1, app_assoc. auto.
Qed.

Lemma adds_call {A} (ev : Event) (op : World -> Res A * World) :
  P [ev] -> adds P (call ev op).
Proof.
  intros Hev st. exists [ev]. unfold call.
  destruct (op (world st)) as [r w]. simpl. auto.
Qed.

Lemma adds_if {A} (b : bool) (m1 m2 : M World A) :
  adds P m1 -> adds P m2 -> adds P (if b then m1 else m2).
Proof. now destruct b. Qed.

End Logs.

Lemma entries_app (a b : list Event) : entries (a ++ b) = entries a ++ entries b.
Proof.
  induction a as [|e a IH]; [reflexivity|].
  destruct e; simpl; now rewrite IH.
Qed.

Lemma pageOnly_app (a b : list Event) : pageOnly a -> pageOnly b -> pageOnly (a ++ b).
Proof. unfold pageOnly. intros Ha Hb. now rewrite forallb_app, Ha, Hb. Qed.

Lemma pageOnly_noEntry (evs : list Event) : pageOnly evs -> noEntry evs.
Proof.
  unfold pageOnly, noEntry. induction evs as [|e evs IH]; [reflexivity|].
  destruct e; simpl; try discriminate. exact IH.
Qed.

Lemma noEntry_app (a b : list Event) : noEntry a -> noEntry b -> noEntry (a ++ b).
Proof. unfold noEntry. intros Ha Hb. now rewrite entries_app, Ha, Hb. Qed.

Section Pages.

Variable World : Type.
Variable drv : Driver World.

Lemma runPages_app (a b : list PageOp) (w : World) :
  runPages drv (a ++ b) w = runPages drv b (runPages drv a w).
Proof. unfold runPages. apply fold_left_app. Qed.

Lemma pagesOnly_none {A} (m : M World A) :
  (forall st, snd (m st) = st) -> pagesOnly drv m.
Proof.
  intros H st. exists []. rewrite H. destruct st as [w t].
  cbn [runPages fold_left map world trace]. now rewrite app_nil_r.
Qed.

Lemma pagesOnly_ret {A} (a : A) : pagesOnly drv (ret a).
Proof. now apply pagesOnly_none. Qed.

Lemma pagesOnly_throw {A} (e : Exn) : pagesOnly drv (throw (A := A) e).
Proof. now apply pagesOnly_none. Qed.

Lemma pagesOnly_liftRes {A} (r : Res A) : pagesOnly drv (liftRes r).
Proof. now apply pagesOnly_none. Qed.

Lemma pagesOnly_observe {A} (f : World -> A) : pagesOnly drv (observe f).
Proof. now apply pagesOnly_none. Qed.

Lemma pagesOnly_page (op : PageOp) : pagesOnly drv (page drv op).
Proof.
  intros st. exists [op]. unfold page, call.
  cbn [runPages fold_left map].
  destruct (page_do drv op (world st)) as [r w]. reflexivity.
Qed.

Lemma pagesOnly_then {A} (st st1 : St World) (ops1 : list PageOp) (m : M World A) :
  st1 = {| world := runPages drv ops1 (world st);
           trace := trace st ++ map EvPage ops1 |} ->
  pagesOnly drv m ->
  exists ops,
    snd (m st1) = {| world := runPages drv ops (world st);
                     trace := trace st ++ map EvPage ops |}.
Proof.
  intros -> Hm. destruct (Hm {| world := runPages drv ops1 (world st);
                                trace := trace st ++ map EvPage ops1 |}) as (ops2 & H2).
  exists (ops1 ++ ops2). rewrite H2. cbn [world trace].
  now rewrite runPages_app, map_app, app_assoc.
Qed.

Lemma pagesOnly_bind {A B} (m : M World A) (k : A -> M World B) :
  pagesOnly drv m -> (forall a, pagesOnly drv (k a)) -> pagesOnly drv (bind m k).
Proof.
  intros Hm Hk st. unfold bind.
  destruct (Hm st) as (ops1 & H1).
  destruct (m st) as [[a|e] st1]; cbn [snd] in H1.
  - exact (pagesOnly_then st st1 ops1 (k a) H1 (Hk a)).
  - exists ops1. exact H1.
Qed.

Lemma pagesOnly_tryCatch {A} (m : M World A) (h : Exn -> M World A) :
  pagesOnly drv m -> (forall e, pagesOnly drv (h e)) -> pagesOnly drv (tryCatch m h).
Proof.
  intros Hm Hh st. unfold tryCatch.
  destruct (Hm st) as (ops1 & H1).
  destruct (m st) as [[a|e] st1]; cbn [snd] in H1.
  - exists ops1. exact H1.
  - exact (pagesOnly_then st st1 ops1 (h e) H1 (Hh e)).
Qed.

End Pages.

(** Splits a goal [pagesOnly drv m] along the structure of [m]. *)
Ltac pages_step :=
  first
    [ apply pagesOnly_ret
    | apply pagesOnly_throw
    | apply pagesOnly_liftRes
    | apply pagesOnly_observe
    | apply pagesOnly_page
    | apply pagesOnly_bind; [|intro]
    | apply pagesOnly_tryCatch; [|intro]
    | match goal with
      | |- pagesOnly _ (match ?x with _ => _ end) => destruct x
      | |- pagesOnly _ (let _ := _ in _) => cbv zeta
      end ].

(** Splits a goal [adds P m] along the structure of [m]. *)
Ltac adds_step nil app :=
  first
    [ apply (adds_ret _ _ nil)
    | apply (adds_throw _ _ nil)
    | apply (adds_liftRes _ _ nil)
    | apply (adds_observe _ _ nil)
    | apply adds_call; reflexivity
    | apply (adds_bind _ _ app); [|intro]
    | apply (adds_tryCatch _ _ app); [|intro]
    | match goal with
      | |- adds _ (match ?x with _ => _ end) => destruct x
      | |- adds _ (let _ := _ in _) => cbv zeta
      end ].

Ltac adds_tac nil app := repeat adds_step nil app.

(* ===================================================================== *)
(** ** The browser scraper *)
(* ===================================================================== *)

Section Scraper.

Variable World : Type.
Variable drv : Driver World.
Variable host : Host.

(** The log of one scrape, by the outcome of the launch. *)
Lemma scrapeChannelInfo_log (channelName : str) (st : St World) :
  let opts := launchOptions host in
  match browser_launch drv opts (world st) with
  | (Throw e, w1) =>
      scrapeChannelInfo drv host channelName st
      = (Throw e,
         {| world := w1;
            trace := trace st ++ [EvEnter BrowserScraper channelName; EvLaunch opts] |})
  | (Ok _, _) =>
      exists mid,
        pageOnly mid
        /\ trace (snd (scrapeChannelInfo drv host channelName st))
           = trace st ++ [EvEnter BrowserScraper channelName; EvLaunch opts]
               ++ mid ++ [EvClose]
  end.
Proof.
  cbv zeta.
  assert (Hstart : forall k : M World StrategyResult,
             (emit (EvEnter BrowserScraper channelName) ;;; getBrowser drv host ;;; k)%js st
             = match browser_launch drv (launchOptions host) (world st) with
               | (Ok _, w1) =>
                   k {| world := w1;
                        trace := (trace st ++ [EvEnter BrowserScraper channelName])
                                   ++ [EvLaunch (launchOptions host)] |}
               | (Throw e, w1) =>
                   (Throw e,
                    {| world := w1;
                       trace := (trace st ++ [EvEnter BrowserScraper channelName])
                                  ++ [EvLaunch (launchOptions host)] |})
               end).
  { intros k. unfold bind, emit, getBrowser, call. cbn [world trace].
    destruct (browser_launch drv (launchOptions host) (world st)) as [[u|e] w1];
      reflexivity. }
  unfold scrapeChannelInfo. rewrite Hstart. clear Hstart.
  destruct (browser_launch drv (launchOptions host) (world st)) as [[u|e] w1].
  - match goal with
    | |- context [tryFinally ?body _] => assert (Hbody : adds pageOnly body)
    end.
    { adds_tac (eq_refl : pageOnly []) pageOnly_app. }
    unfold tryFinally.
    match goal with
    | |- context [tryCatch ?b ?h ?s] =>
        destruct (Hbody s) as (mid & Hmid & Hpage);
        destruct (tryCatch b h s) as [r st2]
    end.
    cbn [snd trace] in Hmid. exists mid. split; [assumption|].
    unfold call. destruct (browser_close drv (world st2)) as [[c|e] w3];
      cbn [snd trace]; rewrite Hmid; now rewrite <- !app_assoc.
  - now rewrite <- app_assoc.
Qed.

(** C7: a failing launch is the failure of the scrape, thrown to the
    caller before any page operation and with no browser to close.
    After a successful launch the scrape is, on every path, a sequence
    of page operations of the driver followed by [browser.close()] on
    the world they left: whatever outcome [r] the operations led to
    (returned, threw, timed out), the close is performed, it is the
    last action and the last event of the log, and the scrape ends in
    the world the close leaves, with [r], or with the error of the
    close when it throws. *)
Theorem browser_closed_on_every_exit (channelName : str) (st : St World) :
  let opts := launchOptions host in
  match browser_launch drv opts (world st) with
  | (Throw e, w1) =>
      scrapeChannelInfo drv host channelName st
      = (Throw e,
         {| world := w1;
            trace := trace st ++ [EvEnter BrowserScraper channelName; EvLaunch opts] |})
  | (Ok _, w1) =>
      exists (r : Res StrategyResult) (ops : list PageOp),
        scrapeChannelInfo drv host channelName st
        = afterClose drv r (runPages drv ops w1)
            (trace st ++ [EvEnter BrowserScraper channelName; EvLaunch opts]
               ++ map EvPage ops)
  end.
Proof.
  cbv zeta.
  assert (Hstart : forall k : M World StrategyResult,
             (emit (EvEnter BrowserScraper channelName) ;;; getBrowser drv host ;;; k)%js st
             = match browser_launch drv (launchOptions host) (world st) with
               | (Ok _, w1) =>
                   k {| world := w1;
                        trace := (trace st ++ [EvEnter BrowserScraper channelName])
                                   ++ [EvLaunch (launchOptions host)] |}
               | (Throw e, w1) =>
                   (Throw e,
                    {| world := w1;
                       trace := (trace st ++ [EvEnter BrowserScraper channelName])
                                  ++ [EvLaunch (launchOptions host)] |})
               end).
  { intros k. unfold bind, emit, getBrowser, call. cbn [world trace].
    destruct (browser_launch drv (launchOptions host) (world st)) as [[u|e] w1];
      reflexivity. }
  unfold scrapeChannelInfo. rewrite Hstart. clear Hstart.
  destruct (browser_launch drv (launchOptions host) (world st)) as [[u|e] w1].
  - match goal with
    | |- context [tryFinally ?body _] => assert (Hbody : pagesOnly drv body)
    end.
    { repeat pages_step. }
    unfold tryFinally.
    match goal with
    | |- context [tryCatch ?b ?h ?s] =>
        destruct (Hbody s) as (ops & Hops);
        destruct (tryCatch b h s) as [r st2]
    end.
    cbn [snd world trace] in Hops. subst st2.
    exists r, ops. unfold call, afterClose. cbn [world trace].
    rewrite <- !app_assoc. cbn [app].
    destruct (browser_close drv (runPages drv ops w1)) as [[c|e] w3]; reflexivity.
  - now rewrite <- app_assoc.
Qed.

End Scraper.

Example scrape_timeout_closes_browser :
  let out := run (scrapeChannelInfo (scripted timeoutWorld) productionHost
                                    (L "somehandle")) tt in
  fst out
  = Throw (ErrorObj (L "Failed to scrape channel info: Waiting for selector failed: 15000ms exceeded"))
  /\ trace (snd out)
     = [ EvEnter BrowserScraper (L "somehandle");
         EvLaunch (launchOptions productionHost);
         EvPage NewPage;
         EvPage (SetUserAgent userAgent);
         EvPage (SetViewport 1280 720);
         EvPage (Goto (L "https://www.youtube.com/@somehandle") 30000);
         EvPage (WaitForSelectors indicatorSelectors 15000);
         EvClose ].
Proof. cbv zeta. split; vm_compute; reflexivity. Qed.

Example scrape_launch_failure_surfaces :
  let out := run (scrapeChannelInfo (scripted (pageWorld tokenPage)) productionHost
                                    (L "somehandle")) tt in
  fst out = Throw (ErrorObj (L "Failed to launch the browser process"))
  /\ trace (snd out)
     = [ EvEnter BrowserScraper (L "somehandle");
         EvLaunch (launchOptions productionHost) ].
Proof. cbv zeta. split; vm_compute; reflexivity. Qed.

Example scrape_success_closes_browser :
  let out := run (scrapeChannelInfo (scripted renderedWorld) productionHost
                                    (L "somehandle")) tt in
  fst out
  = Ok {| success := true;
          data := {| author := VStr (L "Some Channel");
                     uri := VStr (L "https://www.youtube.com/@somehandle");
                     title := VStr (L "Some Channel");
                     thumbnail := VNull;
                     viewCount := VNum (Int 0);
                     lastVideoId := VNull;
                     lastVideoDate := VNull;
                     channelId := VStr (L "@somehandle") |} |}
  /\ last (trace (snd out)) (EvFetch []) = EvClose.
Proof. cbv zeta. split; vm_compute; reflexivity. Qed.

(* ===================================================================== *)
(** ** The orchestration inside [fetchChannelFeed] *)
(* ===================================================================== *)

Section Orchestration.

Variable World : Type.
Variable drv : Driver World.
Variable host : Host.

(** One run of the HTML extractor is one entry in the log. *)
Lemma html_entries (handle : str) (st : St World) :
  entries (trace (snd (extractChannelIdFromHtml drv handle st)))
  = entries (trace st) ++ [(HtmlExtractor, handle)].
Proof.
  unfold extractChannelIdFromHtml.
  unfold bind at 1. unfold emit at 1.
  match goal with
  | |- context [tryCatch ?b ?h ?s] =>
      assert (Hbody : adds noEntry (tryCatch b h));
      [|destruct (Hbody s) as (evs & Hevs & Hno); rewrite Hevs]
  end.
  { unfold fetch. adds_tac (eq_refl : noEntry []) noEntry_app. }
  cbn [trace]. rewrite !entries_app, Hno, app_nil_r. reflexivity.
Qed.

(** One run of the browser scraper is one entry in the log. *)
Lemma scrape_entries (handle : str) (st : St World) :
  entries (trace (snd (scrapeChannelInfo drv host handle st)))
  = entries (trace st) ++ [(BrowserScraper, handle)].
Proof.
  pose proof (scrapeChannelInfo_log World drv host handle st) as H.
  cbv zeta in H.
  destruct (browser_launch drv (launchOptions host) (world st)) as [[u|e] w1].
  - destruct H as (mid & Hpage & ->).
    rewrite !entries_app. simpl entries at 2.
    rewrite (pageOnly_noEntry _ Hpage). reflexivity.
  - rewrite H. cbn [snd trace]. rewrite entries_app. reflexivity.
Qed.

(** The log of the fallback chain: the HTML extractor, and the browser
    scraper exactly when the extractor threw. *)
Lemma fallbacks_entries (handle : str) (st : St World) :
  entries (trace (snd (fallbacks drv host handle st)))
  = entries (trace st)
    ++ (HtmlExtractor, handle)
       :: match fst (extractChannelIdFromHtml drv handle st) with
          | Ok _ => []
          | Throw _ => [(BrowserScraper, handle)]
          end.
Proof.
  unfold fallbacks, tryCatch.
  pose proof (html_entries handle st) as Hh.
  destruct (extractChannelIdFromHtml drv handle st) as [[r|e] st1]; cbn [fst snd] in *.
  - exact Hh.
  - rewrite scrape_entries, Hh, <- app_assoc. reflexivity.
Qed.

(** [fetchChannelFeed] by the outcome of the feed attempt. *)
Lemma fetchChannelFeed_cases (channelName : str) (st : St World) :
  fetchChannelFeed drv host channelName st
  = let '(r, w1) := http_fetch drv (feedUrl channelName) (world st) in
    let st1 := {| world := w1;
                  trace := trace st ++ [EvEnter FeedFetcher channelName;
                                        EvFetch (feedUrl channelName)] |} in
    match feedAttempt (xml_parse drv) r with
    | FeedParsed d => (Ok {| success := true; data := d |}, st1)
    | FeedNotFound =>
        tryCatch (fallbacks drv host (replace (L "@") [] channelName))
                 (fun _ => fallbacks drv host channelName) st1
    | FeedFailed _ => fallbacks drv host channelName st1
    end.
Proof.
  unfold fetchChannelFeed, feedUrl, feedAttempt, fallbacks.
  unfold bind at 1. unfold emit at 1.
  unfold tryCatch at 1. unfold bind at 1. unfold fetch at 1. unfold call at 1.
  cbn [world trace].
  destruct (http_fetch drv _ (world st)) as [[response|e] w1];
    rewrite <- app_assoc; cbn [app]; [|reflexivity].
  destruct (status response =? 404)%Z; [reflexivity|].
  destruct (negb (ok response)); [reflexivity|].
  unfold bind, liftRes, ret.
  destruct (text response) as [body|e]; [|reflexivity].
  destruct (xml_parse drv body) as [result|e]; [|reflexivity].
  destruct (feedData result) as [d|e]; reflexivity.
Qed.

End Orchestration.

Section Handles.

Variable World : Type.
Variable drv : Driver World.
Variable host : Host.

Lemma fallbacks_throw_html_threw (handle : str) (st st' : St World) (e : Exn) :
  fallbacks drv host handle st = (Throw e, st') ->
  exists e0, fst (extractChannelIdFromHtml drv handle st) = Throw e0.
Proof.
  unfold fallbacks, tryCatch.
  destruct (extractChannelIdFromHtml drv handle st) as [[r|e0] st1]; [discriminate|].
  intros _. now exists e0.
Qed.

(** The strategy entries of a call whose feed request is not found. *)
Lemma not_found_entries (channelName : str) (st : St World) :
  feedAttempt (xml_parse drv) (fst (http_fetch drv (feedUrl channelName) (world st)))
    = FeedNotFound ->
  let s := replace (L "@") [] channelName in
  exists rest,
    entries (trace (snd (fetchChannelFeed drv host channelName st)))
    = entries (trace st) ++ (FeedFetcher, channelName) :: (HtmlExtractor, s) :: rest
    /\ In rest [ [];
                 [(BrowserScraper, s)];
                 [(BrowserScraper, s); (HtmlExtractor, channelName)];
                 [(BrowserScraper, s); (HtmlExtractor, channelName);
                  (BrowserScraper, channelName)] ].
Proof.
  intros Hnf s. rewrite fetchChannelFeed_cases.
  destruct (http_fetch drv (feedUrl channelName) (world st)) as [r w1].
  cbn [fst] in Hnf. cbv zeta. rewrite Hnf.
  set (st1 := {| world := w1; trace := _ |}).
  assert (Hst1 : entries (trace st1) = entries (trace st) ++ [(FeedFetcher, channelName)]).
  { subst st1. cbn [trace]. rewrite entries_app. reflexivity. }
  unfold tryCatch at 1.
  pose proof (fallbacks_entries World drv host s st1) as H1. fold s.
  destruct (fallbacks drv host s st1) as [[r1|e1] st2] eqn:E1; cbn [snd] in *.
  - rewrite H1, Hst1, <- app_assoc. cbn [app].
    eexists; split; [reflexivity|].
    destruct (fst (extractChannelIdFromHtml drv s st1)); simpl; auto.
  - destruct (fallbacks_throw_html_threw _ _ _ _ E1) as [e0 He0].
    rewrite He0 in H1.
    rewrite (fallbacks_entries World drv host channelName st2), H1, Hst1.
    rewrite <- !app_assoc. cbn [app].
    eexists; split; [reflexivity|].
    destruct (fst (extractChannelIdFromHtml drv channelName st2)); simpl; auto.
Qed.

(** The strategy entries of a call whose feed attempt fails otherwise. *)
Lemma failed_feed_entries (channelName : str) (st : St World) (e : Exn) :
  feedAttempt (xml_parse drv) (fst (http_fetch drv (feedUrl channelName) (world st)))
    = FeedFailed e ->
  exists rest,
    entries (trace (snd (fetchChannelFeed drv host channelName st)))
    = entries (trace st)
      ++ (FeedFetcher, channelName) :: (HtmlExtractor, channelName) :: rest
    /\ In rest [ []; [(BrowserScraper, channelName)] ].
Proof.
  intros Hf. rewrite fetchChannelFeed_cases.
  destruct (http_fetch drv (feedUrl channelName) (world st)) as [r w1].
  cbn [fst] in Hf. cbv zeta. rewrite Hf.
  rewrite fallbacks_entries. cbn [trace]. rewrite entries_app, <- app_assoc. cbn [app entries].
  eexists; split; [reflexivity|].
  match goal with |- context [match ?x with _ => _ end] => destruct x end; simpl; auto.
Qed.

End Handles.

(** The strategy entries of a call by the way its feed attempt failed.
    When the feed request is not found, the HTML extractor is entered
    with the handle without its first [@], and so is the browser
    scraper when it is reached; when both have failed, a second round
    with the original handle follows.  When the feed attempt fails any
    other way, both are entered with the original handle only.  So the
    handle [@somehandle] makes the fallbacks request two different
    URLs in the two failure modes. *)
Theorem fallback_handle_by_failure_mode
        (World : Type) (drv : Driver World) (host : Host)
        (channelName : str) (st : St World) :
  let s := replace (L "@") [] channelName in
  let outcome :=
    feedAttempt (xml_parse drv) (fst (http_fetch drv (feedUrl channelName) (world st))) in
  let log := entries (trace (snd (fetchChannelFeed drv host channelName st))) in
  (outcome = FeedNotFound ->
   exists rest,
     log = entries (trace st) ++ (FeedFetcher, channelName) :: (HtmlExtractor, s) :: rest
     /\ In rest [ [];
                  [(BrowserScraper, s)];
                  [(BrowserScraper, s); (HtmlExtractor, channelName)];
                  [(BrowserScraper, s); (HtmlExtractor, channelName);
                   (BrowserScraper, channelName)] ])
  /\ (forall e, outcome = FeedFailed e ->
      exists rest,
        log = entries (trace st)
              ++ (FeedFetcher, channelName) :: (HtmlExtractor, channelName) :: rest
        /\ In rest [ []; [(BrowserScraper, channelName)] ])
  /\ (let t404 := trace (snd (run (fetchChannelFeed (scripted (allStatus 404))
                                     productionHost (L "@somehandle")) tt)) in
      let t500 := trace (snd (run (fetchChannelFeed (scripted (allStatus 500))
                                     productionHost (L "@somehandle")) tt)) in
      nth 1 (fetched t404) [] = L "https://www.youtube.com/@somehandle"
      /\ nth 1 (fetched t500) [] = L "https://www.youtube.com/@@somehandle"
      /\ nth 0 (navigated t404) [] = L "https://www.youtube.com/@somehandle"
      /\ nth 0 (navigated t500) [] = L "https://www.youtube.com/@@somehandle").
Proof.
  cbv zeta. split; [|split].
  - apply not_found_entries.
  - intros e. apply failed_feed_entries.
  - repeat split; vm_compute; reflexivity.
Qed.

Lemma fallback_handle_by_failure_mode_witness :
  (exists rest,
     entries (trace (snd (run (fetchChannelFeed (scripted (allStatus 404))
                                 productionHost (L "@somehandle")) tt)))
     = [] ++ (FeedFetcher, L "@somehandle") :: (HtmlExtractor, L "somehandle") :: rest)
  /\ (exists rest,
     entries (trace (snd (run (fetchChannelFeed (scripted (allStatus 500))
                                 productionHost (L "@somehandle")) tt)))
     = [] ++ (FeedFetcher, L "@somehandle") :: (HtmlExtractor, L "@somehandle") :: rest).
Proof.
  split.
  - destruct (proj1 (@fallback_handle_by_failure_mode
                       unit (scripted (allStatus 404)) productionHost
                       (L "@somehandle") {| world := tt; trace := [] |}) eq_refl)
      as (rest & Hrest & _).
    exists rest. exact Hrest.
  - destruct (proj1 (proj2 (@fallback_handle_by_failure_mode
                       unit (scripted (allStatus 500)) productionHost
                       (L "@somehandle") {| world := tt; trace := [] |}))
                    (ErrorObj (L "Failed to fetch feed: 500")) eq_refl)
      as (rest & Hrest & _).
    exists rest. exact Hrest.
Defined.

(** C9 fails on this input: the feed request of [@ghost] is not found,
    and so are the channel page of [ghost] and the navigation of the
    browser to it.  The fallbacks are entered with the handle without
    its first [@], as claimed, but the error of the scraper is caught
    by the [catch] block of [fetchChannelFeed], which enters the HTML
    extractor with the original handle: it requests the page of
    [@@ghost], and the channel found there is the result of the
    call. *)
Theorem not_found_feed_resolves_from_original_handle :
  let drv := scripted doubledMarkerWorld in
  let out := run (fetchChannelFeed drv productionHost (L "@ghost")) tt in
  feedAttempt (xml_parse drv) (fst (http_fetch drv (feedUrl (L "@ghost")) tt))
    = FeedNotFound
  /\ entries (trace (snd out))
     = [ (FeedFetcher, L "@ghost");
         (HtmlExtractor, L "ghost"); (BrowserScraper, L "ghost");
         (HtmlExtractor, L "@ghost") ]
  /\ fetched (trace (snd out))
     = [ L "https://www.youtube.com/feeds/videos.xml?user=ghost";
         L "https://www.youtube.com/@ghost";
         L "https://www.youtube.com/@@ghost" ]
  /\ exists r,
       fst out = Ok r
       /\ channelId (data r) = VStr (L "UCW5wxEjGHWNyatgZe-PU_tA")
       /\ uri (data r) = VStr (L "https://www.youtube.com/channel/UCW5wxEjGHWNyatgZe-PU_tA").
Proof.
  cbv zeta. split; [|split; [|split]]; try (vm_compute; reflexivity).
  eexists. split; [vm_compute; reflexivity|]. split; reflexivity.
Qed.

(* ===================================================================== *)
(** ** The order of the strategies *)
(* ===================================================================== *)

(** C1 fails on this input: the feed of [@ghost] is not found, the
    channel page is not found either and the browser's navigation
    answers not found.  The error of the scraper, thrown inside the
    [try] block of [fetchChannelFeed], is caught by its own [catch]
    block, which runs the HTML extractor and the browser scraper a
    second time, now with the original handle. *)
Theorem not_found_feed_runs_fallbacks_twice :
  let out := run (fetchChannelFeed (scripted (allStatus 404)) productionHost (L "@ghost")) tt in
  entries (trace (snd out))
  = [ (FeedFetcher, L "@ghost");
      (HtmlExtractor, L "ghost"); (BrowserScraper, L "ghost");
      (HtmlExtractor, L "@ghost"); (BrowserScraper, L "@ghost") ]
  /\ fst out
     = Throw (ErrorObj (L "Failed to scrape channel info: Channel not found: @ghost")).
Proof. cbv zeta. split; vm_compute; reflexivity. Qed.

(* ===================================================================== *)
(** ** The HTTP handler *)
(* ===================================================================== *)

(** C6: a GET request without a [channelName] parameter is answered
    with the body [{ success: false, error: 'Channel name is required' }]
    and leaves the state as it was: the log gains no event, so no
    outbound call is made and no strategy is entered. *)
Theorem missing_channel_name_is_refused_without_calls
        (World : Type) (drv : Driver World) (host : Host)
        (request : Request) (st : St World) :
  searchParams_get request (L "channelName") = None ->
  GET drv host request st
  = (Ok (VObj [ (L "success", VBool false);
                (L "error", VStr (L "Channel name is required")) ]),
     st).
Proof. intros H. unfold GET. rewrite H. reflexivity. Qed.

Lemma missing_channel_name_is_refused_without_calls_witness :
  run (GET (scripted (allStatus 200)) productionHost [(L "channel", L "@somehandle")]) tt
  = (Ok (VObj [ (L "success", VBool false);
                (L "error", VStr (L "Channel name is required")) ]),
     {| world := tt; trace := [] |}).
Proof.
  unfold run.
  apply (@missing_channel_name_is_refused_without_calls
           unit (scripted (allStatus 200)) productionHost
           [(L "channel", L "@somehandle")] {| world := tt; trace := [] |}).
  reflexivity.
Defined.

(* ===================================================================== *)
(** ** The title of the HTML extractor *)
(* ===================================================================== *)

Example title_my_channel :
  extractTitle (L "mychannel")
    (samplePage (L "My Channel - YouTube")
                (L "https://www.youtube.com/channel/UCW5wxEjGHWNyatgZe-PU_tA"))
  = L "My Channel".
Proof. reflexivity. Qed.

Example title_falls_back_to_handle :
  extractTitle (L "mychannel") (L "<html><head></head><body></body></html>")
  = L "mychannel".
Proof. reflexivity. Qed.

(** C4 fails on this page: the document title is
    [Best - YouTube Tips - YouTube], the name [Best - YouTube Tips]
    followed by the site suffix; the extractor removes the first
    [ - YouTube] it finds, inside the name, and leaves the trailing
    one. *)
Theorem title_suffix_removed_at_first_occurrence :
  let html := samplePage (L "Best - YouTube Tips - YouTube")
                (L "https://www.youtube.com/channel/UCW5wxEjGHWNyatgZe-PU_tA") in
  let out := run (extractChannelIdFromHtml (scripted (pageWorld html)) (L "besttips")) tt in
  extractTitle (L "besttips") html = L "Best Tips - YouTube"
  /\ (exists r, fst out = Ok r
                /\ title (data r) = VStr (L "Best Tips - YouTube")
                /\ title (data r) <> VStr (L "Best - YouTube Tips")).
Proof.
  cbv zeta. split; [reflexivity|].
  eexists. split; [vm_compute; reflexivity|].
  split; [reflexivity|discriminate].
Qed.

(* ===================================================================== *)
(** ** The channel ID of a successful resolution *)
(* ===================================================================== *)

Lemma takeN_spec (cls : ascii -> bool) :
  forall n s w r,
    takeN n cls s = Some (w, r) -> List.length w = n /\ forallb cls w = true.
Proof.
  induction n as [|n IH]; intros s w r H; simpl in H.
  - inversion H; subst. now split.
  - destruct s as [|c s]; [discriminate|].
    destruct (cls c) eqn:Ec; [|discriminate].
    destruct (takeN n cls s) as [[w' r']|] eqn:E; [|discriminate].
    inversion H; subst. destruct (IH _ _ _ E) as [Hl Hf].
    simpl. rewrite Ec, Hf, Hl. now split.
Qed.

Lemma search_matchAt (p : list atom) :
  forall s ws, search p s = Some ws -> exists s', matchAt p s' = Some ws.
Proof.
  induction s as [|c s IH]; intros ws H; simpl in H.
  - destruct (matchAt p []) eqn:E; [|discriminate]. inversion H; subst. now exists [].
  - destruct (matchAt p (c :: s)) eqn:E.
    + inversion H; subst. now exists (c :: s).
    + now apply IH.
Qed.

(** What the embedded-token pattern captures has the stable shape. *)
Lemma channelIdRe_captures_channel_id (html m : str) :
  capture1 channelIdRe html = Some m -> isChannelId m = true.
Proof.
  unfold capture1. destruct (search _ html) as [ws|] eqn:E; [|discriminate].
  intros H. inversion H; subst m. clear H.
  destruct (search_matchAt _ _ _ E) as [s' Hm]. clear E.
  unfold channelIdRe in *. cbn [before group1 after app matchAt] in Hm.
  destruct (stripPrefix _ s') as [r1|]; [|discriminate].
  destruct (stripPrefix (L "UC") r1) as [r2|]; [|discriminate].
  destruct (takeN 22 idChar r2) as [[w r3]|] eqn:Ew; [|discriminate].
  destruct (stripPrefix [dq] r3) as [r4|]; [|discriminate].
  cbn [option_map] in Hm. inversion Hm; subst ws. clear Hm.
  destruct (takeN_spec _ _ _ _ _ Ew) as [Hl Hf].
  cbn [before group1 List.length skipn firstn List.concat].
  change (L "UC" ++ w ++ []) with ("U"%char :: "C"%char :: (w ++ [])).
  rewrite app_nil_r. unfold isChannelId. rewrite Hl, Hf. reflexivity.
Qed.

Lemma split_go_not_nil (sep : str) :
  forall s k cur, split_go sep k cur s <> [].
Proof.
  induction s as [|x s IH]; intros k cur; simpl; [discriminate|].
  destruct k; [|apply IH].
  destruct (startsWith sep (x :: s)); [discriminate|apply IH].
Qed.

Lemma lastSegment_is_string (url : str) : exists s, lastSegment url = VStr s.
Proof.
  unfold lastSegment, pop, split.
  destruct (rev (split_go (L "/") 0 [] url)) eqn:E.
  - apply (f_equal (@rev str)) in E. rewrite rev_involutive in E.
    now apply split_go_not_nil in E.
  - eauto.
Qed.

Section Ensures.

Variable World : Type.

Lemma ensures_ret {A} (Q : A -> Prop) (a : A) : Q a -> ensures Q (ret (World := World) a).
Proof. intros H st a' st' E. inversion E; subst. exact H. Qed.

Lemma ensures_throw {A} (Q : A -> Prop) (e : Exn) :
  ensures Q (throw (World := World) e).
Proof. intros st a st' E. discriminate. Qed.

Lemma ensures_bind {A B} (R : A -> Prop) (Q : B -> Prop)
      (m : M World A) (k : A -> M World B) :
  ensures R m -> (forall a, R a -> ensures Q (k a)) -> ensures Q (bind m k).
Proof.
  intros Hm Hk st b st' E. unfold bind in E.
  destruct (m st) as [[a|e] st1] eqn:Em; [|discriminate].
  exact (Hk a (Hm _ _ _ Em) _ _ _ E).
Qed.

Lemma ensures_any {A} (m : M World A) : ensures (fun _ => True) m.
Proof. intros st a st' _. exact I. Qed.

Lemma ensures_tryCatch {A} (Q : A -> Prop) (m : M World A) (h : Exn -> M World A) :
  ensures Q m -> (forall e, ensures Q (h e)) -> ensures Q (tryCatch m h).
Proof.
  intros Hm Hh st a st' E. unfold tryCatch in E.
  destruct (m st) as [[a0|e] st1] eqn:Em.
  - inversion E; subst. exact (Hm _ _ _ Em).
  - exact (Hh e _ _ _ E).
Qed.

Lemma ensures_tryFinally {A} (Q : A -> Prop) (m : M World A) (f : M World unit) :
  ensures Q m -> ensures Q (tryFinally m f).
Proof.
  intros Hm st a st' E. unfold tryFinally in E.
  destruct (m st) as [r st1] eqn:Em.
  destruct (f st1) as [[u|e] st2]; [|discriminate].
  inversion E; subst. exact (Hm _ _ _ Em).
Qed.

Lemma ensures_liftRes {A} (Q : A -> Prop) (r : Res A) :
  (forall a, r = Ok a -> Q a) -> ensures Q (liftRes (World := World) r).
Proof. intros H st a st' E. unfold liftRes in E. inversion E; subst. now apply H. Qed.

End Ensures.

(** Reads a goal [ensures Q m] along the structure of [m], leaving the
    values returned. *)
Ltac ensures_step :=
  first
    [ apply ensures_throw
    | apply ensures_tryFinally
    | apply ensures_tryCatch; [|intro]
    | apply (ensures_bind _ (fun _ => True)); [apply ensures_any|intros ? _]
    | match goal with
      | |- ensures _ (match ?x with _ => _ end) => destruct x
      | |- ensures _ (let _ := _ in _) => cbv zeta
      end ].

Section ChannelIds.

Variable World : Type.
Variable drv : Driver World.
Variable host : Host.

Lemma html_has_string_id (handle : str) :
  ensures hasStringId (extractChannelIdFromHtml drv handle).
Proof.
  unfold extractChannelIdFromHtml.
  repeat ensures_step.
  apply ensures_ret. eexists. reflexivity.
Qed.

Lemma scrape_has_string_id (handle : str) :
  ensures hasStringId (scrapeChannelInfo drv host handle).
Proof.
  unfold scrapeChannelInfo.
  do 9 ensures_step.
  match goal with
  | |- ensures _ (match ?x with Some _ => _ | None => ?c end) =>
      assert (Hc : ensures hasStringId c)
  end.
  { apply (ensures_bind _ (fun early => match early with
                                        | Some r => hasStringId r
                                        | None => True
                                        end)).
    - apply ensures_tryCatch; [|intro error].
      + ensures_step. apply ensures_ret. exact I.
      + do 5 ensures_step.
        apply ensures_ret. eexists. reflexivity.
    - intros [r|] Hr; [apply ensures_ret; exact Hr|].
      do 2 ensures_step. cbv zeta.
      match goal with
      | |- ensures _ (match ?x with _ => _ end) => destruct x
      end; [apply ensures_throw|].
      apply (ensures_bind _ (fun v => exists s, v = VStr s)).
      + ensures_step.
        * ensures_step. apply ensures_ret. eauto.
        * apply ensures_ret. apply lastSegment_is_string.
      + intros v [seg ->]. apply ensures_ret. eexists. reflexivity. }
  repeat (exact Hc || ensures_step).
Qed.

End ChannelIds.

Section Resolution.

Variable World : Type.
Variable drv : Driver World.
Variable host : Host.

Lemma fallbacks_has_string_id (handle : str) :
  ensures hasStringId (fallbacks drv host handle).
Proof.
  apply ensures_tryCatch; [apply html_has_string_id|].
  intros _. apply scrape_has_string_id.
Qed.

Lemma feedAttempt_parsed (r : Res HttpResponse) (d : ChannelData) :
  feedAttempt (xml_parse drv) r = FeedParsed d ->
  exists result, feedData result = Ok d.
Proof.
  unfold feedAttempt. destruct r as [response|e]; [|discriminate].
  destruct (status response =? 404)%Z; [discriminate|].
  destruct (negb (ok response)); [discriminate|].
  destruct (text response) as [body|e]; [|discriminate].
  destruct (xml_parse drv body) as [result|e]; [|discriminate].
  destruct (feedData result) as [d'|e] eqn:E; [|discriminate].
  intros H. inversion H; subst. now exists result.
Qed.

(** Every result of a resolution has a string as channel ID. *)
Lemma fetchChannelFeed_has_string_id (channelName : str) :
  ensures hasStringId (fetchChannelFeed drv host channelName).
Proof.
  intros st r st' E. rewrite fetchChannelFeed_cases in E.
  destruct (http_fetch drv (feedUrl channelName) (world st)) as [resp w1].
  cbv zeta in E.
  destruct (feedAttempt (xml_parse drv) resp) as [|e|d] eqn:Ea.
  - revert E. apply ensures_tryCatch; [|intros _]; apply fallbacks_has_string_id.
  - revert E. apply fallbacks_has_string_id.
  - inversion E; subst r. clear E.
    destruct (feedAttempt_parsed _ _ Ea) as [result Hd].
    destruct (feedData_inv _ _ Hd) as (entries' & a & u & t & n & _ & _ & _ & _ & _ & ->).
    unfold hasStringId. cbn [data channelId]. apply lastSegment_is_string.
Qed.

(** The HTML extractor on a page whose [og:url], if any, has no
    [/channel/]: the channel ID is the embedded token and has the
    stable shape. *)
Lemma html_token_channel_id (handle : str) (st st' : St World) (r : StrategyResult)
      (resp : HttpResponse) (w1 : World) (html : str) :
  http_fetch drv (L "https://www.youtube.com/@" ++ handle) (world st) = (Ok resp, w1) ->
  text resp = Ok html ->
  (forall u, capture1 ogUrlRe html = Some u -> includes u (L "/channel/") = false) ->
  extractChannelIdFromHtml drv handle st = (Ok r, st') ->
  exists s, channelId (data r) = VStr s /\ isChannelId s = true.
Proof.
  intros Hf Ht Hog E.
  unfold extractChannelIdFromHtml, bind, emit, tryCatch, fetch, call, liftRes, ret, throw in E.
  cbn [world trace] in E. rewrite Hf in E.
  destruct (status resp =? 404)%Z; [discriminate|].
  destruct (negb (ok resp)); [discriminate|].
  rewrite Ht in E.
  destruct (extractChannelId (capture1 ogUrlRe html) html) as [cid|e] eqn:Eid;
    [|discriminate].
  inversion E; subst r. clear E. cbn [data channelId].
  exists cid. split; [reflexivity|].
  unfold extractChannelId in Eid.
  assert (Htok : match capture1 channelIdRe html with
                 | Some m => Ok m
                 | None => Throw (ErrorObj (L "Channel ID not found in page HTML"))
                 end = Ok cid).
  { destruct (capture1 ogUrlRe html) as [u|]; [|exact Eid].
    rewrite (Hog u eq_refl) in Eid. exact Eid. }
  destruct (capture1 channelIdRe html) as [m|] eqn:Em; [|discriminate].
  inversion Htok; subst m. now apply (channelIdRe_captures_channel_id html).
Qed.

End Resolution.

(** C8, amended: for every resolution call that returns success, from
    whichever strategy, the [channelId] of the result is a string, so
    neither [null] nor [undefined]; it is certain to match the stable
    channel-ID pattern ([UC] and 22 code units of [[a-zA-Z0-9_-]]) when
    the HTML extractor took it from the embedded [channelId] token,
    that is on a page whose [og:url], if any, has no [/channel/]. *)
Theorem resolved_channel_id_is_a_string
        (World : Type) (drv : Driver World) (host : Host) :
  (forall channelName st r st',
      fetchChannelFeed drv host channelName st = (Ok r, st') ->
      exists s, channelId (data r) = VStr s)
  /\ (forall handle st r st' resp w1 html,
         http_fetch drv (L "https://www.youtube.com/@" ++ handle) (world st)
           = (Ok resp, w1) ->
         text resp = Ok html ->
         (forall u, capture1 ogUrlRe html = Some u -> includes u (L "/channel/") = false) ->
         extractChannelIdFromHtml drv handle st = (Ok r, st') ->
         exists s, channelId (data r) = VStr s /\ isChannelId s = true).
Proof.
  split.
  - intros channelName st r st' E.
    exact (fetchChannelFeed_has_string_id World drv host channelName st r st' E).
  - intros handle st r st' resp w1 html.
    apply html_token_channel_id.
Qed.

Lemma resolved_channel_id_is_a_string_witness :
  exists r st',
    run (fetchChannelFeed (scripted (pageWorld tokenPage)) productionHost
                          (L "@somehandle")) tt = (Ok r, st')
    /\ entries (trace st') = [(FeedFetcher, L "@somehandle"); (HtmlExtractor, L "somehandle")]
    /\ (exists s, channelId (data r) = VStr s)
    /\ channelId (data r) = VStr (L "UCW5wxEjGHWNyatgZe-PU_tA")
    /\ isChannelId (L "UCW5wxEjGHWNyatgZe-PU_tA") = true.
Proof.
  eexists. eexists. split; [vm_compute; reflexivity|].
  split; [reflexivity|]. split.
  - eapply (proj1 (@resolved_channel_id_is_a_string
                     unit (scripted (pageWorld tokenPage)) productionHost)
                  (L "@somehandle") {| world := tt; trace := [] |}).
    vm_compute. reflexivity.
  - split; reflexivity.
Defined.

(** C8 as stated fails: the feed and the channel page answer 500, the
    browser renders the page, whose canonical URL is the handle URL
    without [/channel/]; the scraper succeeds with the last piece of
    that URL as channel ID.  The feed fetcher likewise returns the last
    piece of whatever author URI the feed holds. *)
Lemma resolved_channel_id_need_not_match_pattern :
  (exists r st',
      run (fetchChannelFeed (scripted renderedWorld) productionHost (L "somehandle")) tt
      = (Ok r, st')
      /\ success r = true
      /\ channelId (data r) = VStr (L "@somehandle")
      /\ isChannelId (L "@somehandle") = false)
  /\ (exists r st',
      run (fetchChannelFeed
             (scripted (feedWorld (sampleFeed (L "Some Author")
                                              (L "https://www.youtube.com/user/somehandle")
                                              (L "Some Title") [entryA; entryB])))
             productionHost (L "somehandle")) tt
      = (Ok r, st')
      /\ success r = true
      /\ channelId (data r) = VStr (L "somehandle")
      /\ isChannelId (L "somehandle") = false).
Proof.
  split; (eexists; eexists; split; [vm_compute; reflexivity|]); repeat split.
Qed.

(* ===================================================================== *)
(** ** Further facts: where the slips do not show *)
(* ===================================================================== *)

Section SuffixStripping.

Variable pat : str.

(** No proper suffix of [pat] is a prefix of it. *)
Hypothesis no_border :
  forall k, 0 < k < List.length pat -> skipn k pat <> firstn (List.length pat - k) pat.

Lemma startsWith_prefix_of_long (a b : str) :
  startsWith pat (a ++ b) = true ->
  List.length pat <= List.length a ->
  startsWith pat a = true.
Proof.
  intros H Hlen. destruct (startsWith_true _ _ H) as [r Hr].
  assert (Ha : a = pat ++ skipn (List.length pat) a).
  { rewrite <- (firstn_skipn (List.length pat) a) at 1. f_equal.
    apply (f_equal (firstn (List.length pat))) in Hr.
    rewrite firstn_app in Hr.
    replace (List.length pat - List.length a) with 0 in Hr by lia.
    rewrite firstn_O, app_nil_r in Hr. rewrite Hr.
    rewrite firstn_app, Nat.sub_diag, firstn_O, app_nil_r.
    apply firstn_all. }
  rewrite Ha. apply startsWith_app.
Qed.

Lemma occurrence_before_suffix_is_in_name (a : str) :
  a <> [] -> startsWith pat (a ++ pat) = true -> startsWith pat a = true.
Proof.
  intros Hne H.
  destruct (Nat.le_gt_cases (List.length pat) (List.length a)) as [Hle|Hlt].
  - now apply (startsWith_prefix_of_long a pat).
  - exfalso. destruct (startsWith_true _ _ H) as [r Hr].
    assert (Hk : 0 < List.length a < List.length pat).
    { split; [destruct a; [contradiction|simpl; lia]|assumption]. }
    apply (no_border (List.length a) Hk).
    apply (f_equal (skipn (List.length a))) in Hr.
    rewrite skipn_app, skipn_all, Nat.sub_diag in Hr. simpl in Hr.
    rewrite skipn_app in Hr.
    replace (List.length a - List.length pat) with 0 in Hr by lia.
    simpl in Hr.
    pose proof (length_skipn (List.length a) pat) as Hlen.
    remember (skipn (List.length a) pat) as X eqn:EX.
    transitivity (firstn (List.length pat - List.length a) (X ++ r));
      [|now rewrite <- Hr].
    rewrite firstn_app.
    replace (List.length pat - List.length a - List.length X) with 0 by lia.
    rewrite firstn_O, app_nil_r.
    symmetry. apply firstn_all2. lia.
Qed.

(** [replace] strips the suffix [pat] from [name ++ pat] when [pat]
    does not occur in [name]. *)
Lemma replace_strips_suffix :
  forall name, indexOf pat name = None -> replace pat [] (name ++ pat) = name.
Proof.
  induction name as [|c name IH]; intros H.
  - simpl app. destruct pat as [|p0 pat'] eqn:Ep.
    + reflexivity.
    + unfold replace. rewrite <- (app_nil_r (p0 :: pat')) at 2.
      now rewrite stripPrefix_app.
  - simpl in H.
    destruct (startsWith pat (c :: name)) eqn:E; [discriminate|].
    destruct (indexOf pat name) eqn:En; [discriminate|].
    cbn [app]. unfold replace; fold replace.
    destruct (stripPrefix pat (c :: name ++ pat)) as [rest|] eqn:Es.
    + assert (Hs : startsWith pat ((c :: name) ++ pat) = true).
      { unfold startsWith. cbn [app]. now rewrite Es. }
      apply occurrence_before_suffix_is_in_name in Hs; [|discriminate].
      rewrite Hs in E. discriminate.
    + f_equal. now apply IH.
Qed.

End SuffixStripping.

(** The title of a match [name - YouTube] is [name] when the name does
    not itself contain [ - YouTube]. *)
Lemma title_suffix_stripped_when_absent_from_name (name : str) :
  includes name (L " - YouTube") = false ->
  replace (L " - YouTube") [] (name ++ L " - YouTube") = name.
Proof.
  intros H. apply replace_strips_suffix.
  - intros k Hk. change (List.length (L " - YouTube")) with 10 in *.
    do 10 (destruct k as [|k]; [try lia; vm_compute; discriminate|]). lia.
  - unfold includes in H. destruct (indexOf (L " - YouTube") name); [discriminate|reflexivity].
Qed.

(** Every strategy log of a resolution call has one of seven shapes;
    only the last two enter a strategy twice. *)
Lemma fetchChannelFeed_log_shapes
      (World : Type) (drv : Driver World) (host : Host)
      (channelName : str) (st : St World) :
  let s := replace (L "@") [] channelName in
  exists rest,
    entries (trace (snd (fetchChannelFeed drv host channelName st)))
    = entries (trace st) ++ (FeedFetcher, channelName) :: rest
    /\ In rest
         [ [];
           [(HtmlExtractor, channelName)];
           [(HtmlExtractor, channelName); (BrowserScraper, channelName)];
           [(HtmlExtractor, s)];
           [(HtmlExtractor, s); (BrowserScraper, s)];
           [(HtmlExtractor, s); (BrowserScraper, s); (HtmlExtractor, channelName)];
           [(HtmlExtractor, s); (BrowserScraper, s); (HtmlExtractor, channelName);
            (BrowserScraper, channelName)] ].
Proof.
  cbv zeta.
  destruct (feedAttempt (xml_parse drv)
              (fst (http_fetch drv (feedUrl channelName) (world st)))) as [|e|d] eqn:Ea.
  - destruct (not_found_entries World drv host channelName st Ea) as (rest & Hr & Hin).
    eexists; split; [exact Hr|]. simpl in Hin. simpl.
    destruct Hin as [<-|[<-|[<-|[<-|[]]]]]; auto 10.
  - destruct (failed_feed_entries World drv host channelName st e Ea) as (rest & Hr & Hin).
    eexists; split; [exact Hr|]. simpl in Hin. simpl.
    destruct Hin as [<-|[<-|[]]]; auto.
  - exists []. split; [|now left].
    rewrite fetchChannelFeed_cases.
    destruct (http_fetch drv (feedUrl channelName) (world st)) as [r w1].
    cbn [fst] in Ea. cbv zeta. rewrite Ea. cbn [snd trace].
    rewrite entries_app. reflexivity.
Qed.


(* ===================================================================== *)
(** ** Runs of the strategies on the sample documents *)
(* ===================================================================== *)

Example feed_without_statistics_counts_zero :
  exists d,
    feedData (sampleFeed (L "Some Author") channelUri (L "Some Title")
                [entryA; entryWithoutStatistics (L "vidBBBBBBBB")
                                                (L "2024-05-01T10:00:00+00:00")])
    = Ok d
    /\ viewCount d = VNum (Int 0)
    /\ thumbnail d = VNull
    /\ lastVideoId d = VStr (L "vidBBBBBBBB").
Proof. eexists. split; [reflexivity|]. repeat split. Qed.

Example feed_with_two_entries :
  fst (run (fetchChannelFeed
              (scripted (feedWorld (sampleFeed (L "Some Author") channelUri
                                               (L "Some Title") [entryA; entryB])))
              productionHost (L "@somehandle")) tt)
  = Ok {| success := true;
          data := {| author := VStr (L "Some Author");
                     uri := VStr channelUri;
                     title := VStr (L "Some Title");
                     thumbnail := VStr (L "https://i.ytimg.com/vi/vidBBBBBBBB/hqdefault.jpg");
                     viewCount := VNum (Int 12345);
                     lastVideoId := VStr (L "vidBBBBBBBB");
                     lastVideoDate := VStr (L "2024-05-01T10:00:00+00:00");
                     channelId := VStr (L "UCW5wxEjGHWNyatgZe-PU_tA") |} |}.
Proof. vm_compute. reflexivity. Qed.

Example html_extractor_on_token_page :
  fst (run (extractChannelIdFromHtml (scripted (pageWorld thumbnailPage))
                                     (L "somehandle")) tt)
  = Ok {| success := true;
          data := {| author := VStr (L "Some Channel");
                     uri := VStr (L "https://www.youtube.com/channel/UCW5wxEjGHWNyatgZe-PU_tA");
                     title := VStr (L "Some Channel");
                     thumbnail := VStr (L "https://yt3.ggpht.com/abc=s88");
                     viewCount := VNull;
                     lastVideoId := VNull;
                     lastVideoDate := VNull;
                     channelId := VStr (L "UCW5wxEjGHWNyatgZe-PU_tA") |} |}.
Proof. vm_compute. reflexivity. Qed.

Example html_extractor_without_channel_id :
  fst (run (extractChannelIdFromHtml
              (scripted (pageWorld (L "<html><head><title>Oops</title></head></html>")))
              (L "somehandle")) tt)
  = Throw (ErrorObj (L "Channel ID not found in page HTML")).
Proof. vm_compute. reflexivity. Qed.

Example get_with_handle_returns_data :
  fst (run (GET (scripted (pageWorld tokenPage)) productionHost
                [(L "channelName", L "@somehandle")]) tt)
  = Ok (VObj [ (L "author", VStr (L "Some Channel"));
               (L "uri", VStr (L "https://www.youtube.com/channel/UCW5wxEjGHWNyatgZe-PU_tA"));
               (L "title", VStr (L "Some Channel"));
               (L "thumbnail", VNull);
               (L "viewCount", VNull);
               (L "lastVideoId", VNull);
               (L "lastVideoDate", VNull);
               (L "channelId", VStr (L "UCW5wxEjGHWNyatgZe-PU_tA")) ]).
Proof. vm_compute. reflexivity. Qed.

Example get_on_total_failure :
  fst (run (GET (scripted (allStatus 404)) productionHost
                [(L "channelName", L "@ghost")]) tt)
  = Ok (VObj [ (L "success", VBool false);
               (L "error",
                VStr (L "Failed to scrape channel info: Channel not found: @ghost")) ]).
Proof. vm_compute. reflexivity. Qed.

(* ===================================================================== *)
(** ** Further facts about the matcher *)
(* ===================================================================== *)

Lemma matchAt_Plus (cls : ascii -> bool) (p : list atom) (s : str) :
  matchAt (Plus cls :: p) s = plusLoop cls (matchAt p) [] s.
Proof. reflexivity. Qed.

(** A greedy run followed by a text that cannot extend it: the run takes
    all of [t] when the rest of the pattern matches behind it. *)
Lemma matchAt_plus_all (cls : ascii -> bool) (p : list atom) (rest : str)
      (ws : list str) :
  (rest = [] \/ exists x r, rest = x :: r /\ cls x = false) ->
  matchAt p rest = Some ws ->
  forall t, t <> [] -> forallb cls t = true ->
            matchAt (Plus cls :: p) (t ++ rest) = Some (t :: ws).
Proof.
  intros Hrest Hp t Hne Ht. rewrite matchAt_Plus.
  assert (Hstop : forall w, plusLoop cls (matchAt p) w rest = None).
  { intros w. destruct Hrest as [->|(x & r & -> & Hx)]; [reflexivity|].
    simpl. now rewrite Hx. }
  assert (Hgen : forall t w, t <> [] -> forallb cls t = true ->
                   plusLoop cls (matchAt p) w (t ++ rest) = Some ((w ++ t) :: ws)).
  { clear t Hne Ht. induction t as [|c t IH]; [contradiction|]. intros w _ Ht.
    simpl in Ht. apply andb_true_iff in Ht as [Hc Ht].
    cbn [app plusLoop]. rewrite Hc.
    destruct t as [|c' t].
    - cbn [app]. rewrite Hstop, Hp. reflexivity.
    - rewrite (IH (w ++ [c]) ltac:(discriminate) Ht).
      now rewrite <- app_assoc. }
  exact (Hgen t [] Hne Ht).
Qed.

Lemma startsWith_false_stripPrefix (p s : str) :
  startsWith p s = false -> stripPrefix p s = None.
Proof. unfold startsWith. now destruct (stripPrefix p s). Qed.

(** [search] skips the positions before the leftmost occurrence of the
    literal text a pattern starts with. *)
Lemma search_skips_to_first (l : str) (p : list atom) :
  forall s n,
    indexOf l s = Some n ->
    search (Lit l :: p) s = search (Lit l :: p) (skipn n s).
Proof.
  induction s as [|c s IH]; intros n H.
  - now destruct n.
  - simpl in H. destruct (startsWith l (c :: s)) eqn:E.
    + inversion H; subst. reflexivity.
    + destruct (indexOf l s) as [m|] eqn:Em; [|discriminate].
      simpl in H. inversion H; subst n.
      cbn [search matchAt skipn].
      rewrite (startsWith_false_stripPrefix _ _ E).
      now apply IH.
Qed.

Lemma search_none_without_literal (l : str) (p : list atom) :
  forall s, indexOf l s = None -> search (Lit l :: p) s = None.
Proof.
  induction s as [|c s IH]; intros H; simpl in H.
  - destruct (startsWith l []) eqn:E; [discriminate|].
    cbn [search matchAt]. now rewrite (startsWith_false_stripPrefix _ _ E).
  - destruct (startsWith l (c :: s)) eqn:E; [discriminate|].
    destruct (indexOf l s) eqn:Em; [discriminate|].
    cbn [search matchAt]. rewrite (startsWith_false_stripPrefix _ _ E).
    now apply IH.
Qed.

(** A pattern [text ([class]+) text'] on a document whose leftmost
    [text] is followed by a run [v] of the class and then by [text']:
    the capture is [v]. *)
Lemma capture1_delimited (l l' : str) (cls : ascii -> bool)
      (pre v post : str) (x : ascii) (r : str) :
  l' = x :: r -> cls x = false ->
  indexOf l (pre ++ l ++ v ++ l' ++ post) = Some (List.length pre) ->
  v <> [] -> forallb cls v = true ->
  capture1 {| before := [Lit l]; group1 := [Plus cls]; after := [Lit l'] |}
           (pre ++ l ++ v ++ l' ++ post)
  = Some v.
Proof.
  intros Hl' Hx Hidx Hne Hv. unfold capture1. cbn [before group1 after app].
  rewrite (search_skips_to_first _ _ _ _ Hidx).
  rewrite skipn_app, skipn_all, Nat.sub_diag. cbn [skipn app].
  assert (Hm : matchAt [Lit l; Plus cls; Lit l'] (l ++ v ++ l' ++ post)
               = Some [l; v; l']).
  { cbn [matchAt]. rewrite stripPrefix_app.
    change (option_map (cons l) ?a = Some [l; v; l'])
      with (option_map (cons l) a = option_map (cons l) (Some [v; l'])).
    f_equal.
    apply (matchAt_plus_all cls [Lit l'] (l' ++ post) [l']).
    - right. exists x, (r ++ post). subst l'. now split.
    - cbn [matchAt]. now rewrite stripPrefix_app.
    - assumption.
    - assumption. }
  assert (Hs : search [Lit l; Plus cls; Lit l'] (l ++ v ++ l' ++ post)
               = Some [l; v; l']).
  { destruct (l ++ v ++ l' ++ post) eqn:E; cbn [search]; now rewrite Hm. }
  rewrite Hs. cbn [List.length skipn firstn List.concat]. now rewrite app_nil_r.
Qed.

(* ===================================================================== *)
(** ** The HTML extractor, case by case *)
(* ===================================================================== *)

Section HtmlExtractor.

Variable World : Type.
Variable drv : Driver World.

(** The extractor once the page is fetched and read. *)
Lemma html_run_ok (handle : str) (st : St World) (resp : HttpResponse)
      (w1 : World) (html : str) :
  http_fetch drv (pageUrl handle) (world st) = (Ok resp, w1) ->
  ok resp = true ->
  text resp = Ok html ->
  extractChannelIdFromHtml drv handle st
  = (match extractChannelId (capture1 ogUrlRe html) html with
     | Ok cid =>
         Ok {| success := true;
               data := {| author := VStr (extractTitle handle html);
                          uri := VStr (orElse (capture1 ogUrlRe html)
                                         (L "https://www.youtube.com/channel/" ++ cid));
                          title := VStr (extractTitle handle html);
                          thumbnail := extractThumbnail html;
                          viewCount := VNull;
                          lastVideoId := VNull;
                          lastVideoDate := VNull;
                          channelId := VStr cid |} |}
     | Throw e => Throw e
     end,
     {| world := w1;
        trace := trace st ++ [EvEnter HtmlExtractor handle; EvFetch (pageUrl handle)] |}).
Proof.
  intros Hf Hok Ht.
  unfold extractChannelIdFromHtml, bind, emit, tryCatch, fetch, call, liftRes, ret, throw.
  cbn [world trace]. unfold pageUrl in Hf. rewrite Hf.
  assert (H404 : (status resp =? 404)%Z = false).
  { unfold ok in Hok. apply andb_true_iff in Hok as [_ Hle].
    apply Z.leb_le in Hle. apply Z.eqb_neq. lia. }
  rewrite H404, Hok. cbn [negb]. rewrite Ht.
  rewrite <- app_assoc. cbn [app].
  destruct (extractChannelId (capture1 ogUrlRe html) html); reflexivity.
Qed.

(** The extractor when the page is not served with a success status. *)
Lemma html_run_failed (handle : str) (st : St World) :
  extractChannelIdFromHtml drv handle st
  = let '(r, w1) := http_fetch drv (pageUrl handle) (world st) in
    let st1 := {| world := w1;
                  trace := trace st ++ [EvEnter HtmlExtractor handle;
                                        EvFetch (pageUrl handle)] |} in
    match r with
    | Throw e => (Throw e, st1)
    | Ok resp =>
        if (status resp =? 404)%Z
        then (Throw (ErrorObj (L "Channel not found: " ++ handle)), st1)
        else if negb (ok resp)
        then (Throw (ErrorObj (L "Failed to fetch channel page: "
                                 ++ showZ (status resp))), st1)
        else extractChannelIdFromHtml drv handle st
    end.
Proof.
  destruct (http_fetch drv (pageUrl handle) (world st)) as [[resp|e] w1] eqn:Hf.
  - cbv zeta. destruct (status resp =? 404)%Z eqn:H4;
      [|destruct (negb (ok resp)) eqn:Hn; [|reflexivity]];
      unfold extractChannelIdFromHtml, bind, emit, tryCatch, fetch, call, throw;
      cbn [world trace]; unfold pageUrl in Hf; rewrite Hf;
      rewrite ?H4, ?Hn; rewrite <- app_assoc; reflexivity.
  - unfold extractChannelIdFromHtml, bind, emit, tryCatch, fetch, call, throw.
    cbn [world trace]. unfold pageUrl in Hf. rewrite Hf.
    rewrite <- app_assoc. reflexivity.
Qed.

(** The log and the world after one run of the extractor. *)
Lemma html_log (handle : str) (st : St World) :
  trace (snd (extractChannelIdFromHtml drv handle st))
  = trace st ++ [EvEnter HtmlExtractor handle; EvFetch (pageUrl handle)]
  /\ world (snd (extractChannelIdFromHtml drv handle st))
     = snd (http_fetch drv (pageUrl handle) (world st)).
Proof.
  rewrite html_run_failed.
  destruct (http_fetch drv (pageUrl handle) (world st)) as [[resp|e] w1] eqn:Hf;
    cbv zeta; [|now split].
  destruct (status resp =? 404)%Z; [now split|].
  destruct (negb (ok resp)) eqn:Hn; [now split|].
  apply negb_false_iff in Hn.
  destruct (text resp) as [html|e] eqn:Ht.
  - rewrite (html_run_ok handle st resp w1 html Hf Hn Ht).
    destruct (extractChannelId _ html); now split.
  - unfold extractChannelIdFromHtml, bind, emit, tryCatch, fetch, call, liftRes, throw.
    cbn [world trace]. unfold pageUrl in Hf. rewrite Hf.
    destruct (status resp =? 404)%Z; [now rewrite <- app_assoc|].
    rewrite Hn. cbn [negb]. rewrite Ht. cbn [snd trace world].
    now rewrite <- app_assoc.
Qed.

(** X1: whatever the outcome, one run of the HTML extractor performs
    exactly one outbound call, the request of the channel page of its
    handle; the world is what that request left. *)
Theorem html_extractor_single_request (handle : str) (st : St World) :
  trace (snd (extractChannelIdFromHtml drv handle st))
  = trace st ++ [EvEnter HtmlExtractor handle; EvFetch (pageUrl handle)]
  /\ world (snd (extractChannelIdFromHtml drv handle st))
     = snd (http_fetch drv (pageUrl handle) (world st)).
Proof. exact (html_log handle st). Qed.

(** X2: how the HTML extractor fails: a rejected request is rethrown
    as it is; a 404 gives [Channel not found: <handle>]; any other
    non-success status gives [Failed to fetch channel page: <status>];
    an unreadable body is rethrown; a page with neither an [og:url]
    meta tag nor a [channelId] token gives
    [Channel ID not found in page HTML]. *)
Theorem html_extractor_failure_modes (handle : str) (st : St World) :
  match http_fetch drv (pageUrl handle) (world st) with
  | (Throw e, _) => fst (extractChannelIdFromHtml drv handle st) = Throw e
  | (Ok resp, _) =>
      (status resp = 404%Z ->
       fst (extractChannelIdFromHtml drv handle st)
       = Throw (ErrorObj (L "Channel not found: " ++ handle)))
      /\ (status resp <> 404%Z -> ok resp = false ->
          fst (extractChannelIdFromHtml drv handle st)
          = Throw (ErrorObj (L "Failed to fetch channel page: " ++ showZ (status resp))))
      /\ (ok resp = true -> forall e, text resp = Throw e ->
          fst (extractChannelIdFromHtml drv handle st) = Throw e)
      /\ (ok resp = true -> forall html, text resp = Ok html ->
          indexOf ogUrlOpen html = None -> indexOf channelIdOpen html = None ->
          fst (extractChannelIdFromHtml drv handle st)
          = Throw (ErrorObj (L "Channel ID not found in page HTML")))
  end.
Proof.
  destruct (http_fetch drv (pageUrl handle) (world st)) as [[resp|e] w1] eqn:Hf.
  - repeat split.
    + intros H4. rewrite html_run_failed, Hf. cbv zeta.
      rewrite H4. reflexivity.
    + intros H4 Hok. rewrite html_run_failed, Hf. cbv zeta.
      apply Z.eqb_neq in H4. rewrite H4, Hok. reflexivity.
    + intros Hok e Ht.
      unfold extractChannelIdFromHtml, bind, emit, tryCatch, fetch, call, liftRes, throw.
      cbn [world trace]. unfold pageUrl in Hf. rewrite Hf.
      assert (H404 : (status resp =? 404)%Z = false).
      { unfold ok in Hok. apply andb_true_iff in Hok as [_ Hle].
        apply Z.leb_le in Hle. apply Z.eqb_neq. lia. }
      rewrite H404, Hok. cbn [negb]. rewrite Ht. reflexivity.
    + intros Hok html Ht Hog Hid.
      rewrite (html_run_ok handle st resp w1 html Hf Hok Ht).
      unfold extractChannelId, capture1.
      change (before ogUrlRe ++ group1 ogUrlRe ++ after ogUrlRe)
        with (Lit ogUrlOpen :: [Plus notQuote; Lit [dq]]).
      change (before channelIdRe ++ group1 channelIdRe ++ after channelIdRe)
        with (Lit channelIdOpen :: [Lit (L "UC"); Rep 22 idChar; Lit [dq]]).
      rewrite (search_none_without_literal _ _ _ Hog).
      rewrite (search_none_without_literal _ _ _ Hid). reflexivity.
  - rewrite html_run_failed, Hf. reflexivity.
Qed.

End HtmlExtractor.

Lemma includes_of_indexOf (s p : str) (n : nat) :
  indexOf p s = Some n -> includes s p = true.
Proof. intros H. unfold includes. now rewrite H. Qed.

(** What the [og:url] pattern captures on a document whose leftmost
    [og:url] meta tag holds the quote-free value [u]. *)
Lemma ogUrl_capture (pre u post : str) :
  indexOf ogUrlOpen (pre ++ ogUrlOpen ++ u ++ [dq] ++ post) = Some (List.length pre) ->
  u <> [] -> forallb notQuote u = true ->
  capture1 ogUrlRe (pre ++ ogUrlOpen ++ u ++ [dq] ++ post) = Some u.
Proof.
  intros Hidx Hne Hu.
  apply (capture1_delimited ogUrlOpen [dq] notQuote pre u post dq []);
    try assumption; reflexivity.
Qed.

Section HtmlCanonical.

Variable World : Type.
Variable drv : Driver World.

(** The run of the extractor on a page whose leftmost [og:url] meta tag
    holds a URL with a [/channel/] piece. *)
Lemma html_canonical_run (handle : str) (st : St World) (resp : HttpResponse)
      (w1 : World) (pre base id tail post : str) :
  let u := base ++ L "/channel/" ++ id ++ tail in
  let html := pre ++ ogUrlOpen ++ u ++ [dq] ++ post in
  http_fetch drv (pageUrl handle) (world st) = (Ok resp, w1) ->
  ok resp = true ->
  text resp = Ok html ->
  indexOf ogUrlOpen html = Some (List.length pre) ->
  forallb notQuote u = true ->
  indexOf (L "/channel/") u = Some (List.length base) ->
  forallb (isNot "/"%char) id = true ->
  (tail = [] \/ exists r, tail = "/"%char :: r) ->
  extractChannelIdFromHtml drv handle st
  = (Ok {| success := true;
           data := {| author := VStr (extractTitle handle html);
                      uri := VStr u;
                      title := VStr (extractTitle handle html);
                      thumbnail := extractThumbnail html;
                      viewCount := VNull;
                      lastVideoId := VNull;
                      lastVideoDate := VNull;
                      channelId := VStr id |} |},
     {| world := w1;
        trace := trace st ++ [EvEnter HtmlExtractor handle; EvFetch (pageUrl handle)] |}).
Proof.
  intros u html Hf Hok Ht Hidx Hq Hch Hid Htail.
  rewrite (html_run_ok World drv handle st resp w1 html Hf Hok Ht).
  assert (Hne : u <> []).
  { subst u. destruct base; discriminate. }
  assert (Hcap : capture1 ogUrlRe html = Some u) by now apply ogUrl_capture.
  rewrite Hcap. unfold extractChannelId.
  rewrite (includes_of_indexOf _ _ _ Hch).
  rewrite (channelIdAfterMarker_spec _ _ Hch).
  assert (Hseg : takeWhile (isNot "/"%char) (skipn (List.length base + 9) u) = id).
  { subst u. rewrite skipn_app, skipn_all2 by lia.
    replace (List.length base + 9 - List.length base) with 9 by lia.
    cbn [app]. change (skipn 9 (L "/channel/" ++ id ++ tail)) with (id ++ tail).
    apply takeWhile_all; [assumption|].
    destruct Htail as [->|[r ->]]; [now left|right]. now exists "/"%char, r. }
  rewrite Hseg. unfold orElse. destruct u; [contradiction|reflexivity].
Qed.

(** X3: on a page whose leftmost [og:url] meta tag holds a URL
    [base/channel/id] or [base/channel/id/...], the HTML extractor
    succeeds with [id] as channel ID and that URL, unchanged, as
    [uri]. *)
Theorem html_extractor_resolves_canonical_url
        (handle : str) (st : St World) (resp : HttpResponse)
        (w1 : World) (pre base id tail post : str) :
  let u := base ++ L "/channel/" ++ id ++ tail in
  let html := pre ++ ogUrlOpen ++ u ++ [dq] ++ post in
  http_fetch drv (pageUrl handle) (world st) = (Ok resp, w1) ->
  ok resp = true ->
  text resp = Ok html ->
  indexOf ogUrlOpen html = Some (List.length pre) ->
  forallb notQuote u = true ->
  indexOf (L "/channel/") u = Some (List.length base) ->
  forallb (isNot "/"%char) id = true ->
  (tail = [] \/ exists r, tail = "/"%char :: r) ->
  exists r,
    fst (extractChannelIdFromHtml drv handle st) = Ok r
    /\ channelId (data r) = VStr id
    /\ uri (data r) = VStr u.
Proof.
  intros u html Hf Hok Ht Hidx Hq Hch Hid Htail.
  rewrite (html_canonical_run handle st resp w1 pre base id tail post
             Hf Hok Ht Hidx Hq Hch Hid Htail).
  eexists. split; [reflexivity|]. split; reflexivity.
Qed.

End HtmlCanonical.

Lemma html_extractor_resolves_canonical_url_witness :
  exists r,
    fst (extractChannelIdFromHtml
           (scripted (pageWorld
              (samplePage (L "My Channel - YouTube")
                          (L "https://www.youtube.com/channel/UCW5wxEjGHWNyatgZe-PU_tA"))))
           (L "mychannel") {| world := tt; trace := [] |}) = Ok r
    /\ channelId (data r) = VStr (L "UCW5wxEjGHWNyatgZe-PU_tA")
    /\ uri (data r)
       = VStr (L "https://www.youtube.com" ++ L "/channel/"
                 ++ L "UCW5wxEjGHWNyatgZe-PU_tA" ++ []).
Proof.
  apply (@html_extractor_resolves_canonical_url
           unit
           (scripted (pageWorld
              (samplePage (L "My Channel - YouTube")
                          (L "https://www.youtube.com/channel/UCW5wxEjGHWNyatgZe-PU_tA"))))
           (L "mychannel") {| world := tt; trace := [] |}
           {| status := 200;
              text := Ok (samplePage (L "My Channel - YouTube")
                            (L "https://www.youtube.com/channel/UCW5wxEjGHWNyatgZe-PU_tA")) |}
           tt
           (L "<html><head><title>My Channel - YouTube</title>")
           (L "https://www.youtube.com") (L "UCW5wxEjGHWNyatgZe-PU_tA") []
           (L "></head><body></body></html>")).
  - reflexivity.
  - reflexivity.
  - reflexivity.
  - reflexivity.
  - reflexivity.
  - reflexivity.
  - reflexivity.
  - left. reflexivity.
Defined.

Lemma capture1_none_without_literal (l : str) (g a : list atom) (html : str) :
  indexOf l html = None ->
  capture1 {| before := [Lit l]; group1 := g; after := a |} html = None.
Proof.
  intros H. unfold capture1. cbn [before group1 after app].
  now rewrite (search_none_without_literal _ _ _ H).
Qed.

(** X4: the title of a page whose leftmost [<title>] element holds
    [name - YouTube], and which has neither a [name='title'] nor an
    [og:title] meta tag, is [name], provided the name itself contains
    neither [<] nor [ - YouTube]. *)
Theorem title_suffix_stripped_from_document_title (handle pre name post : str) :
  let html := pre ++ L "<title>" ++ (name ++ L " - YouTube") ++ L "</title>" ++ post in
  indexOf metaTitleOpen html = None ->
  indexOf ogTitleOpen html = None ->
  indexOf (L "<title>") html = Some (List.length pre) ->
  forallb notLt name = true ->
  includes name (L " - YouTube") = false ->
  extractTitle handle html = name.
Proof.
  intros html Hm Ho Ht Hlt Hname. subst html.
  unfold extractTitle, titlePatterns. cbn [firstMatch].
  change (metaContentRe (L "name") (L "title") notQuote)
    with {| before := [Lit metaTitleOpen]; group1 := [Plus notQuote]; after := [Lit [dq]] |}.
  rewrite (capture1_none_without_literal _ _ _ _ Hm).
  change (metaContentRe (L "property") (L "og:title") notQuote)
    with {| before := [Lit ogTitleOpen]; group1 := [Plus notQuote]; after := [Lit [dq]] |}.
  rewrite (capture1_none_without_literal _ _ _ _ Ho).
  rewrite (capture1_delimited (L "<title>") (L "</title>") notLt pre
             (name ++ L " - YouTube") post "<"%char (L "/title>")).
  - now apply title_suffix_stripped_when_absent_from_name.
  - reflexivity.
  - reflexivity.
  - exact Ht.
  - destruct name; discriminate.
  - rewrite forallb_app, Hlt. reflexivity.
Qed.

Lemma title_suffix_stripped_from_document_title_witness :
  extractTitle (L "mychannel")
    (L "<html><head>" ++ L "<title>" ++ (L "My Channel" ++ L " - YouTube") ++ L "</title>"
       ++ L "</head><body></body></html>")
  = L "My Channel".
Proof.
  apply (@title_suffix_stripped_from_document_title
           (L "mychannel") (L "<html><head>") (L "My Channel")
           (L "</head><body></body></html>")); reflexivity.
Defined.

(** X5: a [name='title'] meta tag decides the title, whatever
    [og:title] meta tag or [<title>] element the page also has: the
    title is the value of the leftmost such tag with its first
    [ - YouTube] removed. *)
Theorem title_meta_tag_takes_precedence (handle pre t post : str) :
  let html := pre ++ metaTitleOpen ++ t ++ [dq] ++ post in
  indexOf metaTitleOpen html = Some (List.length pre) ->
  t <> [] ->
  forallb notQuote t = true ->
  extractTitle handle html = replace (L " - YouTube") [] t.
Proof.
  intros html Hidx Hne Ht. subst html.
  unfold extractTitle, titlePatterns. cbn [firstMatch].
  change (metaContentRe (L "name") (L "title") notQuote)
    with {| before := [Lit metaTitleOpen]; group1 := [Plus notQuote]; after := [Lit [dq]] |}.
  now rewrite (capture1_delimited metaTitleOpen [dq] notQuote pre t post dq []).
Qed.

Lemma title_meta_tag_takes_precedence_witness :
  extractTitle (L "mychannel")
    (L "<html><head><title>Another title - YouTube</title>" ++ metaTitleOpen
       ++ L "My Channel" ++ [dq] ++ L "></head></html>")
  = replace (L " - YouTube") [] (L "My Channel").
Proof.
  apply (@title_meta_tag_takes_precedence
           (L "mychannel") (L "<html><head><title>Another title - YouTube</title>")
           (L "My Channel") (L "></head></html>")).
  - reflexivity.
  - discriminate.
  - reflexivity.
Defined.

(** X6: a page without any of the three title markers gets the handle
    as title, and a page without any of the three thumbnail markers
    gets [null] as thumbnail. *)
Theorem title_and_thumbnail_defaults (handle html : str) :
  (indexOf metaTitleOpen html = None ->
   indexOf ogTitleOpen html = None ->
   indexOf (L "<title>") html = None ->
   extractTitle handle html = handle)
  /\ (indexOf avatarOpen html = None ->
      indexOf ogImageOpen html = None ->
      indexOf thumbnailsOpen html = None ->
      extractThumbnail html = VNull).
Proof.
  split.
  - intros Hm Ho Ht. unfold extractTitle, titlePatterns. cbn [firstMatch].
    change (metaContentRe (L "name") (L "title") notQuote)
      with {| before := [Lit metaTitleOpen]; group1 := [Plus notQuote];
              after := [Lit [dq]] |}.
    rewrite (capture1_none_without_literal _ _ _ _ Hm).
    change (metaContentRe (L "property") (L "og:title") notQuote)
      with {| before := [Lit ogTitleOpen]; group1 := [Plus notQuote];
              after := [Lit [dq]] |}.
    rewrite (capture1_none_without_literal _ _ _ _ Ho).
    now rewrite (capture1_none_without_literal _ _ _ _ Ht).
  - intros Ha Ho Ht. unfold extractThumbnail, thumbnailPatterns. cbn [firstMatch].
    change (q (L "avatar") ++ L ":{" ++ q (L "thumbnails") ++ L ":[{"
              ++ q (L "url") ++ L ":" ++ [dq]) with avatarOpen.
    rewrite (capture1_none_without_literal _ _ _ _ Ha).
    change (metaContentRe (L "property") (L "og:image") notQuote)
      with {| before := [Lit ogImageOpen]; group1 := [Plus notQuote];
              after := [Lit [dq]] |}.
    rewrite (capture1_none_without_literal _ _ _ _ Ho).
    change (q (L "thumbnails") ++ L ":[{" ++ q (L "url") ++ L ":" ++ [dq])
      with thumbnailsOpen.
    now rewrite (capture1_none_without_literal _ _ _ _ Ht).
Qed.

Lemma title_and_thumbnail_defaults_witness :
  extractTitle (L "mychannel") tokenPage = L "Some Channel"
  /\ extractTitle (L "mychannel") (L "<html><head></head><body></body></html>")
     = L "mychannel"
  /\ extractThumbnail tokenPage = VNull.
Proof.
  split; [reflexivity|]. split.
  - apply (proj1 (@title_and_thumbnail_defaults
                    (L "mychannel") (L "<html><head></head><body></body></html>")));
      reflexivity.
  - apply (proj2 (@title_and_thumbnail_defaults (L "mychannel") tokenPage));
      reflexivity.
Defined.

Section HtmlInvariants.

Variable World : Type.
Variable drv : Driver World.

(** X7: every result of the HTML extractor reports success, has the
    title also as author, a non-empty string as [uri], and [null] as
    [viewCount], [lastVideoId] and [lastVideoDate]. *)
Theorem html_result_invariants (handle : str) (st st' : St World) (r : StrategyResult) :
  extractChannelIdFromHtml drv handle st = (Ok r, st') ->
  success r = true
  /\ author (data r) = title (data r)
  /\ (exists u, uri (data r) = VStr u /\ u <> [])
  /\ viewCount (data r) = VNull
  /\ lastVideoId (data r) = VNull
  /\ lastVideoDate (data r) = VNull.
Proof.
  revert st r st'.
  change (ensures (fun r => success r = true
                            /\ author (data r) = title (data r)
                            /\ (exists u, uri (data r) = VStr u /\ u <> [])
                            /\ viewCount (data r) = VNull
                            /\ lastVideoId (data r) = VNull
                            /\ lastVideoDate (data r) = VNull)
                  (extractChannelIdFromHtml drv handle)).
  unfold extractChannelIdFromHtml.
  repeat ensures_step.
  apply ensures_ret. cbn [success data author title uri viewCount lastVideoId lastVideoDate].
  repeat split.
  eexists. split; [reflexivity|].
  unfold orElse.
  match goal with
  | |- context [capture1 ogUrlRe ?h] => destruct (capture1 ogUrlRe h) as [[|c s]|]
  end; discriminate.
Qed.

End HtmlInvariants.

Lemma html_result_invariants_witness :
  exists r,
    fst (run (extractChannelIdFromHtml (scripted (pageWorld tokenPage)) (L "somehandle")) tt)
    = Ok r
    /\ success r = true
    /\ author (data r) = title (data r)
    /\ viewCount (data r) = VNull.
Proof.
  eexists. split; [vm_compute; reflexivity|].
  destruct (@html_result_invariants unit (scripted (pageWorld tokenPage))
              (L "somehandle") {| world := tt; trace := [] |} _ _ eq_refl)
    as (H1 & H2 & _ & H4 & _).
  repeat split; assumption.
Defined.

(* ===================================================================== *)
(** ** The browser scraper, case by case *)
(* ===================================================================== *)

Ltac open_page H :=
  unfold openedPage in H;
  repeat match type of H with
         | match ?x with _ => _ end = Some _ =>
             let E := fresh "Eop" in destruct x as [[[]|?] ?] eqn:E; try discriminate H
         end;
  inversion H; subst; clear H.

Ltac run_scraper :=
  unfold scrapeChannelInfo, setupEvents, afterClose, pageUrl,
    bind, tryFinally, tryCatch, emit, getBrowser, page, call, observe, liftRes, ret, throw;
  cbn [world trace fst snd];
  repeat match goal with
         | E : ?x = _ |- context [?x] => rewrite E; cbn [world trace fst snd]
         end.

Section ScraperCases.

Variable World : Type.
Variable drv : Driver World.
Variable host : Host.

(** X8: when the navigation of the scraper answers 404, nothing more
    is done with the page: the browser is closed and the scrape fails
    with [Failed to scrape channel info: Channel not found: <handle>]
    (or with the error of the close). *)
Theorem scraper_navigation_not_found (handle : str) (st : St World) (w5 : World) :
  openedPage drv host handle (world st) = Some w5 ->
  page_goto_status drv w5 = Some 404%Z ->
  scrapeChannelInfo drv host handle st
  = afterClose drv
      (Throw (ErrorObj (L "Failed to scrape channel info: "
                          ++ L "Channel not found: " ++ handle)))
      w5 (trace st ++ setupEvents host handle).
Proof.
  intros Hop Hst. open_page Hop. unfold pageUrl in *. run_scraper.
  destruct (browser_close drv w5) as [[u|e] w6];
    cbn [trace]; rewrite <- !app_assoc; reflexivity.
Qed.

Lemma status_other (A : Type) (x y : A) (status : option Z) :
  status <> Some 404%Z ->
  match status with
  | Some 404%Z => x
  | _ => y
  end = y.
Proof.
  intros H. destruct status as [z|]; [|reflexivity].
  destruct z as [|p|p]; try reflexivity.
  do 9 (destruct p as [p|p|]; try reflexivity).
  all: try (exfalso; apply H; reflexivity).
Qed.

(** X9: when no indicator element appears in time but the page has
    been redirected to a URL with a [/channel/] piece, the scraper
    succeeds from that URL: the channel ID is the text behind the
    leftmost [/channel/] up to the next slash, [uri] is the URL, title
    and author are the page title or, when that is empty, the handle,
    and the browser is closed. *)
Theorem scraper_timeout_uses_redirected_url
        (handle : str) (st : St World) (w5 w6 w7 : World) (err : Exn) (n : nat) :
  openedPage drv host handle (world st) = Some w5 ->
  page_goto_status drv w5 <> Some 404%Z ->
  page_do drv (WaitForSelectors indicatorSelectors 15000%Z) w5 = (Throw err, w6) ->
  indexOf (L "/channel/") (page_url drv w6) = Some n ->
  page_do drv Title w6 = (Ok tt, w7) ->
  scrapeChannelInfo drv host handle st
  = afterClose drv
      (Ok {| success := true;
             data := {| author := VStr (orElse (Some (page_title drv w7)) handle);
                        uri := VStr (page_url drv w6);
                        title := VStr (orElse (Some (page_title drv w7)) handle);
                        thumbnail := VNull;
                        viewCount := VNum (Int 0);
                        lastVideoId := VNull;
                        lastVideoDate := VNull;
                        channelId :=
                          VStr (takeWhile (isNot "/"%char)
                                          (skipn (n + 9) (page_url drv w6))) |} |})
      w7
      (trace st ++ setupEvents host handle
         ++ [EvPage (WaitForSelectors indicatorSelectors 15000%Z); EvPage Title]).
Proof.
  intros Hop Hst Hwait Hidx Htitle. open_page Hop. unfold pageUrl in *.
  pose proof (includes_of_indexOf _ _ _ Hidx) as Hinc.
  pose proof (channelIdAfterMarker_spec _ _ Hidx) as Hid.
  run_scraper. rewrite (status_other _ _ _ _ Hst). run_scraper.
  destruct (browser_close drv w7) as [[u|e] w8];
    cbn [trace]; rewrite <- !app_assoc; reflexivity.
Qed.

(** X10: when no indicator element appears in time and the URL of
    the page has no [/channel/] piece, the scraper fails with the
    error of the wait inside its own message, after closing the
    browser. *)
Theorem scraper_timeout_without_channel_url
        (handle : str) (st : St World) (w5 w6 : World) (err : Exn) :
  openedPage drv host handle (world st) = Some w5 ->
  page_goto_status drv w5 <> Some 404%Z ->
  page_do drv (WaitForSelectors indicatorSelectors 15000%Z) w5 = (Throw err, w6) ->
  includes (page_url drv w6) (L "/channel/") = false ->
  scrapeChannelInfo drv host handle st
  = afterClose drv
      (Throw (ErrorObj (L "Failed to scrape channel info: " ++ messageOf err)))
      w6
      (trace st ++ setupEvents host handle
         ++ [EvPage (WaitForSelectors indicatorSelectors 15000%Z)]).
Proof.
  intros Hop Hst Hwait Hinc. open_page Hop. unfold pageUrl in *.
  run_scraper. rewrite (status_other _ _ _ _ Hst). run_scraper.
  destruct (browser_close drv w6) as [[u|e] w8];
    cbn [trace]; rewrite <- !app_assoc; reflexivity.
Qed.

(** The errors of the scraper. *)
Lemma scrape_throw_forms (handle : str) (st st' : St World) (e : Exn) :
  scrapeChannelInfo drv host handle st = (Throw e, st') ->
  fst (browser_launch drv (launchOptions host) (world st)) = Throw e
  \/ (exists w, fst (browser_close drv w) = Throw e)
  \/ (exists m, e = ErrorObj (L "Failed to scrape channel info: " ++ m)).
Proof.
  unfold scrapeChannelInfo.
  unfold bind at 1. unfold emit at 1.
  unfold bind at 1. unfold getBrowser at 1. unfold call at 1. cbn [world trace].
  destruct (browser_launch drv (launchOptions host) (world st)) as [[u|e0] w1].
  - unfold tryFinally.
    match goal with
    | |- context [tryCatch ?b ?h ?s] => destruct (tryCatch b h s) as [r st2] eqn:E
    end.
    unfold call. destruct (browser_close drv (world st2)) as [[c|e1] w3] eqn:Ec.
    + intros H. inversion H; subst. right. right.
      unfold tryCatch in E.
      match type of E with
      | match ?m with _ => _ end = _ => destruct m as [[a|e2] st3]
      end; [discriminate|].
      unfold throw in E. pose proof (f_equal fst E) as Hx. cbn [fst] in Hx.
      exists (messageOf e2). congruence.
    + intros H. inversion H; subst. right. left.
      exists (world st2). now rewrite Ec.
  - intros H. inversion H; subst. now left.
Qed.

(** X11: what the scraper throws is the error of the launch, the
    error of the close, or an error whose message starts with
    [Failed to scrape channel info: ]. *)
Theorem scraper_error_forms (handle : str) (st st' : St World) (e : Exn) :
  scrapeChannelInfo drv host handle st = (Throw e, st') ->
  fst (browser_launch drv (launchOptions host) (world st)) = Throw e
  \/ (exists w, fst (browser_close drv w) = Throw e)
  \/ (exists m, e = ErrorObj (L "Failed to scrape channel info: " ++ m)).
Proof. exact (scrape_throw_forms handle st st' e). Qed.

End ScraperCases.

Lemma scraper_navigation_not_found_witness :
  run (scrapeChannelInfo (scripted (allStatus 404)) productionHost (L "ghost")) tt
  = (Throw (ErrorObj (L "Failed to scrape channel info: "
                        ++ L "Channel not found: " ++ L "ghost")),
     {| world := tt;
        trace := ([] ++ setupEvents productionHost (L "ghost")) ++ [EvClose] |}).
Proof.
  unfold run.
  apply (@scraper_navigation_not_found
           unit (scripted (allStatus 404)) productionHost (L "ghost")
           {| world := tt; trace := [] |} tt); reflexivity.
Defined.

Lemma scraper_timeout_uses_redirected_url_witness :
  run (scrapeChannelInfo (scripted redirectedWorld) productionHost (L "somehandle")) tt
  = (Ok {| success := true;
           data := {| author := VStr (L "somehandle");
                      uri := VStr (L "https://www.youtube.com/channel/UCW5wxEjGHWNyatgZe-PU_tA/featured");
                      title := VStr (L "somehandle");
                      thumbnail := VNull;
                      viewCount := VNum (Int 0);
                      lastVideoId := VNull;
                      lastVideoDate := VNull;
                      channelId := VStr (L "UCW5wxEjGHWNyatgZe-PU_tA") |} |},
     {| world := tt;
        trace := ([] ++ setupEvents productionHost (L "somehandle")
                    ++ [EvPage (WaitForSelectors indicatorSelectors 15000%Z); EvPage Title])
                 ++ [EvClose] |}).
Proof.
  unfold run.
  apply (@scraper_timeout_uses_redirected_url
           unit (scripted redirectedWorld) productionHost (L "somehandle")
           {| world := tt; trace := [] |} tt tt tt
           (ErrorObj (L "Waiting for selector failed: 15000ms exceeded")) 23).
  - reflexivity.
  - discriminate.
  - reflexivity.
  - reflexivity.
  - reflexivity.
Defined.

Lemma scraper_timeout_without_channel_url_witness :
  run (scrapeChannelInfo (scripted timeoutWorld) productionHost (L "somehandle")) tt
  = (Throw (ErrorObj (L "Failed to scrape channel info: "
                        ++ L "Waiting for selector failed: 15000ms exceeded")),
     {| world := tt;
        trace := ([] ++ setupEvents productionHost (L "somehandle")
                    ++ [EvPage (WaitForSelectors indicatorSelectors 15000%Z)])
                 ++ [EvClose] |}).
Proof.
  unfold run.
  apply (@scraper_timeout_without_channel_url
           unit (scripted timeoutWorld) productionHost (L "somehandle")
           {| world := tt; trace := [] |} tt tt
           (ErrorObj (L "Waiting for selector failed: 15000ms exceeded"))).
  - reflexivity.
  - discriminate.
  - reflexivity.
  - reflexivity.
Defined.

Lemma scraper_error_forms_witness :
  fst (browser_launch (scripted (pageWorld tokenPage)) (launchOptions productionHost) tt)
  = Throw (ErrorObj (L "Failed to launch the browser process"))
  \/ (exists w, fst (browser_close (scripted (pageWorld tokenPage)) w)
                = Throw (ErrorObj (L "Failed to launch the browser process")))
  \/ (exists m, ErrorObj (L "Failed to launch the browser process")
                = ErrorObj (L "Failed to scrape channel info: " ++ m)).
Proof.
  apply (@scraper_error_forms
           unit (scripted (pageWorld tokenPage)) productionHost (L "somehandle")
           {| world := tt; trace := [] |}
           {| world := tt;
              trace := [EvEnter BrowserScraper (L "somehandle");
                        EvLaunch (launchOptions productionHost)] |}).
  reflexivity.
Defined.

Section ScraperInvariants.

Variable World : Type.
Variable drv : Driver World.
Variable host : Host.

Lemma includes_nil_channel : includes [] (L "/channel/") = false.
Proof. reflexivity. Qed.

Lemma orElse_nonempty (a : option str) (b : str) : b <> [] -> orElse a b <> [].
Proof. intros Hb. unfold orElse. destruct a as [[|c s]|]; (assumption || discriminate). Qed.

Lemma orNull_cases (a : option str) :
  orNull a = VNull \/ exists s, orNull a = VStr s /\ s <> [].
Proof.
  unfold orNull. destruct a as [[|c s]|]; auto.
  right. eexists. split; [reflexivity|discriminate].
Qed.

(** X12: every result of the browser scraper reports success, has
    the title also as author (a non-empty string when the handle is not
    empty), a non-empty string as [uri], [0] as [viewCount], [null] as
    [lastVideoId] and [lastVideoDate], and [null] or a non-empty string
    as thumbnail. *)
Theorem scraper_result_invariants (handle : str) (st st' : St World)
        (r : StrategyResult) :
  scrapeChannelInfo drv host handle st = (Ok r, st') ->
  success r = true
  /\ author (data r) = title (data r)
  /\ (exists t, title (data r) = VStr t /\ (handle <> [] -> t <> []))
  /\ (exists u, uri (data r) = VStr u /\ u <> [])
  /\ viewCount (data r) = VNum (Int 0)
  /\ lastVideoId (data r) = VNull
  /\ lastVideoDate (data r) = VNull
  /\ (thumbnail (data r) = VNull
      \/ exists s, thumbnail (data r) = VStr s /\ s <> []).
Proof.
  revert st r st'.
  set (Q := fun r : StrategyResult =>
              success r = true
              /\ author (data r) = title (data r)
              /\ (exists t, title (data r) = VStr t /\ (handle <> [] -> t <> []))
              /\ (exists u, uri (data r) = VStr u /\ u <> [])
              /\ viewCount (data r) = VNum (Int 0)
              /\ lastVideoId (data r) = VNull
              /\ lastVideoDate (data r) = VNull
              /\ (thumbnail (data r) = VNull
                  \/ exists s, thumbnail (data r) = VStr s /\ s <> [])).
  change (ensures Q (scrapeChannelInfo drv host handle)).
  unfold scrapeChannelInfo.
  do 9 ensures_step.
  match goal with
  | |- ensures _ (match ?x with Some _ => _ | None => ?c end) =>
      assert (Hc : ensures Q c)
  end.
  { apply (ensures_bind _ (fun early => match early with
                                        | Some r => Q r
                                        | None => True
                                        end)).
    - apply ensures_tryCatch; [|intro error].
      + ensures_step. apply ensures_ret. exact I.
      + ensures_step.
        match goal with
        | |- ensures _ (if includes ?u ?p then _ else _) =>
            destruct (includes u p) eqn:Einc; [|apply ensures_throw]
        end.
        do 3 ensures_step.
        apply ensures_ret. unfold Q.
        cbn [success data author title uri viewCount lastVideoId lastVideoDate thumbnail].
        repeat split; auto.
        * eexists. split; [reflexivity|]. apply orElse_nonempty.
        * eexists. split; [reflexivity|]. intros ->.
          rewrite includes_nil_channel in Einc. discriminate.
    - intros [r|] Hr; [apply ensures_ret; exact Hr|].
      do 2 ensures_step. cbv zeta.
      match goal with
      | |- ensures _ (match ?x with _ => _ end) => destruct x eqn:Eurl
      end; [apply ensures_throw|].
      apply (ensures_bind _ (fun _ => True)); [apply ensures_any|intros v _].
      apply ensures_ret. unfold Q.
      cbn [success data author title uri viewCount lastVideoId lastVideoDate thumbnail].
      repeat split; auto.
      + eexists. split; [reflexivity|]. apply orElse_nonempty.
      + eexists. split; [reflexivity|discriminate].
      + apply orNull_cases. }
  repeat (exact Hc || ensures_step).
Qed.

End ScraperInvariants.

Lemma scraper_result_invariants_witness :
  exists r,
    fst (run (scrapeChannelInfo (scripted renderedWorld) productionHost
                                (L "somehandle")) tt) = Ok r
    /\ success r = true
    /\ author (data r) = title (data r)
    /\ viewCount (data r) = VNum (Int 0).
Proof.
  eexists. split; [vm_compute; reflexivity|].
  destruct (@scraper_result_invariants unit (scripted renderedWorld) productionHost
              (L "somehandle") {| world := tt; trace := [] |} _ _ eq_refl)
    as (H1 & H2 & _ & _ & H5 & _).
  repeat split; assumption.
Defined.

(* ===================================================================== *)
(** ** The log of a whole resolution *)
(* ===================================================================== *)

Lemma fetched_app (a b : list Event) : fetched (a ++ b) = fetched a ++ fetched b.
Proof. induction a as [|e a IH]; [reflexivity|]. destruct e; simpl; now rewrite IH. Qed.

Lemma launches_app (a b : list Event) : launches (a ++ b) = launches a + launches b.
Proof. induction a as [|e a IH]; [reflexivity|]. destruct e; simpl; now rewrite IH. Qed.

Lemma htmlHandles_app (a b : list (Strategy * str)) :
  htmlHandles (a ++ b) = htmlHandles a ++ htmlHandles b.
Proof.
  induction a as [|[f h] a IH]; [reflexivity|]. destruct f; simpl; now rewrite IH.
Qed.

Lemma scraperEntries_app (a b : list (Strategy * str)) :
  scraperEntries (a ++ b) = scraperEntries a + scraperEntries b.
Proof.
  induction a as [|[f h] a IH]; [reflexivity|]. destruct f; simpl; now rewrite IH.
Qed.

Lemma pageOnly_quiet (evs : list Event) :
  pageOnly evs -> fetched evs = [] /\ launches evs = 0.
Proof.
  unfold pageOnly. induction evs as [|e evs IH]; [now split|].
  destruct e; simpl; try discriminate. exact IH.
Qed.

Lemma runBrowser_app (q : BrowserState) (a b : list Event) :
  runBrowser q (a ++ b)
  = match runBrowser q a with
    | Some q' => runBrowser q' b
    | None => None
    end.
Proof.
  revert q. induction a as [|e a IH]; intros q; [reflexivity|].
  simpl. destruct (stepBrowser q e); [apply IH|reflexivity].
Qed.

Lemma runBrowser_pages (evs : list Event) :
  pageOnly evs -> runBrowser InUse evs = Some InUse.
Proof.
  unfold pageOnly. induction evs as [|e evs IH]; [reflexivity|].
  destruct e; simpl; try discriminate. exact IH.
Qed.

Lemma disciplined_nil : disciplined [].
Proof. now left. Qed.

Lemma disciplined_app (a b : list Event) :
  disciplined a -> disciplined b -> disciplined (a ++ b).
Proof.
  unfold disciplined. intros Ha Hb. rewrite runBrowser_app.
  destruct Ha as [->| ->]; [exact Hb|].
  destruct b as [|e b]; [now right|].
  assert (Hstep : stepBrowser Launched e = stepBrowser Closed e).
  { destruct e; try reflexivity.
    simpl in Hb. destruct Hb; discriminate. }
  cbn [runBrowser] in *. rewrite Hstep. exact Hb.
Qed.

Lemma accounted_nil : accounted [].
Proof. now split. Qed.

Lemma accounted_app (a b : list Event) : accounted a -> accounted b -> accounted (a ++ b).
Proof.
  intros [Ha1 Ha2] [Hb1 Hb2]. unfold accounted.
  rewrite fetched_app, launches_app, entries_app, htmlHandles_app,
    scraperEntries_app, map_app, Ha1, Ha2, Hb1, Hb2.
  now split.
Qed.

Section WholeLog.

Variable World : Type.
Variable drv : Driver World.
Variable host : Host.

Lemma tryCatch_bind {A B} (m : M World A) (k : A -> M World B)
      (h : Exn -> M World B) (st : St World) :
  tryCatch (bind m k) h st
  = match m st with
    | (Ok a, st') => tryCatch (k a) h st'
    | (Throw e, st') => h e st'
    end.
Proof. unfold tryCatch, bind. destruct (m st) as [[a|e] st']; reflexivity. Qed.

(** After a successful launch the first thing in the log is the
    creation of the page, and the last the close. *)
Lemma scrape_log_in_use (handle : str) (st : St World) (u : unit) (w1 : World) :
  browser_launch drv (launchOptions host) (world st) = (Ok u, w1) ->
  exists mid,
    pageOnly mid
    /\ trace (snd (scrapeChannelInfo drv host handle st))
       = trace st ++ [EvEnter BrowserScraper handle; EvLaunch (launchOptions host);
                      EvPage NewPage] ++ mid ++ [EvClose].
Proof.
  intros Hl. unfold scrapeChannelInfo.
  unfold bind at 1. unfold emit at 1.
  unfold bind at 1. unfold getBrowser at 1. unfold call at 1. cbn [world trace].
  rewrite Hl. unfold tryFinally. rewrite tryCatch_bind.
  unfold page at 1. unfold call at 1. cbn [world trace].
  destruct (page_do drv NewPage w1) as [[v|e] w2].
  - match goal with
    | |- context [tryCatch ?b ?h ?s] =>
        assert (Hbody : adds pageOnly (tryCatch b h));
        [|destruct (Hbody s) as (mid & Hmid & Hpage);
          destruct (tryCatch b h s) as [r st2]]
    end.
    { adds_tac (eq_refl : pageOnly []) pageOnly_app. }
    cbn [snd trace] in Hmid. exists mid. split; [assumption|].
    unfold call. destruct (browser_close drv (world st2)) as [[c|e] w3];
      cbn [snd trace]; rewrite Hmid; now rewrite <- !app_assoc.
  - exists []. split; [reflexivity|].
    unfold throw, call. cbn [world trace].
    destruct (browser_close drv w2) as [[c|e'] w3];
      cbn [snd trace]; now rewrite <- !app_assoc.
Qed.

(** The log of a resolution is the feed request followed by what the
    fallbacks add; a property of logs that holds of each fallback run
    and passes to concatenations holds of what they add. *)
Lemma fetchChannelFeed_adds (P : list Event -> Prop) :
  P [] -> (forall a b, P a -> P b -> P (a ++ b)) ->
  (forall h, adds P (extractChannelIdFromHtml drv h)) ->
  (forall h, adds P (scrapeChannelInfo drv host h)) ->
  forall channelName st,
  exists evs,
    trace (snd (fetchChannelFeed drv host channelName st))
    = trace st ++ [EvEnter FeedFetcher channelName; EvFetch (feedUrl channelName)] ++ evs
    /\ P evs.
Proof.
  intros Pnil Papp Hhtml Hscrape channelName st.
  assert (Hfb : forall h, adds P (fallbacks drv host h)).
  { intros h. apply (adds_tryCatch _ _ Papp); [apply Hhtml|intros _; apply Hscrape]. }
  rewrite fetchChannelFeed_cases.
  destruct (http_fetch drv (feedUrl channelName) (world st)) as [r w1]. cbv zeta.
  destruct (feedAttempt (xml_parse drv) r) as [|e|d].
  - match goal with
    | |- context [tryCatch ?m ?h ?s] =>
        assert (Ht : adds P (tryCatch m h));
        [|destruct (Ht s) as (evs & Hevs & Hp)]
    end.
    { apply (adds_tryCatch _ _ Papp); [apply Hfb|intros _; apply Hfb]. }
    exists evs. split; [|assumption]. rewrite Hevs. cbn [trace].
    now rewrite <- app_assoc.
  - match goal with
    | |- context [fallbacks drv host ?h ?s] => destruct (Hfb h s) as (evs & Hevs & Hp)
    end.
    exists evs. split; [|assumption]. rewrite Hevs. cbn [trace].
    now rewrite <- app_assoc.
  - exists []. split; [|assumption]. cbn [snd trace]. now rewrite app_nil_r.
Qed.

Lemma html_adds_requests (h : str) :
  adds accounted (extractChannelIdFromHtml drv h).
Proof.
  intros st. exists [EvEnter HtmlExtractor h; EvFetch (pageUrl h)].
  split; [apply html_log|]. now split.
Qed.

Lemma scrape_adds_requests (h : str) :
  adds accounted (scrapeChannelInfo drv host h).
Proof.
  intros st. pose proof (scrapeChannelInfo_log World drv host h st) as H. cbv zeta in H.
  destruct (browser_launch drv (launchOptions host) (world st)) as [[u|e] w1].
  - destruct H as (mid & Hpage & Ht). eexists. split; [exact Ht|].
    destruct (pageOnly_quiet _ Hpage) as [Hf Hl].
    pose proof (pageOnly_noEntry _ Hpage) as He. unfold noEntry in He.
    unfold accounted. cbn [app fetched launches entries].
    rewrite fetched_app, launches_app, entries_app, Hf, Hl, He. now split.
  - rewrite H. eexists. split; [reflexivity|]. now split.
Qed.

Lemma html_adds_disciplined (h : str) :
  adds disciplined (extractChannelIdFromHtml drv h).
Proof.
  intros st. exists [EvEnter HtmlExtractor h; EvFetch (pageUrl h)].
  split; [apply html_log|]. now left.
Qed.

Lemma scrape_adds_disciplined (h : str) :
  adds disciplined (scrapeChannelInfo drv host h).
Proof.
  intros st.
  destruct (browser_launch drv (launchOptions host) (world st)) as [[u|e] w1] eqn:El.
  - destruct (scrape_log_in_use h st u w1 El) as (mid & Hpage & Ht).
    eexists. split; [exact Ht|]. left.
    cbn [app runBrowser stepBrowser]. rewrite runBrowser_app.
    now rewrite (runBrowser_pages _ Hpage).
  - pose proof (scrapeChannelInfo_log World drv host h st) as H. cbv zeta in H.
    rewrite El in H. rewrite H. eexists. split; [reflexivity|]. now right.
Qed.

(** X13: the outbound calls of a resolution are the feed request,
    one request of a channel page for each entry of the HTML extractor
    and one browser launch for each entry of the browser scraper; so a
    resolution makes at most three HTTP requests and launches at most
    two browsers. *)
Theorem resolution_requests (channelName : str) (w : World) :
  let t := trace (snd (run (fetchChannelFeed drv host channelName) w)) in
  fetched t = feedUrl channelName :: map pageUrl (htmlHandles (entries t))
  /\ launches t = scraperEntries (entries t)
  /\ List.length (fetched t) <= 3
  /\ launches t <= 2.
Proof.
  cbv zeta. unfold run.
  set (st := {| world := w; trace := [] |}).
  destruct (fetchChannelFeed_adds accounted accounted_nil accounted_app
              html_adds_requests scrape_adds_requests channelName st)
    as (evs & Ht & Hf & Hl).
  destruct (fetchChannelFeed_log_shapes World drv host channelName st)
    as (rest & Hrest & Hin).
  cbv zeta in Hrest, Hin.
  rewrite Ht in *. cbn [trace app entries fetched launches st] in *.
  injection Hrest as Hrest.
  assert (H1 : fetched evs = map pageUrl (htmlHandles rest)) by now rewrite Hf, Hrest.
  assert (H2 : launches evs = scraperEntries rest) by now rewrite Hl, Hrest.
  cbn [htmlHandles scraperEntries]. rewrite Hrest, H1, H2.
  split; [reflexivity|]. split; [reflexivity|].
  simpl in Hin.
  destruct Hin as [<-|[<-|[<-|[<-|[<-|[<-|[<-|[]]]]]]]]; simpl; lia.
Qed.

(** X14: in the log of every call of the handler, a page operation
    happens only between a browser launch and its close, nothing else
    happens while a browser is in use, and when the call returns no
    browser is left in use, also when the fallbacks have run twice. *)
Theorem handler_keeps_browser_discipline (request : Request) (w : World) :
  disciplined (trace (snd (run (GET drv host request) w))).
Proof.
  unfold run, GET.
  destruct (searchParams_get request (L "channelName")) as [[|c name]|];
    try apply disciplined_nil.
  unfold tryCatch, bind.
  destruct (fetchChannelFeed_adds disciplined disciplined_nil disciplined_app
              html_adds_disciplined scrape_adds_disciplined (c :: name)
              {| world := w; trace := [] |}) as (evs & Ht & Hd).
  destruct (fetchChannelFeed drv host (c :: name) {| world := w; trace := [] |})
    as [[r|e] st1]; cbn [snd ret] in *; rewrite Ht; cbn [trace app];
    apply (disciplined_app [EvEnter FeedFetcher (c :: name);
                            EvFetch (feedUrl (c :: name))] evs);
    (now left) || assumption.
Qed.

End WholeLog.

(* ===================================================================== *)
(** ** Outcomes of a resolution *)
(* ===================================================================== *)

Section Outcomes.

Variable World : Type.
Variable drv : Driver World.
Variable host : Host.

Lemma fetchChannelFeed_from (channelName : str) (st : St World) :
  fetchChannelFeed drv host channelName st
  = match feedAttempt (xml_parse drv)
            (fst (http_fetch drv (feedUrl channelName) (world st))) with
    | FeedParsed d =>
        (Ok {| success := true; data := d |}, afterFeedRequest drv channelName st)
    | FeedNotFound =>
        tryCatch (fallbacks drv host (replace (L "@") [] channelName))
                 (fun _ => fallbacks drv host channelName)
                 (afterFeedRequest drv channelName st)
    | FeedFailed _ => fallbacks drv host channelName (afterFeedRequest drv channelName st)
    end.
Proof.
  rewrite fetchChannelFeed_cases. unfold afterFeedRequest.
  destruct (http_fetch drv (feedUrl channelName) (world st)) as [r w1]. reflexivity.
Qed.

Lemma fallbacks_throw_is_scraper (h : str) (st st' : St World) (e : Exn) :
  fallbacks drv host h st = (Throw e, st') ->
  exists st1, scrapeChannelInfo drv host h st1 = (Throw e, st').
Proof.
  unfold fallbacks, tryCatch.
  destruct (extractChannelIdFromHtml drv h st) as [[r|e0] st1]; [discriminate|].
  intros H. now exists st1.
Qed.

(** A failed resolution failed in the scraper. *)
Lemma fetchChannelFeed_throw_is_scraper
        (channelName : str) (st st' : St World) (e : Exn) :
  fetchChannelFeed drv host channelName st = (Throw e, st') ->
  exists st1, scrapeChannelInfo drv host channelName st1 = (Throw e, st').
Proof.
  rewrite fetchChannelFeed_from.
  destruct (feedAttempt _ _) as [|e0|d]; [| |discriminate].
  - unfold tryCatch at 1.
    destruct (fallbacks drv host (replace (L "@") [] channelName) _) as [[r|e1] st1];
      [discriminate|].
    apply fallbacks_throw_is_scraper.
  - apply fallbacks_throw_is_scraper.
Qed.

(** X15: a resolution that fails has failed in the browser scraper
    run with the original handle: the error thrown to the caller is
    the error of that run, never an error of the feed fetcher or of
    the HTML extractor. *)
Theorem resolution_error_is_scraper_error
        (channelName : str) (st st' : St World) (e : Exn) :
  fetchChannelFeed drv host channelName st = (Throw e, st') ->
  exists st1, scrapeChannelInfo drv host channelName st1 = (Throw e, st').
Proof. exact (fetchChannelFeed_throw_is_scraper channelName st st' e). Qed.

(** X16: when the feed attempt fails otherwise than by a 404 and the
    HTML extractor throws, the outcome of the resolution, result or
    error, is the outcome of one run of the browser scraper with the
    original handle. *)
Theorem scraper_outcome_is_final (channelName : str) (st st2 : St World) (e0 e1 : Exn) :
  feedAttempt (xml_parse drv) (fst (http_fetch drv (feedUrl channelName) (world st)))
    = FeedFailed e0 ->
  extractChannelIdFromHtml drv channelName (afterFeedRequest drv channelName st)
    = (Throw e1, st2) ->
  fetchChannelFeed drv host channelName st
  = scrapeChannelInfo drv host channelName st2.
Proof.
  intros Hf Hh. rewrite fetchChannelFeed_from, Hf.
  unfold fallbacks, tryCatch. now rewrite Hh.
Qed.

(** X17: when the feed request answers 404 and the channel page of
    the handle without its first [@] has, as its leftmost [og:url] meta
    tag, a URL [base/channel/id] or [base/channel/id/...], the
    resolution succeeds with the channel ID [id] and that URL as
    [uri]; the log holds the two requests only, so no browser is
    launched. *)
Theorem not_found_feed_resolved_from_canonical_url
        (channelName : str) (st : St World) (feedResp resp : HttpResponse)
        (w0 w1 : World) (pre base id tail post : str) :
  let s := replace (L "@") [] channelName in
  let u := base ++ L "/channel/" ++ id ++ tail in
  let html := pre ++ ogUrlOpen ++ u ++ [dq] ++ post in
  http_fetch drv (feedUrl channelName) (world st) = (Ok feedResp, w0) ->
  status feedResp = 404%Z ->
  http_fetch drv (pageUrl s) w0 = (Ok resp, w1) ->
  ok resp = true ->
  text resp = Ok html ->
  indexOf ogUrlOpen html = Some (List.length pre) ->
  forallb notQuote u = true ->
  indexOf (L "/channel/") u = Some (List.length base) ->
  forallb (isNot "/"%char) id = true ->
  (tail = [] \/ exists r, tail = "/"%char :: r) ->
  exists r st',
    fetchChannelFeed drv host channelName st = (Ok r, st')
    /\ channelId (data r) = VStr id
    /\ uri (data r) = VStr u
    /\ trace st' = trace st ++ [ EvEnter FeedFetcher channelName;
                                 EvFetch (feedUrl channelName);
                                 EvEnter HtmlExtractor s;
                                 EvFetch (pageUrl s) ].
Proof.
  intros s u html Hfeed H404 Hf Hok Ht Hidx Hq Hch Hid Htail.
  rewrite fetchChannelFeed_from, Hfeed. cbn [fst feedAttempt].
  rewrite H404. cbn [Z.eqb Pos.eqb].
  unfold tryCatch at 1. unfold fallbacks at 1. unfold tryCatch at 1.
  fold s.
  assert (Hf' : http_fetch drv (pageUrl s)
                  (world (afterFeedRequest drv channelName st)) = (Ok resp, w1)).
  { unfold afterFeedRequest. cbn [world]. now rewrite Hfeed. }
  rewrite (html_canonical_run World drv s _ resp w1 pre base id tail post
             Hf' Hok Ht Hidx Hq Hch Hid Htail).
  do 2 eexists. split; [reflexivity|]. cbn [data channelId uri].
  split; [reflexivity|]. split; [reflexivity|].
  unfold afterFeedRequest. cbn [trace]. now rewrite <- app_assoc.
Qed.

(** X18: a feed that fetches and parses but lacks a required field
    (no author name, no author URI that is a text, or no title) is a
    failed feed attempt: the resolution goes on with the HTML extractor
    on the original handle. *)
Theorem feed_without_required_field_falls_back
        (channelName : str) (st : St World) (resp : HttpResponse) (w1 : World)
        (body : str) (result : JSVal) :
  http_fetch drv (feedUrl channelName) (world st) = (Ok resp, w1) ->
  ok resp = true ->
  text resp = Ok body ->
  xml_parse drv body = Ok result ->
  ((forall a, getChain result [KName (L "feed"); KName (L "author"); KIdx 0;
                               KName (L "name"); KIdx 0] <> Ok a)
   \/ (forall u, getChain result [KName (L "feed"); KName (L "author"); KIdx 0;
                                  KName (L "uri"); KIdx 0] <> Ok (VStr u))
   \/ (forall t, getChain result [KName (L "feed"); KName (L "title"); KIdx 0] <> Ok t)) ->
  exists rest,
    entries (trace (snd (fetchChannelFeed drv host channelName st)))
    = entries (trace st)
      ++ (FeedFetcher, channelName) :: (HtmlExtractor, channelName) :: rest.
Proof.
  intros Hf Hok Ht Hp Hmiss.
  assert (Hfail : exists e, feedData result = Throw e).
  { destruct (feedData result) as [d|e] eqn:Ed; [|now exists e].
    exfalso.
    destruct (feedData_inv _ _ Ed) as (en & a & u & t & n & _ & Ha & Hu & Htt & _).
    destruct Hmiss as [H|[H|H]];
      [apply (H a Ha)|apply (H u Hu)|apply (H t Htt)]. }
  destruct Hfail as [e He].
  assert (H404 : (status resp =? 404)%Z = false).
  { unfold ok in Hok. apply andb_true_iff in Hok as [_ Hle].
    apply Z.leb_le in Hle. apply Z.eqb_neq. lia. }
  assert (Ha : feedAttempt (xml_parse drv)
                 (fst (http_fetch drv (feedUrl channelName) (world st))) = FeedFailed e).
  { rewrite Hf. cbn [fst feedAttempt]. now rewrite H404, Hok, Ht, Hp, He. }
  destruct (failed_feed_entries World drv host channelName st e Ha) as (rest & Hr & _).
  now exists rest.
Qed.

End Outcomes.

Lemma resolution_error_is_scraper_error_witness :
  exists st1,
    scrapeChannelInfo (scripted (allStatus 404)) productionHost (L "@ghost") st1
    = (Throw (ErrorObj (L "Failed to scrape channel info: Channel not found: @ghost")),
       snd (run (fetchChannelFeed (scripted (allStatus 404)) productionHost (L "@ghost")) tt)).
Proof.
  apply (@resolution_error_is_scraper_error
           unit (scripted (allStatus 404)) productionHost (L "@ghost")
           {| world := tt; trace := [] |}).
  vm_compute. reflexivity.
Defined.

Lemma scraper_outcome_is_final_witness :
  fetchChannelFeed (scripted renderedWorld) productionHost (L "somehandle")
                   {| world := tt; trace := [] |}
  = scrapeChannelInfo (scripted renderedWorld) productionHost (L "somehandle")
      (snd (extractChannelIdFromHtml (scripted renderedWorld) (L "somehandle")
              (afterFeedRequest (scripted renderedWorld) (L "somehandle")
                                {| world := tt; trace := [] |}))).
Proof.
  apply (@scraper_outcome_is_final
           unit (scripted renderedWorld) productionHost (L "somehandle")
           {| world := tt; trace := [] |} _
           (ErrorObj (L "Failed to fetch feed: 500"))
           (ErrorObj (L "Failed to fetch channel page: 500"))).
  - vm_compute. reflexivity.
  - vm_compute. reflexivity.
Defined.

Lemma not_found_feed_resolved_from_canonical_url_witness :
  exists r st',
    fetchChannelFeed
      (scripted (pageWorld
         (samplePage (L "My Channel - YouTube")
                     (L "https://www.youtube.com/channel/UCW5wxEjGHWNyatgZe-PU_tA"))))
      productionHost (L "@mychannel") {| world := tt; trace := [] |} = (Ok r, st')
    /\ channelId (data r) = VStr (L "UCW5wxEjGHWNyatgZe-PU_tA")
    /\ uri (data r)
       = VStr (L "https://www.youtube.com" ++ L "/channel/"
                 ++ L "UCW5wxEjGHWNyatgZe-PU_tA" ++ [])
    /\ trace st' = [] ++ [ EvEnter FeedFetcher (L "@mychannel");
                           EvFetch (feedUrl (L "@mychannel"));
                           EvEnter HtmlExtractor (replace (L "@") [] (L "@mychannel"));
                           EvFetch (pageUrl (replace (L "@") [] (L "@mychannel"))) ].
Proof.
  apply (@not_found_feed_resolved_from_canonical_url
           unit
           (scripted (pageWorld
              (samplePage (L "My Channel - YouTube")
                          (L "https://www.youtube.com/channel/UCW5wxEjGHWNyatgZe-PU_tA"))))
           productionHost (L "@mychannel") {| world := tt; trace := [] |}
           {| status := 404; text := Ok [] |}
           {| status := 200;
              text := Ok (samplePage (L "My Channel - YouTube")
                            (L "https://www.youtube.com/channel/UCW5wxEjGHWNyatgZe-PU_tA")) |}
           tt tt
           (L "<html><head><title>My Channel - YouTube</title>")
           (L "https://www.youtube.com") (L "UCW5wxEjGHWNyatgZe-PU_tA") []
           (L "></head><body></body></html>")).
  - reflexivity.
  - reflexivity.
  - reflexivity.
  - reflexivity.
  - reflexivity.
  - reflexivity.
  - reflexivity.
  - reflexivity.
  - reflexivity.
  - left. reflexivity.
Defined.

Lemma feed_without_required_field_falls_back_witness :
  exists rest,
    entries (trace (snd (fetchChannelFeed (scripted (feedWorld feedWithoutAuthor))
                           productionHost (L "@somehandle")
                           {| world := tt; trace := [] |})))
    = [] ++ (FeedFetcher, L "@somehandle") :: (HtmlExtractor, L "@somehandle") :: rest.
Proof.
  apply (@feed_without_required_field_falls_back
           unit (scripted (feedWorld feedWithoutAuthor)) productionHost
           (L "@somehandle") {| world := tt; trace := [] |}
           {| status := 200; text := Ok (L "<feed>...</feed>") |} tt
           (L "<feed>...</feed>") feedWithoutAuthor).
  - reflexivity.
  - reflexivity.
  - reflexivity.
  - reflexivity.
  - left. intros a. vm_compute. discriminate.
Defined.

(* ===================================================================== *)
(** ** The leading marker of a handle *)
(* ===================================================================== *)

Lemma replace_at_head (h : str) : replace (L "@") [] ("@"%char :: h) = h.
Proof. reflexivity. Qed.

Lemma replace_at_absent (h : str) :
  forallb (isNot "@"%char) h = true -> replace (L "@") [] h = h.
Proof.
  induction h as [|c h IH]; intros H; [reflexivity|].
  cbn [forallb] in H. apply andb_true_iff in H as [Hc Hh].
  unfold replace; fold replace.
  change (stripPrefix (L "@") (c :: h))
    with (if Ascii.eqb "@"%char c then Some h else None).
  unfold isNot in Hc. rewrite Ascii.eqb_sym in Hc.
  destruct (Ascii.eqb "@"%char c); [discriminate|].
  f_equal. now apply IH.
Qed.

(** X19: for a handle [h] without [@], the calls with [@h] and with
    [h] request the same feed, and when that feed is served and parses
    they return the same record. *)
Theorem leading_marker_is_ignored_by_feed
        (World : Type) (drv : Driver World) (host : Host) (h : str) (st : St World)
        (d : ChannelData) :
  forallb (isNot "@"%char) h = true ->
  feedAttempt (xml_parse drv) (fst (http_fetch drv (feedUrl h) (world st)))
    = FeedParsed d ->
  feedUrl ("@"%char :: h) = feedUrl h
  /\ fst (fetchChannelFeed drv host ("@"%char :: h) st)
     = Ok {| success := true; data := d |}
  /\ fst (fetchChannelFeed drv host h st) = Ok {| success := true; data := d |}.
Proof.
  intros Hh Hfeed.
  assert (Hurl : feedUrl ("@"%char :: h) = feedUrl h).
  { unfold feedUrl. now rewrite replace_at_head, replace_at_absent. }
  split; [exact Hurl|]. split.
  - rewrite fetchChannelFeed_from, Hurl, Hfeed. reflexivity.
  - rewrite fetchChannelFeed_from, Hfeed. reflexivity.
Qed.

Lemma leading_marker_is_ignored_by_feed_witness :
  feedUrl ("@"%char :: L "somehandle") = feedUrl (L "somehandle")
  /\ fst (fetchChannelFeed
            (scripted (feedWorld (sampleFeed (L "Some Author") channelUri
                                             (L "Some Title") [entryA])))
            productionHost ("@"%char :: L "somehandle") {| world := tt; trace := [] |})
     = Ok {| success := true;
             data := {| author := VStr (L "Some Author");
                        uri := VStr channelUri;
                        title := VStr (L "Some Title");
                        thumbnail := VNull;
                        viewCount := VNum (Int 0);
                        lastVideoId := VUndefined;
                        lastVideoDate := VUndefined;
                        channelId := VStr (L "UCW5wxEjGHWNyatgZe-PU_tA") |} |}
  /\ fst (fetchChannelFeed
            (scripted (feedWorld (sampleFeed (L "Some Author") channelUri
                                             (L "Some Title") [entryA])))
            productionHost (L "somehandle") {| world := tt; trace := [] |})
     = Ok {| success := true;
             data := {| author := VStr (L "Some Author");
                        uri := VStr channelUri;
                        title := VStr (L "Some Title");
                        thumbnail := VNull;
                        viewCount := VNum (Int 0);
                        lastVideoId := VUndefined;
                        lastVideoDate := VUndefined;
                        channelId := VStr (L "UCW5wxEjGHWNyatgZe-PU_tA") |} |}.
Proof.
  apply (@leading_marker_is_ignored_by_feed
           unit
           (scripted (feedWorld (sampleFeed (L "Some Author") channelUri
                                            (L "Some Title") [entryA])))
           productionHost (L "somehandle") {| world := tt; trace := [] |}).
  - reflexivity.
  - vm_compute. reflexivity.
Defined.

(* ===================================================================== *)
(** ** The answers of the handler *)
(* ===================================================================== *)

Section Handler.

Variable World : Type.
Variable drv : Driver World.
Variable host : Host.

Lemma GET_cases (request : Request) (st : St World) :
  GET drv host request st
  = match searchParams_get request (L "channelName") with
    | None | Some [] => (Ok (failureBody (L "Channel name is required")), st)
    | Some channelName =>
        match fetchChannelFeed drv host channelName st with
        | (Ok r, st') => (Ok (dataBody (data r)), st')
        | (Throw (ErrorObj m), st') => (Ok (failureBody m), st')
        | (Throw Thrown, st') => (Ok (failureBody (L "Failed to fetch channel info")), st')
        end
    end.
Proof.
  unfold GET. destruct (searchParams_get request (L "channelName")) as [[|c name]|];
    try reflexivity.
  unfold tryCatch, bind, ret.
  destruct (fetchChannelFeed drv host (c :: name) st) as [[r|[m|]] st']; reflexivity.
Qed.

(** X20: the handler never throws: every request is answered with a
    body, which is either a failure body
    [{ success: false, error: <message> }] or the data record of a
    successful resolution of the given handle; the data record has no
    [success] property. *)
Theorem handler_always_answers (request : Request) (st : St World) :
  exists body st',
    GET drv host request st = (Ok body, st')
    /\ ((exists msg, body = VObj [ (L "success", VBool false); (L "error", VStr msg) ])
        \/ (exists channelName r,
               searchParams_get request (L "channelName") = Some channelName
               /\ fetchChannelFeed drv host channelName st = (Ok r, st')
               /\ body = dataBody (data r)
               /\ get body (KName (L "success")) = Ok VUndefined)).
Proof.
  rewrite GET_cases.
  destruct (searchParams_get request (L "channelName")) as [[|c name]|] eqn:Ep.
  - do 2 eexists. split; [reflexivity|]. left. eexists. reflexivity.
  - destruct (fetchChannelFeed drv host (c :: name) st) as [[r|[m|]] st'] eqn:Ef.
    + do 2 eexists. split; [reflexivity|]. right.
      exists (c :: name), r. split; [reflexivity|]. split; [exact Ef|].
      split; reflexivity.
    + do 2 eexists. split; [reflexivity|]. left. eexists. reflexivity.
    + do 2 eexists. split; [reflexivity|]. left. eexists. reflexivity.
  - do 2 eexists. split; [reflexivity|]. left. eexists. reflexivity.
Qed.

(** X21: with a driver whose browser always launches and closes, the
    error of a failure body is [Channel name is required] or starts
    with [Failed to scrape channel info: ]: a failure of the feed
    fetcher or of the HTML extractor is never what the client is
    told. *)
Theorem handler_failure_messages (request : Request) (st st' : St World) (body : JSVal) :
  (forall o w, exists u w', browser_launch drv o w = (Ok u, w')) ->
  (forall w, exists u w', browser_close drv w = (Ok u, w')) ->
  GET drv host request st = (Ok body, st') ->
  (exists r, body = dataBody (data r))
  \/ body = failureBody (L "Channel name is required")
  \/ (exists m, body = failureBody (L "Failed to scrape channel info: " ++ m)).
Proof.
  intros Hlaunch Hclose. rewrite GET_cases.
  destruct (searchParams_get request (L "channelName")) as [[|c name]|];
    try (intros H; inversion H; subst; right; left; reflexivity).
  destruct (fetchChannelFeed drv host (c :: name) st) as [[r|e] st1] eqn:Ef.
  - intros H. inversion H; subst. left. now exists r.
  - destruct (fetchChannelFeed_throw_is_scraper World drv host _ _ _ _ Ef) as [st0 Hs].
    destruct (scrape_throw_forms World drv host _ _ _ _ Hs) as [Hl|[[w Hc]|[m ->]]].
    + destruct (Hlaunch (launchOptions host) (world st0)) as (u & w' & Hu).
      rewrite Hu in Hl. discriminate.
    + destruct (Hclose w) as (u & w' & Hu). rewrite Hu in Hc. discriminate.
    + intros H. inversion H; subst. right. right. now exists m.
Qed.

Lemma GET_body_is_object (request : Request) (st st' : St World) (body : JSVal) :
  GET drv host request st = (Ok body, st') -> exists fields, body = VObj fields.
Proof.
  rewrite GET_cases.
  destruct (searchParams_get request (L "channelName")) as [[|c name]|];
    try (intros H; inversion H; subst; eexists; reflexivity).
  destruct (fetchChannelFeed drv host (c :: name) st) as [[r|[m|]] st1];
    intros H; inversion H; subst; eexists; reflexivity.
Qed.

End Handler.

Lemma handler_failure_messages_witness :
  (exists r, failureBody (L "Failed to scrape channel info: Channel not found: @ghost")
             = dataBody (data r))
  \/ failureBody (L "Failed to scrape channel info: Channel not found: @ghost")
     = failureBody (L "Channel name is required")
  \/ (exists m, failureBody (L "Failed to scrape channel info: Channel not found: @ghost")
                = failureBody (L "Failed to scrape channel info: " ++ m)).
Proof.
  apply (@handler_failure_messages
           unit (scripted (allStatus 404)) productionHost
           [(L "channelName", L "@ghost")] {| world := tt; trace := [] |}
           (snd (run (GET (scripted (allStatus 404)) productionHost
                          [(L "channelName", L "@ghost")]) tt))).
  - intros o w. exists tt, w. reflexivity.
  - intros w. exists tt, w. reflexivity.
  - vm_compute. reflexivity.
Defined.

(* ===================================================================== *)
(** ** The client of the route *)
(* ===================================================================== *)

Lemma jsonify_object (fields : list (str * JSVal)) :
  exists fields', jsonify (VObj fields) = VObj fields'.
Proof. eexists. reflexivity. Qed.

Section ClientFacts.

Variable World : Type.
Variable api : Client.Api World.

Lemma client_run (channelName : str) (st : St World) :
  Client.fetchChannelFeed api channelName st
  = let url := Client.resolveUrl api channelName in
    let '(r, w1) := Client.api_fetch api url (world st) in
    let st1 := {| world := w1; trace := trace st ++ [EvFetch url] |} in
    match r with
    | Throw e => (Throw e, st1)
    | Ok (Throw e) => (Throw e, st1)
    | Ok (Ok data) =>
        if truthy data then (Ok data, st1)
        else match get data (KName (L "error")) with
             | Throw e => (Throw e, st1)
             | Ok error =>
                 @Client.newError World
                   (or_ error (VStr (L "Failed to fetch channel feed"))) st1
             end
    end.
Proof.
  unfold Client.fetchChannelFeed, tryCatch, bind, call, liftRes, ret, throw.
  cbv zeta.
  destruct (Client.api_fetch api (Client.resolveUrl api channelName) (world st))
    as [[[data|e]|e] w1]; try reflexivity.
  destruct (truthy data); cbn [negb]; [reflexivity|].
  destruct (get data (KName (L "error"))) as [error|e]; [|reflexivity].
  unfold Client.newError, throw.
  destruct (toStr (or_ error (VStr (L "Failed to fetch channel feed")))); reflexivity.
Qed.

(** X22: the client returns whatever the route answered, read back
    from JSON, and that includes the failure body of a failed
    resolution: since every body of the handler is an object, the
    client never throws on an answer of the route. *)
Theorem client_returns_route_answer
        (RouteWorld : Type) (drv : Driver RouteWorld) (host : Host)
        (request : Request) (rst rst' : St RouteWorld) (body : JSVal)
        (channelName : str) (st : St World) (w1 : World) :
  GET drv host request rst = (Ok body, rst') ->
  Client.api_fetch api (Client.resolveUrl api channelName) (world st)
    = (Ok (Ok (jsonify body)), w1) ->
  Client.fetchChannelFeed api channelName st
  = (Ok (jsonify body),
     {| world := w1;
        trace := trace st ++ [EvFetch (Client.resolveUrl api channelName)] |}).
Proof.
  intros Hget Hapi. rewrite client_run. cbv zeta. rewrite Hapi.
  destruct (GET_body_is_object RouteWorld drv host request rst rst' body Hget)
    as [fields ->].
  reflexivity.
Qed.

(** X23: on an answer that is not an object the client throws: for
    the JSON values [false], [0] and the empty string the error
    [Failed to fetch channel feed]; for [null] the type error of
    reading a property of [null], not that message.  An error of the
    transport or of the JSON parser is rethrown as it is. *)
Theorem client_rejects_falsy_answer (channelName : str) (st : St World) :
  match Client.api_fetch api (Client.resolveUrl api channelName) (world st) with
  | (Throw e, _) => fst (Client.fetchChannelFeed api channelName st) = Throw e
  | (Ok (Throw e), _) => fst (Client.fetchChannelFeed api channelName st) = Throw e
  | (Ok (Ok data), _) =>
      (In data [VBool false; VNum (Int 0); VStr []] ->
       fst (Client.fetchChannelFeed api channelName st)
       = Throw (ErrorObj (L "Failed to fetch channel feed")))
      /\ (data = VNull ->
          fst (Client.fetchChannelFeed api channelName st) = Throw typeErr)
  end.
Proof.
  rewrite client_run. cbv zeta.
  destruct (Client.api_fetch api (Client.resolveUrl api channelName) (world st))
    as [[[data|e]|e] w1]; try reflexivity.
  split.
  - intros [<-|[<-|[<-|[]]]]; reflexivity.
  - intros ->. reflexivity.
Qed.

(** X24: [startChannelInfoUpdate] returns an answer whose [success]
    property is truthy; on an object whose [success] is falsy or
    missing it throws an error with the text of the [error] property
    or, when that is missing or empty, [Failed to fetch channel info]. *)
Theorem update_checks_success_flag
        (channelId profileId : str) (st : St World) (w1 : World)
        (fields : list (str * JSVal)) :
  Client.api_fetch api (Client.updateUrl api channelId profileId) (world st)
    = (Ok (Ok (VObj fields)), w1) ->
  (truthy (assoc (L "success") fields) = true ->
   fst (Client.startChannelInfoUpdate api channelId profileId st) = Ok (VObj fields))
  /\ (truthy (assoc (L "success") fields) = false ->
      (forall c m, assoc (L "error") fields = VStr (c :: m) ->
                   fst (Client.startChannelInfoUpdate api channelId profileId st)
                   = Throw (ErrorObj (c :: m)))
      /\ (truthy (assoc (L "error") fields) = false ->
          fst (Client.startChannelInfoUpdate api channelId profileId st)
          = Throw (ErrorObj (L "Failed to fetch channel info")))).
Proof.
  intros Hapi.
  unfold Client.startChannelInfoUpdate, tryCatch, bind, call, liftRes, ret, throw.
  rewrite Hapi. cbn [get fst].
  split.
  - intros Hs. rewrite Hs. reflexivity.
  - intros Hs. rewrite Hs. cbn [negb]. split.
    + intros c m He. rewrite He. reflexivity.
    + intros He. unfold or_. rewrite He. reflexivity.
Qed.

End ClientFacts.

Lemma client_returns_route_answer_witness :
  Client.fetchChannelFeed
    (answering (failureBody (L "Failed to scrape channel info: Channel not found: @ghost")))
    (L "@ghost") {| world := tt; trace := [] |}
  = (Ok (jsonify (failureBody
                    (L "Failed to scrape channel info: Channel not found: @ghost"))),
     {| world := tt;
        trace := [] ++ [EvFetch (Client.resolveUrl
                                   (answering (failureBody
                                      (L "Failed to scrape channel info: Channel not found: @ghost")))
                                   (L "@ghost"))] |}).
Proof.
  apply (@client_returns_route_answer
           unit
           (answering (failureBody
                         (L "Failed to scrape channel info: Channel not found: @ghost")))
           unit (scripted (allStatus 404)) productionHost
           [(L "channelName", L "@ghost")] {| world := tt; trace := [] |}
           (snd (run (GET (scripted (allStatus 404)) productionHost
                          [(L "channelName", L "@ghost")]) tt))
           (failureBody (L "Failed to scrape channel info: Channel not found: @ghost"))
           (L "@ghost") {| world := tt; trace := [] |} tt).
  - vm_compute. reflexivity.
  - reflexivity.
Defined.

Lemma update_checks_success_flag_witness :
  fst (Client.startChannelInfoUpdate
         (answering (failureBody (L "Channel not found")))
         (L "UCW5wxEjGHWNyatgZe-PU_tA") (L "profile-1") {| world := tt; trace := [] |})
  = Throw (ErrorObj (L "Channel not found")).
Proof.
  apply (proj1 (proj2 (@update_checks_success_flag
           unit (answering (failureBody (L "Channel not found")))
           (L "UCW5wxEjGHWNyatgZe-PU_tA") (L "profile-1") {| world := tt; trace := [] |}
           tt [ (L "success", VBool false); (L "error", VStr (L "Channel not found")) ]
           eq_refl) eq_refl) "C"%char (L "hannel not found")).
  reflexivity.
Defined.

(* ===================================================================== *)
(** ** What the client sees of a feed result *)
(* ===================================================================== *)

Lemma jsonify_VObj (fields : list (str * JSVal)) :
  jsonify (VObj fields) = VObj (jsonProps fields).
Proof. reflexivity. Qed.

Lemma jsonProps_skip (k k' : str) (x : JSVal) (fs : list (str * JSVal)) :
  str_eqb k k' = false ->
  assoc k (jsonProps ((k', x) :: fs)) = assoc k (jsonProps fs).
Proof.
  intros H. destruct x as [| | | |[]| |]; cbn [jsonProps assoc]; rewrite ?H; reflexivity.
Qed.

Lemma jsonProps_undefined (k : str) (fs : list (str * JSVal)) :
  jsonProps ((k, VUndefined) :: fs) = jsonProps fs.
Proof. reflexivity. Qed.

Lemma jsonProps_here (k : str) (x : JSVal) (fs : list (str * JSVal)) :
  x <> VUndefined ->
  assoc k (jsonProps ((k, x) :: fs)) = jsonify x.
Proof.
  intros H.
  assert (Hk : str_eqb k k = true).
  { unfold str_eqb. destruct (list_eq_dec ascii_dec k k); [reflexivity|contradiction]. }
  destruct x as [| | | |[]| |]; try contradiction;
    cbn [jsonProps assoc]; rewrite Hk; reflexivity.
Qed.

(** X25: in the body the client reads, the record of the feed fetcher
    has [viewCount: null] when the parsed view count is [NaN], and has
    no [lastVideoId] and no [lastVideoDate] property when the feed has
    no second entry to take them from. *)
Theorem client_view_of_feed_record (d : ChannelData) :
  (viewCount d = VNum NaN ->
   get (jsonify (dataBody d)) (KName (L "viewCount")) = Ok VNull)
  /\ (lastVideoId d = VUndefined -> lastVideoDate d = VUndefined ->
      get (jsonify (dataBody d)) (KName (L "lastVideoId")) = Ok VUndefined
      /\ get (jsonify (dataBody d)) (KName (L "lastVideoDate")) = Ok VUndefined
      /\ forall c, channelId d = VStr c ->
                   get (jsonify (dataBody d)) (KName (L "channelId")) = Ok (VStr c)).
Proof.
  unfold dataBody. rewrite jsonify_VObj. cbn [get]. split.
  - intros Hv. rewrite Hv.
    do 4 (rewrite jsonProps_skip by reflexivity).
    rewrite jsonProps_here by discriminate. reflexivity.
  - intros Hi Hd. rewrite Hi, Hd.
    repeat split.
    + do 5 (rewrite jsonProps_skip by reflexivity).
      rewrite !jsonProps_undefined. rewrite jsonProps_skip by reflexivity. reflexivity.
    + do 5 (rewrite jsonProps_skip by reflexivity).
      rewrite !jsonProps_undefined. rewrite jsonProps_skip by reflexivity. reflexivity.
    + intros c Hc. rewrite Hc.
      do 5 (rewrite jsonProps_skip by reflexivity).
      rewrite !jsonProps_undefined. rewrite jsonProps_here by discriminate. reflexivity.
Qed.
